(** * libdlo: screen-mode functions (dlo_mode.c)

    A shallow embedding of the mode catalogue, the mode lookup, the EDID
    parser, the supported-modes builder, the command-buffer staging
    primitives and the mode-select sequence of [dlo_mode.c], with the
    device structure of [dlo_structs.h].

    Conventions of the embedding.
    - C unsigned integers are [Z] values; where the source can wrap or
      truncate, the wrap-around is written out ([u8], [u16], [u32]).
    - A [(pointer, length)] pair is a [list byte] of that length.
    - An access outside an array is undefined behaviour in C; functions
      that index [dev->supported] or [dlo_mode_data] return [option], and
      [None] stands for such an access.
    - The source files [libdlo.h], [dlo_defs.h], [dlo_data.h] and
      [dlo_usb.c] are not part of the development; what is used of them is
      modelled at the place of use and marked as such. *)

From Stdlib Require Import ZArith List Lia Bool QArith.
From Stdlib Require Import Strings.Byte.
From stdpp Require Import base option list.

Local Open Scope Z_scope.

(** ** Machine integers *)

Definition u8 (x : Z) : Z := x mod 256.
Definition u16 (x : Z) : Z := x mod 65536.
Definition u32 (x : Z) : Z := x mod 4294967296.

(** The value of a byte as an unsigned integer, and the conversion of an
    integer to [uint8_t] (reduction modulo 256). *)
Definition byte_val (b : byte) : Z := Z.of_N (Byte.to_N b).

Definition to_byte (x : Z) : byte :=
  match Byte.of_N (Z.to_N (u8 x)) with
  | Some b => b
  | None => x00
  end.

#[global] Instance byte_eq_decision : EqDecision byte := Byte.byte_eq_dec.

(** Read of element [i] of a C array held as a list; [None] is a read
    outside the array. *)
Definition array_get {A : Type} (l : list A) (i : Z) : option A :=
  if i <? 0 then None else l !! Z.to_nat i.

(** ** Constants of the missing headers *)

(** Modelled from the spec: [DLO_MODE_DATA_NUM] of [dlo_data.h], the
    number of catalogue entries ("a fixed ordered list of 35 entries");
    [dlo_mode_init] below initialises exactly the indices 0..34. *)
Definition DLO_MODE_DATA_NUM : Z := 35.

(** Modelled from the spec: [DLO_INVALID_MODE] of [libdlo.h], "a reserved
    sentinel distinct from every valid index"; a [dlo_modenum_t] is a
    [uint32_t] and the sentinel is taken to be its all-ones value. *)
Definition DLO_INVALID_MODE : Z := 4294967295.

(** Modelled from the spec: [BYTES_PER_16BPP] of [dlo_defs.h]
    ("[dev.base8 = desired.base + 2 * width * height]"). *)
Definition BYTES_PER_16BPP : Z := 2.

(** ** Return codes *)

(** The members of [dlo_retcode_t] (declared in [libdlo.h]) that
    [dlo_mode.c] names, and [dlo_retcode_num v] for a value of the enum
    given by its number [v]: any other member (the transport's error
    codes), or an integer converted to the enum type. *)
Inductive dlo_retcode_t : Type :=
  | dlo_ok
  | dlo_err_bad_mode
  | dlo_err_buf_full
  | dlo_err_edid_fail
  | dlo_warn_dl160_mode
  | dlo_retcode_num (v : Z).

#[global] Instance dlo_retcode_eq_decision : EqDecision dlo_retcode_t.
Proof. solve_decision. Defined.

Definition is_ok (rc : dlo_retcode_t) : bool :=
  match rc with dlo_ok => true | _ => false end.

(** ** Mode records *)

Module View.
(** [dlo_view_t] of [libdlo.h]: width and height (uint16), colour depth
    (uint8), base address in the adapter's memory (uint32). *)
Record t : Type := mk { width : Z; height : Z; bpp : Z; base : Z }.
End View.
Abbreviation dlo_view_t := View.t.

Module Mode.
(** [dlo_mode_t] of [libdlo.h]: a viewport and a refresh rate (uint8). *)
Record t : Type := mk { view : dlo_view_t; refresh : Z }.
End Mode.
Abbreviation dlo_mode_t := Mode.t.

(** The result of [dlo_memset(&m, 0, sizeof(dlo_mode_t))]. *)
Definition zero_mode : dlo_mode_t := Mode.mk (View.mk 0 0 0 0) 0.

(** ** The mode catalogue *)

(** The arrays [DLO_MODE_DATA_w_h_r_bpp_0] and [DLO_MODE_ENABLE_w_h_r_bpp_0]
    of [dlo_data.h], which [init_mode] selects by token pasting, are named
    by the numbers pasted; their contents are resolved by the transport
    section below. *)
Inductive blob : Type :=
  | blob_null
  | DLO_MODE_DATA (w h r b : Z)
  | DLO_MODE_ENABLE (w h r b : Z).

Module ModeData.
(** [dlo_mode_data_t]; [data_sz] and [mode_en_sz] are the sizes of the
    arrays named by [data] and [mode_en]. *)
Record t : Type := mk {
  width : Z;
  height : Z;
  refresh : Z;
  bpp : Z;
  data : blob;
  mode_en : blob;
  low_blank : bool
}.
End ModeData.
Abbreviation dlo_mode_data_t := ModeData.t.

(** An entry of the zero-initialised static array. *)
Definition zero_mode_data : dlo_mode_data_t :=
  ModeData.mk 0 0 0 0 blob_null blob_null false.

(** The macro [init_mode(idx, mwidth, mheight, mrefresh, mbpp)]. *)
Definition init_mode (tbl : list dlo_mode_data_t) (idx : nat)
    (mwidth mheight mrefresh mbpp : Z) : list dlo_mode_data_t :=
  <[idx := ModeData.mk mwidth mheight mrefresh mbpp
             (DLO_MODE_DATA mwidth mheight mrefresh mbpp)
             (DLO_MODE_ENABLE mwidth mheight mrefresh mbpp)
             false]> tbl.

(** [dlo_mode_init]: the 35 [init_mode] statements, in order. *)
Definition dlo_mode_init (tbl : list dlo_mode_data_t)
    : dlo_retcode_t * list dlo_mode_data_t :=
  let tbl := init_mode tbl 0 1920 1080 60 24 in
  let tbl := init_mode tbl 1 1600 1200 60 24 in
  let tbl := init_mode tbl 2 1400 1050 85 24 in
  let tbl := init_mode tbl 3 1400 1050 75 24 in
  let tbl := init_mode tbl 4 1400 1050 60 24 in
  let tbl := init_mode tbl 5 1400 1050 60 24 in
  let tbl := init_mode tbl 6 1366 768 60 24 in
  let tbl := init_mode tbl 7 1360 768 60 24 in
  let tbl := init_mode tbl 8 1280 960 85 24 in
  let tbl := init_mode tbl 9 1280 960 60 24 in
  let tbl := init_mode tbl 10 1280 800 60 24 in
  let tbl := init_mode tbl 11 1280 768 85 24 in
  let tbl := init_mode tbl 12 1280 768 75 24 in
  let tbl := init_mode tbl 13 1280 1024 85 24 in
  let tbl := init_mode tbl 14 1280 1024 75 24 in
  let tbl := init_mode tbl 15 1280 1024 60 24 in
  let tbl := init_mode tbl 16 1280 768 60 24 in
  let tbl := init_mode tbl 17 1152 864 75 24 in
  let tbl := init_mode tbl 18 1024 768 85 24 in
  let tbl := init_mode tbl 19 1024 768 75 24 in
  let tbl := init_mode tbl 20 1024 768 70 24 in
  let tbl := init_mode tbl 21 1024 768 60 24 in
  let tbl := init_mode tbl 22 848 480 60 24 in
  let tbl := init_mode tbl 23 800 600 85 24 in
  let tbl := init_mode tbl 24 800 600 75 24 in
  let tbl := init_mode tbl 25 800 600 72 24 in
  let tbl := init_mode tbl 26 800 600 60 24 in
  let tbl := init_mode tbl 27 800 600 56 24 in
  let tbl := init_mode tbl 28 800 480 60 24 in
  let tbl := init_mode tbl 29 720 400 85 24 in
  let tbl := init_mode tbl 30 720 400 70 24 in
  let tbl := init_mode tbl 31 640 480 85 24 in
  let tbl := init_mode tbl 32 640 480 75 24 in
  let tbl := init_mode tbl 33 640 480 73 24 in
  let tbl := init_mode tbl 34 640 480 60 24 in
  (dlo_ok, tbl).

(** The file-scope array [dlo_mode_data[DLO_MODE_DATA_NUM]] as
    [dlo_mode_init] leaves it. *)
Definition dlo_mode_data : list dlo_mode_data_t :=
  Eval vm_compute in
    snd (dlo_mode_init (replicate (Z.to_nat DLO_MODE_DATA_NUM) zero_mode_data)).

(** ** The device *)

(** A transfer handed to the USB transport: a bulk write of command bytes
    or a control transfer on the mode-enable channel. *)
Inductive usb_transfer : Type :=
  | usb_bulk (bytes : list byte)
  | usb_control (bytes : list byte).

Module Dev.
(** The members of [struct dlo_device_s] that [dlo_mode.c] reads or
    writes.  [buffer] is the memory of the command buffer, from the
    pointer [buffer] up to (not including) [bufend]; [bufptr] is held as
    an offset from [buffer].  [cnct] is the transport's view of the
    device: the transfers it was handed, oldest first. *)
Record t : Type := mk {
  buffer : list byte;
  bufptr : Z;
  cnct : list usb_transfer;
  mode : dlo_mode_t;
  base8 : Z;
  low_blank : bool;
  native : dlo_mode_t;
  supported : list Z
}.

Definition bufend (dev : t) : Z := Z.of_nat (length (buffer dev)).

Definition set_buffer (dev : t) (b : list byte) (p : Z) : t :=
  mk b p (cnct dev) (mode dev) (base8 dev) (low_blank dev) (native dev)
     (supported dev).
Definition set_cnct (dev : t) (c : list usb_transfer) : t :=
  mk (buffer dev) (bufptr dev) c (mode dev) (base8 dev) (low_blank dev)
     (native dev) (supported dev).
Definition set_mode (dev : t) (m : dlo_mode_t) : t :=
  mk (buffer dev) (bufptr dev) (cnct dev) m (base8 dev) (low_blank dev)
     (native dev) (supported dev).
Definition set_base8 (dev : t) (b : Z) : t :=
  mk (buffer dev) (bufptr dev) (cnct dev) (mode dev) b (low_blank dev)
     (native dev) (supported dev).
Definition set_low_blank (dev : t) (b : bool) : t :=
  mk (buffer dev) (bufptr dev) (cnct dev) (mode dev) (base8 dev) b
     (native dev) (supported dev).
Definition set_native (dev : t) (m : dlo_mode_t) : t :=
  mk (buffer dev) (bufptr dev) (cnct dev) (mode dev) (base8 dev)
     (low_blank dev) m (supported dev).
Definition set_supported (dev : t) (s : list Z) : t :=
  mk (buffer dev) (bufptr dev) (cnct dev) (mode dev) (base8 dev)
     (low_blank dev) (native dev) s.
End Dev.
Abbreviation dlo_device_t := Dev.t.

(** ** Mode numbers *)

(** [dlo_mode_from_number]; [None] is the [NULL] return.  The static
    [mode] the source returns a pointer to is returned by value. *)
Definition dlo_mode_from_number (num : Z) : option dlo_mode_t :=
  if num <? DLO_MODE_DATA_NUM then
    m ← array_get dlo_mode_data num;
    Some (Mode.mk (View.mk (ModeData.width m) (ModeData.height m)
                           (ModeData.bpp m) 0)
                  (ModeData.refresh m))
  else None.

(** The body of the [for] loop of [get_mode_number], from index [idx], for
    the [n] iterations that remain. *)
Fixpoint get_mode_number_from (supported : list Z)
    (width height refresh bpp : Z) (n : nat) (idx : nat) : option Z :=
  match n with
  | O => Some DLO_INVALID_MODE
  | S n' =>
      num ← supported !! idx;
      if num =? DLO_INVALID_MODE then Some DLO_INVALID_MODE
      else
        m ← array_get dlo_mode_data num;
        if negb (ModeData.width m =? width) then
          get_mode_number_from supported width height refresh bpp n' (S idx)
        else if negb (bpp =? 0) && negb (ModeData.bpp m =? bpp) then
          get_mode_number_from supported width height refresh bpp n' (S idx)
        else if negb (height =? 0) && negb (ModeData.height m =? height) then
          get_mode_number_from supported width height refresh bpp n' (S idx)
        else if negb (refresh =? 0) && negb (ModeData.refresh m =? refresh) then
          get_mode_number_from supported width height refresh bpp n' (S idx)
        else Some num
  end.

Definition get_mode_number (dev : dlo_device_t)
    (width height refresh bpp : Z) : option Z :=
  get_mode_number_from (Dev.supported dev) width height refresh bpp
    (Z.to_nat DLO_MODE_DATA_NUM) 0.

(** [dlo_mode_lookup]. *)
Definition dlo_mode_lookup (dev : dlo_device_t)
    (width height refresh bpp : Z) : option Z :=
  if negb (bpp =? 24) then Some DLO_INVALID_MODE
  else get_mode_number dev width height refresh bpp.

(** [use_default_modes]: [dev->supported[i] = i] for [i] from 0 to
    [DLO_MODE_DATA_NUM - 1]. *)
Definition use_default_modes (dev : dlo_device_t) : dlo_device_t :=
  Dev.set_supported dev
    (foldl (fun s i => <[i := Z.of_nat i]> s) (Dev.supported dev)
           (seq 0 (Z.to_nat DLO_MODE_DATA_NUM))).

(** ** Staging bytes in the command buffer *)

(** Modelled from the spec: the macro [ERR] of [dlo_defs.h] ("every
    framing primitive returns a result; callers short-circuit on first
    non-OK"): [ERR(cmd)] returns the code of [cmd] from the enclosing
    function unless it is [dlo_ok]. *)
Definition ERR (cmd : option (dlo_retcode_t * dlo_device_t))
    (k : dlo_device_t -> option (dlo_retcode_t * dlo_device_t))
    : option (dlo_retcode_t * dlo_device_t) :=
  match cmd with
  | None => None
  | Some (rc, dev) => if is_ok rc then k dev else Some (rc, dev)
  end.

Notation "'ERR!' c ;; dev , k" := (ERR c (fun dev => k))
  (at level 10, c at level 9, dev name, k at level 200, only parsing).

(** The statement [*(dev->bufptr)++ = b]; [None] is a store outside the
    buffer. *)
Definition poke (dev : dlo_device_t) (b : byte) : option dlo_device_t :=
  if (0 <=? Dev.bufptr dev) && (Dev.bufptr dev <? Dev.bufend dev) then
    Some (Dev.set_buffer dev
            (<[Z.to_nat (Dev.bufptr dev) := b]> (Dev.buffer dev))
            (Dev.bufptr dev + 1))
  else None.

(** [vreg]: the comparison [dev->bufend - dev->bufptr < 4] is one of
    signed integers. *)
Definition vreg (dev : dlo_device_t) (reg val : byte)
    : option (dlo_retcode_t * dlo_device_t) :=
  if Dev.bufend dev - Dev.bufptr dev <? 4 then Some (dlo_err_buf_full, dev)
  else
    dev ← poke dev xaf;
    dev ← poke dev x20;
    dev ← poke dev reg;
    dev ← poke dev val;
    Some (dlo_ok, dev).

(** Conversion of a pointer difference to [size_t], on a host with 64-bit
    pointers. *)
Definition to_size_t (x : Z) : Z := x mod 2 ^ 64.

(** The loop [while (len--) *(dev->bufptr)++ = *buf++]. *)
Fixpoint vbuf_copy (dev : dlo_device_t) (buf : list byte)
    : option dlo_device_t :=
  match buf with
  | [] => Some dev
  | b :: buf' => dev ← poke dev b; vbuf_copy dev buf'
  end.

(** [vbuf]; [buf] holds the [len] bytes at the source's pointer [buf].  The
    comparison [dev->bufend - dev->bufptr < len] is one of [size_t]
    values. *)
Definition vbuf (dev : dlo_device_t) (buf : list byte)
    : option (dlo_retcode_t * dlo_device_t) :=
  if to_size_t (Dev.bufend dev - Dev.bufptr dev) <? Z.of_nat (length buf)
  then Some (dlo_err_buf_full, dev)
  else dev ← vbuf_copy dev buf; Some (dlo_ok, dev).

(** The bytes staged and not yet sent: the buffer from its base up to
    [bufptr]. *)
Definition staged (dev : dlo_device_t) : list byte :=
  take (Z.to_nat (Dev.bufptr dev)) (Dev.buffer dev).

(** [WRITE_VIDREG_LOCK] and [WRITE_VIDREG_UNLOCK], as [DSIZEOF] measures
    them (the literal without its terminating NUL). *)
Definition WRITE_VIDREG_LOCK : list byte := [xaf; x20; xff; x00].
Definition WRITE_VIDREG_UNLOCK : list byte := [xaf; x20; xff; xff; xaf; xa0].

(** ** The transport and the mode-select sequence *)

Section Transport.

(** The USB transport is outside the library's core.  [usb_io h t] is
    the code it reports when handed the transfer [t] after the transfers
    [h]. *)
Variable usb_io : list usb_transfer -> usb_transfer -> dlo_retcode_t.

(** The contents of the arrays of [dlo_data.h], the blob
    [DLO_MODE_POSTAMBLE] and the constant [DLO_DL120_MODES]. *)
Variable blob_bytes : blob -> list byte.
Variable DLO_MODE_POSTAMBLE : list byte.
Variable DLO_DL120_MODES : Z.

Definition usb_send (dev : dlo_device_t) (t : usb_transfer)
    : dlo_retcode_t * dlo_device_t :=
  (usb_io (Dev.cnct dev) t, Dev.set_cnct dev (Dev.cnct dev ++ [t])).

(** Modelled from the spec: [dlo_usb_write] of [dlo_usb.c], the flush of
    the command buffer: the staged bytes go to the transport as a bulk
    write, in stage order, and the cursor is reset to the base of the
    buffer, also when the transport fails. *)
Definition dlo_usb_write (dev : dlo_device_t)
    : dlo_retcode_t * dlo_device_t :=
  let t := usb_bulk (staged dev) in
  usb_send (Dev.set_buffer dev (Dev.buffer dev) 0) t.

(** Modelled from the spec: [dlo_usb_write_buf] of [dlo_usb.c], a bulk
    write of the given bytes, which does not go through the command
    buffer. *)
Definition dlo_usb_write_buf (dev : dlo_device_t) (buf : list byte)
    : dlo_retcode_t * dlo_device_t :=
  usb_send dev (usb_bulk buf).

(** Modelled from the spec: [dlo_usb_chan_sel] of [dlo_usb.c], the
    channel-select control transfer with the given bytes. *)
Definition dlo_usb_chan_sel (dev : dlo_device_t) (buf : list byte)
    : dlo_retcode_t * dlo_device_t :=
  usb_send dev (usb_control buf).

(** [set_base]; the arguments of [vreg] are converted to [uint8_t]. *)
Definition set_base (dev : dlo_device_t) (base base8 : Z)
    : option (dlo_retcode_t * dlo_device_t) :=
  ERR! (vbuf dev WRITE_VIDREG_LOCK) ;; dev,
  ERR! (vreg dev x20 (to_byte (Z.shiftr base 16))) ;; dev,
  ERR! (vreg dev x21 (to_byte (Z.shiftr base 8))) ;; dev,
  ERR! (vreg dev x22 (to_byte base)) ;; dev,
  ERR! (vreg dev x26 (to_byte (Z.shiftr base8 16))) ;; dev,
  ERR! (vreg dev x27 (to_byte (Z.shiftr base8 8))) ;; dev,
  ERR! (vreg dev x28 (to_byte base8)) ;; dev,
  ERR! (vbuf dev WRITE_VIDREG_UNLOCK) ;; dev,
  ERR! (Some (dlo_usb_write dev)) ;; dev,
  Some (dlo_ok, dev).

(** The three transfers of a change of raster: the entry's mode-enable
    blob on the control channel, its mode data as a bulk write, the
    postamble on the control channel. *)
Definition mode_program (dev : dlo_device_t) (m : dlo_mode_data_t)
    : option (dlo_retcode_t * dlo_device_t) :=
  ERR! (Some (dlo_usb_chan_sel dev (blob_bytes (ModeData.mode_en m)))) ;; dev,
  ERR! (Some (dlo_usb_write_buf dev (blob_bytes (ModeData.data m)))) ;; dev,
  ERR! (Some (dlo_usb_chan_sel dev DLO_MODE_POSTAMBLE)) ;; dev,
  Some (dlo_ok, dev).

(** [mode_select].  [desc->view.base + BYTES_PER_16BPP * width * height]
    is stored in a [uint32_t]. *)
Definition mode_select (dev : dlo_device_t) (desc : dlo_mode_t) (mode : Z)
    : option (dlo_retcode_t * dlo_device_t) :=
  if (mode >=? DLO_MODE_DATA_NUM) || (mode =? DLO_INVALID_MODE) then
    Some (dlo_err_bad_mode, dev)
  else if negb (Z.land (View.base (Mode.view desc)) 1 =? 0) then
    Some (dlo_err_bad_mode, dev)
  else
    let '(rc, dev) := dlo_usb_write dev in
    if negb (is_ok rc) then Some (dlo_retcode_num DLO_INVALID_MODE, dev)
    else
      let v := Mode.view (Dev.mode dev) in
      let dev :=
        Dev.set_mode dev
          (Mode.mk (View.mk (View.width v) (View.height v) (View.bpp v)
                            (View.base (Mode.view desc)))
                   (Mode.refresh (Dev.mode dev))) in
      let dev :=
        Dev.set_base8 dev
          (u32 (View.base (Mode.view desc)
                + BYTES_PER_16BPP * View.width (Mode.view desc)
                  * View.height (Mode.view desc))) in
      ERR! (set_base dev (View.base (Mode.view (Dev.mode dev)))
                         (Dev.base8 dev)) ;; dev,
      m ← array_get dlo_mode_data mode;
      ERR! (if negb (View.width (Mode.view desc)
                       =? View.width (Mode.view (Dev.mode dev)))
               || negb (View.height (Mode.view desc)
                          =? View.height (Mode.view (Dev.mode dev)))
               || negb (View.bpp (Mode.view desc)
                          =? View.bpp (Mode.view (Dev.mode dev)))
            then mode_program dev m
            else Some (dlo_ok, dev)) ;; dev,
      let dev := Dev.set_mode dev desc in
      let dev :=
        Dev.set_mode dev
          (Mode.mk (Mode.view (Dev.mode dev)) (ModeData.refresh m)) in
      let dev := Dev.set_low_blank dev (ModeData.low_blank m) in
      ERR! (Some (dlo_usb_write dev)) ;; dev,
      Some (if mode <? DLO_DL120_MODES then dlo_warn_dl160_mode else dlo_ok,
            dev).

(** [dlo_mode_change]. *)
Definition dlo_mode_change (dev : dlo_device_t) (desc : dlo_mode_t)
    (mode : Z) : option (dlo_retcode_t * dlo_device_t) :=
  mode ← (if mode =? DLO_INVALID_MODE then
            get_mode_number dev (View.width (Mode.view desc))
              (View.height (Mode.view desc)) 0 (View.bpp (Mode.view desc))
          else Some mode);
  mode_select dev desc mode.

End Transport.

(** ** EDID structures *)

(** [est_timing_t] and the table [est_timings]: the mode of each bit of
    the established-timings bytes. *)
Module EstTiming.
Record t : Type := mk { width : Z; height : Z; refresh : Z }.
End EstTiming.
Abbreviation est_timing_t := EstTiming.t.

Definition est_timings : list est_timing_t :=
  [ EstTiming.mk 800 600 60;     (* bit 0 *)
    EstTiming.mk 800 600 56;     (* bit 1 *)
    EstTiming.mk 640 480 75;     (* bit 2 *)
    EstTiming.mk 640 480 72;     (* bit 3 *)
    EstTiming.mk 640 480 67;     (* bit 4 *)
    EstTiming.mk 640 480 60;     (* bit 5 *)
    EstTiming.mk 720 400 88;     (* bit 6 *)
    EstTiming.mk 720 400 70;     (* bit 7 *)
    EstTiming.mk 1280 1024 75;   (* bit 8 *)
    EstTiming.mk 1024 768 75;    (* bit 9 *)
    EstTiming.mk 1024 768 70;    (* bit 10 *)
    EstTiming.mk 1024 768 60;    (* bit 11 *)
    EstTiming.mk 1024 768 87;    (* bit 12 *)
    EstTiming.mk 832 624 75;     (* bit 13 *)
    EstTiming.mk 800 600 75;     (* bit 14 *)
    EstTiming.mk 800 600 72;     (* bit 15 *)
    EstTiming.mk 0 0 0;          (* bit 16 *)
    EstTiming.mk 0 0 0;          (* bit 17 *)
    EstTiming.mk 0 0 0;          (* bit 18 *)
    EstTiming.mk 0 0 0;          (* bit 19 *)
    EstTiming.mk 0 0 0;          (* bit 20 *)
    EstTiming.mk 0 0 0;          (* bit 21 *)
    EstTiming.mk 0 0 0;          (* bit 22 *)
    EstTiming.mk 1152 870 75 ].  (* bit 23 *)

Module ProdId.
Record t : Type := mk {
  manuf_name : Z; prod_code : Z; serial_num : Z; manuf_wk : Z; manuf_yr : Z
}.
End ProdId.
Abbreviation edid_prod_id_t := ProdId.t.

Module StructVsn.
Record t : Type := mk { number : Z; revision : Z }.
End StructVsn.
Abbreviation edid_struct_vsn_t := StructVsn.t.

Module BasicParams.
(** [gamma] is a [float] in the source; the embedding keeps the exact
    quotient. *)
Record t : Type := mk {
  input_def : Z; max_horiz_sz : Z; max_vert_sz : Z; gamma : Q; features : Z
}.
End BasicParams.
Abbreviation edid_basic_params_t := BasicParams.t.

Module Colours.
Record t : Type := mk {
  red_grn_low : Z; blu_wht_low : Z;
  red_x : Z; red_y : Z; grn_x : Z; grn_y : Z;
  blu_x : Z; blu_y : Z; wht_x : Z; wht_y : Z
}.
End Colours.
Abbreviation edid_colours_t := Colours.t.

Module EstTimings.
Record t : Type := mk { timings0 : Z; timings1 : Z; resvd : Z }.
End EstTimings.
Abbreviation edid_est_timings_t := EstTimings.t.

Module Detail.
(** [edid_detail_t] without its flag [is_detail], which is the
    constructor of [edid_timing_desc_t] below; [pixclk] is a [float] in
    the source and the exact quotient here. *)
Record t : Type := mk {
  pixclk : Q;
  hactl : Z; hblankl : Z; hactblankh : Z;
  vactl : Z; vblankl : Z; vactblankh : Z;
  hsyncoffl : Z; hsyncwl : Z; vsyncoffvsyncwl : Z; synch : Z;
  hsizel : Z; vsizel : Z; hvsizeh : Z;
  hbord : Z; vbord : Z; flags : Z
}.
End Detail.
Abbreviation edid_detail_t := Detail.t.

(** The union [edid_timing_desc_t], discriminated by the member
    [is_detail] that both of its structures start with.  For a monitor
    descriptor the source sets only the flag. *)
Inductive edid_timing_desc_t : Type :=
  | timing_detail (detail : edid_detail_t)
  | timing_desc.

Module Edid.
(** [edid_format_t]; [std_timings] is the array [timing_id[8]] and
    [timings] the array of the four descriptors. *)
Record t : Type := mk {
  product : edid_prod_id_t;
  version : edid_struct_vsn_t;
  basic : edid_basic_params_t;
  colours : edid_colours_t;
  est_timings : edid_est_timings_t;
  std_timings : list Z;
  timings : list edid_timing_desc_t;
  ext_blocks : Z
}.
End Edid.
Abbreviation edid_format_t := Edid.t.

(** ** Reading the EDID bytes *)

(** Modelled from the spec: the macros [RD_B], [RD_S] and [RD_L] of
    [dlo_defs.h] ("read ... integers from a byte pointer"): the byte at
    the pointer, and the 16- and 32-bit words there in the byte order of
    the host.  A pointer [ptr + off] is the list from offset [off].  A
    read past the end of the list gives 0; every offset the parser reads
    lies inside a block of [EDID_STRUCT_SZ] bytes. *)
Definition RD_B (ptr : list byte) (off : nat) : Z :=
  byte_val (nth off ptr x00).

Definition RD_S (bigendian : bool) (ptr : list byte) (off : nat) : Z :=
  if bigendian then Z.lor (Z.shiftl (RD_B ptr off) 8) (RD_B ptr (off + 1))
  else Z.lor (RD_B ptr off) (Z.shiftl (RD_B ptr (off + 1)) 8).

Definition RD_L (bigendian : bool) (ptr : list byte) (off : nat) : Z :=
  if bigendian then
    Z.lor (Z.shiftl (RD_S true ptr off) 16) (RD_S true ptr (off + 2))
  else
    Z.lor (RD_S false ptr off) (Z.shiftl (RD_S false ptr (off + 2)) 16).

Definition swap_endian_l (val : Z) : Z :=
  u32 (Z.lor (Z.lor (Z.lor (Z.shiftl (Z.land val 0xFF) 24)
                           (Z.shiftl (Z.land val 0xFF00) 8))
                    (Z.shiftr (Z.land val 0xFF0000) 8))
             (Z.land (Z.shiftr val 24) 0xFF)).

Definition swap_endian_s (val : Z) : Z :=
  u16 (Z.lor (Z.land (Z.shiftr val 8) 0xFF) (Z.land (Z.shiftl val 8) 0xFF00)).

(** [IS_BIGENDIAN()] tests the first byte of the constant [endian]; the
    embedding fixes a little-endian host, on which [LETOHS] and [LETOHL]
    leave the word read as it is. *)
Definition IS_BIGENDIAN : bool := false.

Definition LETOHL (bigendian : bool) (val : Z) : Z :=
  if bigendian then swap_endian_l val else val.

Definition LETOHS (bigendian : bool) (val : Z) : Z :=
  if bigendian then swap_endian_s val else val.

Definition header : list byte := [x00; xff; xff; xff; xff; xff; xff; x00].

(** [memcmp(a, b, n)] as the truth value the source tests: the first [n]
    bytes differ. *)
Definition memcmp (a b : list byte) (n : nat) : bool :=
  negb (bool_decide (take n a = take n b)).

(** [bad_edid_checksum]; [csum] is a [uint8_t] and [size] the length of
    [ptr]. *)
Definition bad_edid_checksum (ptr : list byte) : bool :=
  let csum := foldl (fun csum b => u8 (csum + byte_val b)) 0 ptr in
  negb (0 =? csum).

(** [parse_edid_colours]: the raw reads, then the expansion; the members
    are [uint16_t]. *)
Definition parse_edid_colours (ptr : list byte) : edid_colours_t :=
  let red_grn_low := RD_B ptr 0x19 in
  let blu_wht_low := RD_B ptr 0x1A in
  let red_x := RD_B ptr 0x1B in
  let red_y := RD_B ptr 0x1C in
  let grn_x := RD_B ptr 0x1D in
  let grn_y := RD_B ptr 0x1E in
  let blu_x := RD_B ptr 0x1F in
  let blu_y := RD_B ptr 0x20 in
  let wht_x := RD_B ptr 0x21 in
  let wht_y := RD_B ptr 0x22 in
  let red_x := u16 (Z.shiftr (Z.land red_grn_low 0xC0) 6 + Z.shiftl red_x 2) in
  let red_y := u16 (Z.shiftr (Z.land red_grn_low 0x30) 4 + Z.shiftl red_y 2) in
  let grn_x := u16 (Z.shiftr (Z.land red_grn_low 0x0C) 2 + Z.shiftl grn_x 2) in
  let grn_y := u16 (Z.shiftr (Z.land red_grn_low 0x03) 0 + Z.shiftl grn_y 2) in
  let blu_x := u16 (Z.shiftr (Z.land blu_wht_low 0xC0) 6 + Z.shiftl blu_x 2) in
  let blu_y := u16 (Z.shiftr (Z.land blu_wht_low 0x40) 4 + Z.shiftl blu_y 2) in
  let wht_x := u16 (Z.shiftr (Z.land blu_wht_low 0x0C) 2 + Z.shiftl wht_y 2) in
  let wht_y := u16 (Z.shiftr (Z.land blu_wht_low 0x03) 0 + Z.shiftl wht_y 2) in
  Colours.mk red_grn_low blu_wht_low red_x red_y grn_x grn_y
             blu_x blu_y wht_x wht_y.

(** [parse_edid_detail_desc].  The branch of a monitor descriptor formats
    a string into a local buffer and changes nothing else. *)
Definition parse_edid_detail_desc (ptr : list byte) : edid_timing_desc_t :=
  if negb (RD_B ptr 0 =? 0) || negb (RD_B ptr 1 =? 0)
     || negb (RD_B ptr 2 =? 0)
  then
    timing_detail
      (Detail.mk
         (Qmake (LETOHS IS_BIGENDIAN (RD_S IS_BIGENDIAN ptr 0)) 100)
         (RD_B ptr 0x02) (RD_B ptr 0x03) (RD_B ptr 0x04)
         (RD_B ptr 0x05) (RD_B ptr 0x06) (RD_B ptr 0x07)
         (RD_B ptr 0x08) (RD_B ptr 0x09) (RD_B ptr 0x0A) (RD_B ptr 0x0B)
         (RD_B ptr 0x0C) (RD_B ptr 0x0D) (RD_B ptr 0x0E)
         (RD_B ptr 0x0F) (RD_B ptr 0x10) (RD_B ptr 0x11))
  else timing_desc.

(** The assignments of [dlo_mode_parse_edid] to its static [edid], from
    the product information to the four descriptors.  The loop over
    [std_timings] runs [sizeof(timing_id)] = 16 times over an array of 8
    elements; the embedding keeps the 8 elements of the array (the other 8
    stores fall on the first descriptor, which is parsed afterwards). *)
Definition parse_edid_format (ptr : list byte) : edid_format_t :=
  Edid.mk
    (ProdId.mk (LETOHS IS_BIGENDIAN (RD_S IS_BIGENDIAN ptr 0x08))
               (LETOHS IS_BIGENDIAN (RD_S IS_BIGENDIAN ptr 0x0A))
               (LETOHL IS_BIGENDIAN (RD_L IS_BIGENDIAN ptr 0x0C))
               (RD_B ptr 0x10) (RD_B ptr 0x11))
    (StructVsn.mk (RD_B ptr 0x12) (RD_B ptr 0x13))
    (BasicParams.mk (RD_B ptr 0x14) (RD_B ptr 0x15) (RD_B ptr 0x16)
                    (Qmake (100 + RD_B ptr 0x17) 100) (RD_B ptr 0x18))
    (parse_edid_colours (drop 0x19 ptr))
    (EstTimings.mk (RD_B ptr 0x23) (RD_B ptr 0x24) (RD_B ptr 0x25))
    (map (fun i => RD_B ptr (0x26 + i)) (seq 0 8))
    (map (fun i => parse_edid_detail_desc (drop (0x36 + i * 0x12) ptr))
         (seq 0 4))
    (RD_B ptr 0x7E).

(** ** Building the list of supported modes *)

(** A loop whose body may leave the arrays: the body is run on each
    element in turn, and the first undefined step ends the run. *)
Fixpoint for_each {A S : Type} (body : S -> A -> option S) (s : S)
    (l : list A) : option S :=
  match l with
  | [] => Some s
  | a :: l' => s' ← body s a; for_each body s' l'
  end.

(** [add_supported].  The index [idx] is a [uint16_t] here and a
    [uint32_t] in the caller; it counts the modes added, at most one per
    call over 24 + 4 * 50 calls, so it is held as a natural number.  The
    store [dev->supported[idx++] = num] is inside the array for
    [idx < DLO_MODE_DATA_NUM]. *)
Definition add_supported (dev : dlo_device_t) (idx : nat)
    (width height refresh : Z) : option (dlo_device_t * nat) :=
  num ← get_mode_number dev width height refresh 24;
  if negb (num =? DLO_INVALID_MODE) then
    if Z.of_nat idx <? DLO_MODE_DATA_NUM then
      Some (Dev.set_supported dev (<[idx := num]> (Dev.supported dev)), S idx)
    else None
  else Some (dev, idx).

(** The first loop of [lookup_edid_modes], over the 24 bits of the
    established timings.  The word [timings] is assembled by the source
    and not read by the loop. *)
Definition est_body (timings : Z) (s : dlo_device_t * nat)
    (e : est_timing_t) : option (dlo_device_t * nat) :=
  let '(dev, idx) := s in
  if negb (EstTiming.width e =? 0) then
    add_supported dev idx (EstTiming.width e) (EstTiming.height e)
                  (EstTiming.refresh e)
  else Some (dev, idx).

Definition est_stage (dev : dlo_device_t) (edid : edid_format_t) (idx : nat)
    : option (dlo_device_t * nat) :=
  let timings :=
    Z.lor (Z.lor (EstTimings.timings0 (Edid.est_timings edid))
                 (Z.shiftl (EstTimings.timings1 (Edid.est_timings edid)) 8))
          (Z.shiftl (EstTimings.resvd (Edid.est_timings edid)) 16) in
  for_each (est_body timings) (dev, idx) est_timings.

(** The body of the loop over [hz] for one detailed timing: [width] and
    [height] are [uint32_t] and are passed as [uint16_t]. *)
Definition hz_body (detail : edid_detail_t) (s : dlo_device_t * nat)
    (hz : Z) : option (dlo_device_t * nat) :=
  let '(dev, idx) := s in
  let prev := idx in
  let width :=
    u32 (Detail.hactl detail
         + Z.shiftl (Z.land (Detail.hactblankh detail) 0xF0) 4) in
  let height :=
    u32 (Detail.vactl detail
         + Z.shiftl (Z.land (Detail.vactblankh detail) 0xF0) 4) in
  '(dev, idx) ← add_supported dev idx (u16 width) (u16 height) hz;
  if negb (idx =? prev)%nat then
    num ← Dev.supported dev !! prev;
    m ← array_get dlo_mode_data num;
    Some (Dev.set_native dev
            (Mode.mk (View.mk (ModeData.width m) (ModeData.height m)
                              (ModeData.bpp m) 0)
                     (ModeData.refresh m)),
          idx)
  else Some (dev, idx).

(** The refresh rates tried for a detailed timing: [hz] from 50 to 99. *)
Definition hz_range : list Z := map Z.of_nat (seq 50 50).

Definition detail_body (s : dlo_device_t * nat) (d : edid_timing_desc_t)
    : option (dlo_device_t * nat) :=
  match d with
  | timing_detail detail => for_each (hz_body detail) s hz_range
  | timing_desc => Some s
  end.

(** The second loop of [lookup_edid_modes], over the four descriptors. *)
Definition detail_stage (dev : dlo_device_t) (edid : edid_format_t)
    (idx : nat) : option (dlo_device_t * nat) :=
  for_each detail_body (dev, idx) (Edid.timings edid).

(** The last loop of [lookup_edid_modes]:
    [while (idx < DLO_MODE_DATA_NUM - 1) dev->supported[idx++] = DLO_INVALID_MODE]. *)
Definition fill_stage (dev : dlo_device_t) (idx : nat) : dlo_device_t :=
  Dev.set_supported dev
    (foldl (fun s i => <[i := DLO_INVALID_MODE]> s) (Dev.supported dev)
           (seq idx (Z.to_nat (DLO_MODE_DATA_NUM - 1) - idx))).

(** [lookup_edid_modes]. *)
Definition lookup_edid_modes (dev : dlo_device_t) (edid : edid_format_t)
    : option (dlo_retcode_t * dlo_device_t) :=
  let dev := Dev.set_native dev zero_mode in
  '(dev, idx) ← est_stage dev edid 0;
  '(dev, idx) ← detail_stage dev edid idx;
  Some (dlo_ok, fill_stage dev idx).

(** [dlo_mode_parse_edid]; [ptr] holds the [size] bytes at the source's
    pointer, and the source asserts [size == EDID_STRUCT_SZ]. *)
Definition dlo_mode_parse_edid (dev : dlo_device_t) (ptr : list byte)
    : option (dlo_retcode_t * dlo_device_t) :=
  if memcmp header ptr (length header) then Some (dlo_err_edid_fail, dev)
  else if bad_edid_checksum ptr then Some (dlo_err_edid_fail, dev)
  else lookup_edid_modes dev (parse_edid_format ptr).

(** Modelled from the spec: [EDID_STRUCT_SZ], the size of an EDID block
    ("Precondition: size == 128"). *)
Definition EDID_STRUCT_SZ : nat := 128.


(** ** Worded properties *)

(** A mode number that indexes the catalogue. *)
Definition valid_modenum (n : Z) : Prop := 0 <= n < DLO_MODE_DATA_NUM.

(** The matching relation of the lookup, as a conjunction: equal width,
    and each of colour depth, height and refresh rate either not asked for
    (zero) or equal. *)
Definition mode_matches (e : dlo_mode_data_t) (w h r bpp : Z) : bool :=
  (ModeData.width e =? w)
  && ((bpp =? 0) || (ModeData.bpp e =? bpp))
  && ((h =? 0) || (ModeData.height e =? h))
  && ((r =? 0) || (ModeData.refresh e =? r)).

(** The entries of a supported list before its first sentinel. *)
Fixpoint before_sentinel (s : list Z) : list Z :=
  match s with
  | [] => []
  | n :: s' => if n =? DLO_INVALID_MODE then [] else n :: before_sentinel s'
  end.

(** The first mode number of a list whose catalogue entry matches, or the
    sentinel when there is none. *)
Fixpoint first_match (l : list Z) (w h r bpp : Z) : Z :=
  match l with
  | [] => DLO_INVALID_MODE
  | n :: l' =>
      match array_get dlo_mode_data n with
      | Some e => if mode_matches e w h r bpp then n else first_match l' w h r bpp
      | None => first_match l' w h r bpp
      end
  end.

(** The lookup as the specification words it. *)
Definition lookup_spec (supported : list Z) (w h r bpp : Z) : Z :=
  if bool_decide (bpp = 24) then
    first_match
      (before_sentinel (take (Z.to_nat DLO_MODE_DATA_NUM) supported)) w h r bpp
  else DLO_INVALID_MODE.

(** The display state of the device, which neither staging nor the
    transport touches; staging leaves the transport's state alone too. *)
Definition same_display (dev dev' : dlo_device_t) : Prop :=
  Dev.mode dev' = Dev.mode dev
  /\ Dev.base8 dev' = Dev.base8 dev
  /\ Dev.low_blank dev' = Dev.low_blank dev
  /\ Dev.native dev' = Dev.native dev
  /\ Dev.supported dev' = Dev.supported dev.

Definition same_but_buffer (dev dev' : dlo_device_t) : Prop :=
  Dev.cnct dev' = Dev.cnct dev /\ same_display dev dev'.

(** The cursors of the command buffer are in order, [base <= ptr <= end],
    and the buffer lies within the address space. *)
Definition buffer_ok (dev : dlo_device_t) : Prop :=
  0 <= Dev.bufptr dev <= Dev.bufend dev /\ Dev.bufend dev < 2 ^ 64.

(** The buffer after [buf] is written at the cursor. *)
Definition buffer_with (dev : dlo_device_t) (buf : list byte) : list byte :=
  take (Z.to_nat (Dev.bufptr dev)) (Dev.buffer dev)
  ++ buf
  ++ drop (Z.to_nat (Dev.bufptr dev) + length buf) (Dev.buffer dev).

(** The mode number [dlo_mode_change] passes to [mode_select]: the one
    supplied, or the result of the lookup when the sentinel is supplied. *)
Definition resolved_mode (dev : dlo_device_t) (desc : dlo_mode_t) (mode : Z)
    : option Z :=
  if mode =? DLO_INVALID_MODE then
    get_mode_number dev (View.width (Mode.view desc))
      (View.height (Mode.view desc)) 0 (View.bpp (Mode.view desc))
  else Some mode.

(** The codes the staging primitives return. *)
Definition staged_code (rc : dlo_retcode_t) : Prop :=
  rc = dlo_ok \/ rc = dlo_err_buf_full.

(** The transport reports success or one of its own errors, never the
    warning of [mode_select]. *)
Definition transport_code (rc : dlo_retcode_t) : Prop :=
  rc <> dlo_warn_dl160_mode.

(** ** Worded properties of the EDID functions *)

(** The unsigned sum of the bytes of a block. *)
Definition byte_sum (ptr : list byte) : Z :=
  foldr (fun b acc => byte_val b + acc) 0 ptr.

(** A supported array as every build leaves it: [DLO_MODE_DATA_NUM]
    elements, each a catalogue index or the sentinel. *)
Definition supported_ok (s : list Z) : Prop :=
  length s = Z.to_nat DLO_MODE_DATA_NUM
  /\ Forall (fun n => valid_modenum n \/ n = DLO_INVALID_MODE) s.

(** A supported array is terminated: some element within its length is
    the sentinel, and every element before it indexes the catalogue. *)
Definition sentinel_terminated (s : list Z) : Prop :=
  exists k : nat,
    (k < Z.to_nat DLO_MODE_DATA_NUM)%nat
    /\ s !! k = Some DLO_INVALID_MODE
    /\ forall (j : nat) (n : Z), (j < k)%nat -> s !! j = Some n -> valid_modenum n.

(** The catalogue has an entry of 24 bpp that matches the request. *)
Definition cat_hit (w h r : Z) : bool :=
  existsb (fun e => mode_matches e w h r 24) dlo_mode_data.

(** The number of modes a step of the build can add: one where the
    catalogue has a match, none otherwise. *)
Definition hit_cost (w h r : Z) : nat := if cat_hit w h r then 1 else 0.

Definition est_cost (e : est_timing_t) : nat :=
  if negb (EstTiming.width e =? 0) then
    hit_cost (EstTiming.width e) (EstTiming.height e) (EstTiming.refresh e)
  else 0.

(** Width and height of a detailed timing, as [lookup_edid_modes] passes
    them to [add_supported]. *)
Definition detail_width (detail : edid_detail_t) : Z :=
  u16 (u32 (Detail.hactl detail
            + Z.shiftl (Z.land (Detail.hactblankh detail) 0xF0) 4)).

Definition detail_height (detail : edid_detail_t) : Z :=
  u16 (u32 (Detail.vactl detail
            + Z.shiftl (Z.land (Detail.vactblankh detail) 0xF0) 4)).

Definition detail_cost (d : edid_timing_desc_t) : nat :=
  match d with
  | timing_detail detail =>
      sum_list (map (hit_cost (detail_width detail) (detail_height detail))
                    hz_range)
  | timing_desc => 0
  end.

(** The state of a build between two steps: the device and the index
    [idx] of the next free element.  The array is well formed and its
    first [idx] elements, the modes added so far, index the catalogue. *)
Definition prefix_ok (st : dlo_device_t * nat) : Prop :=
  supported_ok (Dev.supported (fst st))
  /\ Forall valid_modenum (take (snd st) (Dev.supported (fst st))).

(** The native mode during the walk over the descriptors, which starts at
    index [i1]: zero while nothing was added, and from then on the record
    of the mode added last. *)
Definition native_ok (i1 : nat) (st : dlo_device_t * nat) : Prop :=
  (i1 <= snd st)%nat
  /\ (snd st = i1 -> Dev.native (fst st) = zero_mode)
  /\ ((i1 < snd st)%nat ->
      exists num,
        Dev.supported (fst st) !! (snd st - 1)%nat = Some num
        /\ dlo_mode_from_number num = Some (Dev.native (fst st))).

(** The (width, height) pairs a lookup can match: those of the catalogue,
    and each width with height zero ("any"). *)
Definition catalogue_dims : list (Z * Z) :=
  flat_map (fun e => [(ModeData.width e, ModeData.height e);
                      (ModeData.width e, 0)]) dlo_mode_data.

(** ** Example devices and EDID blocks *)

(** A device as the enumeration allocates it: a command buffer of 64
    bytes, nothing staged or sent, and every other member zero. *)
Definition fresh_device : dlo_device_t :=
  Dev.mk (replicate 64 x00) 0 [] zero_mode 0 false zero_mode
         (replicate (Z.to_nat DLO_MODE_DATA_NUM) 0).

(** The same device once [use_default_modes] has run. *)
Definition default_device : dlo_device_t := use_default_modes fresh_device.

(** The first 127 bytes of [block] followed by the byte that makes the
    sum of the 128 bytes a multiple of 256. *)
Definition with_checksum (block : list byte) : list byte :=
  take 127 block ++ [to_byte (256 - byte_sum (take 127 block))].

(** An EDID block with a valid header whose only established-timing bit
    is bit 5 of the first byte (640x480 at 60 Hz); every other byte before
    the checksum is zero, so the four descriptors are monitor
    descriptors. *)
Definition edid_est_640x480 : list byte :=
  with_checksum (<[35%nat := x20]> (header ++ replicate 120 x00)).

(** A detailed timing descriptor of 1280x1024: a non-zero pixel clock,
    [hactl] = 0x00 with high nibble 5 in [hactblankh], [vactl] = 0x00 with
    high nibble 4 in [vactblankh]. *)
Definition detail_1280x1024 : list byte :=
  [x01; x00; x00; x00; x50; x00; x00; x40] ++ replicate 10 x00.

(** An EDID block with a valid header, no established timing, and the
    descriptor above in slot 0; the other three slots are monitor
    descriptors. *)
Definition edid_detail_1280x1024 : list byte :=
  with_checksum
    (header ++ replicate 46 x00 ++ detail_1280x1024 ++ replicate 56 x00).



(** The colour characteristics as the specification words them: read at
    the offsets 0x19..0x22 of the block, each channel its own two low bits
    with its own high byte shifted left by two. *)
Definition colours_spec (block : list byte) : edid_colours_t :=
  let red_grn_low := RD_B block 0x19 in
  let blu_wht_low := RD_B block 0x1A in
  let expand (low_bits high : Z) := Z.lor low_bits (Z.shiftl high 2) in
  Colours.mk red_grn_low blu_wht_low
    (expand (Z.land (Z.shiftr red_grn_low 6) 3) (RD_B block 0x1B))
    (expand (Z.land (Z.shiftr red_grn_low 4) 3) (RD_B block 0x1C))
    (expand (Z.land (Z.shiftr red_grn_low 2) 3) (RD_B block 0x1D))
    (expand (Z.land red_grn_low 3) (RD_B block 0x1E))
    (expand (Z.land (Z.shiftr blu_wht_low 6) 3) (RD_B block 0x1F))
    (expand (Z.land (Z.shiftr blu_wht_low 4) 3) (RD_B block 0x20))
    (expand (Z.land (Z.shiftr blu_wht_low 2) 3) (RD_B block 0x21))
    (expand (Z.land blu_wht_low 3) (RD_B block 0x22)).

(** An EDID block with a valid header and colour bytes
    [0x1A] = 0x14 (low bits 01 for blue-y and for white-x),
    [0x20] = 0x01 (blue-y), [0x21] = 0x40 (white-x), [0x22] = 0x02
    (white-y); every other byte before the checksum is zero. *)
Definition edid_colours_example : list byte :=
  with_checksum
    (<[0x22%nat := x02]>
       (<[0x21%nat := x40]>
          (<[0x20%nat := x01]>
             (<[0x1A%nat := x14]> (header ++ replicate 120 x00))))).

(** A block of 128 zero bytes (no header), and a block with the header
    and 120 zero bytes (no checksum). *)
Definition edid_zeros : list byte := replicate 128 x00.
Definition edid_no_checksum : list byte := header ++ replicate 120 x00.

(** A transport that accepts every transfer, and one that refuses every
    transfer with the code numbered 1. *)
Definition usb_accepts (h : list usb_transfer) (t : usb_transfer)
    : dlo_retcode_t := dlo_ok.
Definition usb_refuses (h : list usb_transfer) (t : usb_transfer)
    : dlo_retcode_t := dlo_retcode_num 1.

(** Blobs without content, for runs in which their bytes do not matter. *)
Definition no_bytes (b : blob) : list byte := [].

(** Mode records of 1024x768 at 24 bpp: at base 0, and at the odd
    base 1; and one of a raster the catalogue does not have. *)
Definition desc_1024x768 : dlo_mode_t := Mode.mk (View.mk 1024 768 24 0) 0.
Definition desc_odd_base : dlo_mode_t := Mode.mk (View.mk 1024 768 24 1) 0.
Definition desc_unknown : dlo_mode_t := Mode.mk (View.mk 1234 567 24 0) 0.

(** The device after [dlo_mode_change] to [desc_1024x768] with no mode
    number given, over the accepting transport. *)
Definition changed_device : dlo_device_t :=
  Eval vm_compute in
    match dlo_mode_change usb_accepts no_bytes [] 8 default_device
            desc_1024x768 DLO_INVALID_MODE with
    | Some (_, dev') => dev'
    | None => default_device
    end.

(** A device whose command buffer has 3 bytes. *)
Definition small_device : dlo_device_t :=
  Dev.set_buffer default_device (replicate 3 x00) 0.

(** The well-formedness conditions are decidable, so that they can be
    checked on a concrete device by evaluation. *)
#[global] Instance supported_ok_dec (s : list Z) : Decision (supported_ok s).
Proof. unfold supported_ok, valid_modenum. apply _. Defined.

#[global] Instance buffer_ok_dec (dev : dlo_device_t)
  : Decision (buffer_ok dev).
Proof. unfold buffer_ok. apply _. Defined.

#[global] Instance valid_modenum_dec (n : Z) : Decision (valid_modenum n).
Proof. unfold valid_modenum. apply _. Defined.


(** ** Worded properties of the remaining code *)

(** The supported array that [use_default_modes] leaves: the catalogue
    indices in order. *)
Definition default_supported : list Z :=
  map Z.of_nat (seq 0 (Z.to_nat DLO_MODE_DATA_NUM)).

(** The catalogue entry of a mode number matches a request. *)
Definition entry_matches (n : Z) (w h r bpp : Z) : bool :=
  match array_get dlo_mode_data n with
  | Some e => mode_matches e w h r bpp
  | None => false
  end.

(** The members of the device that the build of the supported list never
    writes: the command buffer and its cursor, the transport's state, the
    current mode, [base8] and [low_blank]. *)
Definition same_but_modes (dev dev' : dlo_device_t) : Prop :=
  Dev.buffer dev' = Dev.buffer dev
  /\ Dev.bufptr dev' = Dev.bufptr dev
  /\ Dev.cnct dev' = Dev.cnct dev
  /\ Dev.mode dev' = Dev.mode dev
  /\ Dev.base8 dev' = Dev.base8 dev
  /\ Dev.low_blank dev' = Dev.low_blank dev
  /\ length (Dev.supported dev') = length (Dev.supported dev).

(** Every element of a supported array is the sentinel or an element of
    the array [s0]. *)
Definition drawn_from (s0 : list Z) (dev : dlo_device_t) : Prop :=
  Forall (fun n => n = DLO_INVALID_MODE \/ n ∈ s0) (Dev.supported dev).

(** The elements of a supported array from index [snd st] on are those
    of the array [s0]. *)
Definition tail_kept (s0 : list Z) (st : dlo_device_t * nat) : Prop :=
  forall j : nat, (snd st <= j)%nat -> Dev.supported (fst st) !! j = s0 !! j.

(** The properties of the state of a build that each call of
    [add_supported] keeps. *)
Definition build_kept (dev0 : dlo_device_t) (st : dlo_device_t * nat) : Prop :=
  same_but_modes dev0 (fst st)
  /\ drawn_from (Dev.supported dev0) (fst st)
  /\ tail_kept (Dev.supported dev0) st.

(** The device after the bytes [buf] are staged at the cursor. *)
Definition stage_bytes (dev : dlo_device_t) (buf : list byte) : dlo_device_t :=
  Dev.set_buffer dev (buffer_with dev buf)
    (Dev.bufptr dev + Z.of_nat (length buf)).

(** The 34 bytes that [set_base] stages: the lock command, the writes of
    the registers 0x20..0x22 with the bytes 2, 1, 0 of [base] and of the
    registers 0x26..0x28 with the bytes 2, 1, 0 of [base8], the unlock
    command. *)
Definition base_commands (base base8 : Z) : list byte :=
  WRITE_VIDREG_LOCK
  ++ [xaf; x20; x20; to_byte (Z.shiftr base 16)]
  ++ [xaf; x20; x21; to_byte (Z.shiftr base 8)]
  ++ [xaf; x20; x22; to_byte base]
  ++ [xaf; x20; x26; to_byte (Z.shiftr base8 16)]
  ++ [xaf; x20; x27; to_byte (Z.shiftr base8 8)]
  ++ [xaf; x20; x28; to_byte base8]
  ++ WRITE_VIDREG_UNLOCK.

(** How many of those bytes [set_base] stages when only [free] bytes are
    free: whole commands of 4 bytes up to the seventh, and the unlock
    command of 6 bytes only if all 34 fit. *)
Definition base_staged (free : Z) : nat :=
  Z.to_nat (Z.min (4 * (free / 4)) 28).

(** The raster of the desired mode differs from the one the device is
    in: the test of [mode_select] on width, height and colour depth. *)
Definition raster_differs (desc : dlo_mode_t) (dev : dlo_device_t) : bool :=
  negb (View.width (Mode.view desc) =? View.width (Mode.view (Dev.mode dev)))
  || negb (View.height (Mode.view desc)
             =? View.height (Mode.view (Dev.mode dev)))
  || negb (View.bpp (Mode.view desc) =? View.bpp (Mode.view (Dev.mode dev))).

(** A step that stages bytes or hands transfers to the transport: the
    display state is kept, the transport's log grows at its end, and the
    command buffer keeps its size. *)
Definition sends_only (dev dev' : dlo_device_t) : Prop :=
  same_display dev dev'
  /\ (exists sent, Dev.cnct dev' = Dev.cnct dev ++ sent)
  /\ Dev.bufend dev' = Dev.bufend dev.

(** What a mode change keeps of the device whatever its outcome: the
    supported array, the native mode and the size of the command buffer;
    the transport's log grows at its end. *)
Definition change_kept (dev dev' : dlo_device_t) : Prop :=
  Dev.supported dev' = Dev.supported dev
  /\ Dev.native dev' = Dev.native dev
  /\ (exists sent, Dev.cnct dev' = Dev.cnct dev ++ sent)
  /\ Dev.bufend dev' = Dev.bufend dev.

(** ** Further example devices *)

(** The default device after the EDID block [edid_est_640x480] is
    parsed. *)
Definition est_device : dlo_device_t :=
  Eval vm_compute in
    match dlo_mode_parse_edid default_device edid_est_640x480 with
    | Some (_, dev') => dev'
    | None => default_device
    end.

(** The default device after the EDID block [edid_detail_1280x1024] is
    parsed. *)
Definition detail_device : dlo_device_t :=
  Eval vm_compute in
    match dlo_mode_parse_edid default_device edid_detail_1280x1024 with
    | Some (_, dev') => dev'
    | None => default_device
    end.

(** A device whose command buffer has 10 bytes. *)
Definition ten_byte_device : dlo_device_t :=
  Dev.set_buffer default_device (replicate 10 x00) 0.

(** A transport that accepts the first transfer and refuses every later
    one with the code numbered 1. *)
Definition usb_accepts_once (h : list usb_transfer) (t : usb_transfer)
    : dlo_retcode_t :=
  match h with
  | [] => dlo_ok
  | _ :: _ => dlo_retcode_num 1
  end.

(** A mode record of 1024x768 at 24 bpp whose pixels start at the even
    base 0x480000. *)
Definition desc_second_page : dlo_mode_t :=
  Mode.mk (View.mk 1024 768 24 0x480000) 0.

(** The device after [dlo_mode_change] to [desc_second_page] over that
    transport: the first flush is accepted, the write of the base
    addresses is refused. *)
Definition refused_device : dlo_device_t :=
  Eval vm_compute in
    match dlo_mode_change usb_accepts_once no_bytes [] 8 default_device
            desc_second_page DLO_INVALID_MODE with
    | Some (_, dev') => dev'
    | None => default_device
    end.

(** The device [detail_device], whose native mode is 1280x1024, after
    the EDID block [edid_est_640x480] is parsed. *)
Definition cleared_device : dlo_device_t :=
  Eval vm_compute in
    match dlo_mode_parse_edid detail_device edid_est_640x480 with
    | Some (_, dev') => dev'
    | None => detail_device
    end.

(** A descriptor of 18 zero bytes. *)
Definition desc_zeros : list byte := replicate 18 x00.

(** ** The native mode, as the claim words it *)












(** ** Lookups that see the catalogue *)

(** The test [Q] holds at every step of a loop, of the state the step
    starts from. *)
Fixpoint at_each {A S : Type} (body : S -> A -> option S)
    (Q : S -> A -> bool) (s : S) (l : list A) : bool :=
  match l with
  | [] => true
  | a :: l' =>
      Q s a
      && match body s a with
         | Some s' => at_each body Q s' l'
         | None => true
         end
  end.

(** [get_mode_number] searches [dev->supported], the array that the
    build overwrites from index 0 while it runs.  The tests below hold
    of a build in which that makes no difference to the walk over the
    descriptors: each triple that the catalogue has is found in the array
    as the build has left it when the triple is looked up. *)
Definition finds_catalogue (detail : edid_detail_t)
    (s : dlo_device_t * nat) (hz : Z) : bool :=
  implb (cat_hit (detail_width detail) (detail_height detail) hz)
        (match get_mode_number (fst s) (detail_width detail)
                 (detail_height detail) hz 24 with
         | Some num => negb (num =? DLO_INVALID_MODE)
         | None => false
         end).

Definition detail_finds (s : dlo_device_t * nat) (d : edid_timing_desc_t)
    : bool :=
  match d with
  | timing_detail detail =>
      at_each (hz_body detail) (finds_catalogue detail) s hz_range
  | timing_desc => true
  end.

Definition walk_finds_catalogue (dev : dlo_device_t) (edid : edid_format_t)
    : bool :=
  match est_stage (Dev.set_native dev zero_mode) edid 0 with
  | Some s => at_each detail_body detail_finds s (Edid.timings edid)
  | None => false
  end.

(** A detailed timing descriptor of 1920x1080, and an EDID block with a
    valid header that holds it in slot 0. *)
Definition detail_1920x1080 : list byte :=
  [x01; x00; x80; x00; x70; x38; x00; x40] ++ replicate 10 x00.

Definition edid_detail_1920x1080 : list byte :=
  with_checksum
    (header ++ replicate 46 x00 ++ detail_1920x1080 ++ replicate 56 x00).
(** ** The catalogue and mode numbers *)

Lemma dlo_mode_data_length :
  length dlo_mode_data = Z.to_nat DLO_MODE_DATA_NUM.
Proof. reflexivity. Qed.

Lemma array_get_valid (n : Z) :
  valid_modenum n -> exists e, array_get dlo_mode_data n = Some e.
Proof.
  intros [Hlo Hhi]. unfold array_get.
  destruct (Z.ltb_spec n 0) as [?|_]; [lia|].
  apply lookup_lt_is_Some. rewrite dlo_mode_data_length.
  unfold DLO_MODE_DATA_NUM in *. lia.
Qed.

Lemma array_get_Some_valid (n : Z) (e : dlo_mode_data_t) :
  array_get dlo_mode_data n = Some e -> valid_modenum n.
Proof.
  unfold array_get. destruct (Z.ltb_spec n 0) as [?|Hn]; [discriminate|].
  intros H. apply lookup_lt_Some in H. rewrite dlo_mode_data_length in H.
  unfold valid_modenum, DLO_MODE_DATA_NUM in *. lia.
Qed.

Lemma catalogue_bpp (n : Z) (e : dlo_mode_data_t) :
  array_get dlo_mode_data n = Some e -> ModeData.bpp e = 24.
Proof.
  unfold array_get. destruct (n <? 0); [discriminate|].
  intros H. apply list_elem_of_lookup_2 in H.
  unfold dlo_mode_data in H.
  repeat (apply elem_of_cons in H as [->|H]; [reflexivity|]).
  by apply elem_of_nil in H.
Qed.

(** C10. For every mode number [num] (a 32-bit unsigned value),
    [dlo_mode_from_number] returns [NULL] exactly when
    [num >= DLO_MODE_DATA_NUM]; below that it returns a mode record with
    the width, height, colour depth and refresh rate of catalogue entry
    [num] and base address 0. *)
Theorem dlo_mode_from_number_spec (num : Z) :
  0 <= num < 2 ^ 32 ->
  (dlo_mode_from_number num = None <-> DLO_MODE_DATA_NUM <= num)
  /\ (num < DLO_MODE_DATA_NUM ->
      exists e m,
        array_get dlo_mode_data num = Some e
        /\ dlo_mode_from_number num = Some m
        /\ View.width (Mode.view m) = ModeData.width e
        /\ View.height (Mode.view m) = ModeData.height e
        /\ View.bpp (Mode.view m) = ModeData.bpp e
        /\ Mode.refresh m = ModeData.refresh e
        /\ View.base (Mode.view m) = 0).
Proof.
  intros [Hlo _]. unfold dlo_mode_from_number.
  destruct (Z.ltb_spec num DLO_MODE_DATA_NUM) as [Hlt|Hge].
  - destruct (array_get_valid num) as [e He]; [split; assumption|].
    rewrite He. simpl. split.
    + split; [discriminate|lia].
    + intros _. exists e. eexists. repeat split; reflexivity.
  - split; [tauto|lia].
Qed.


(** ** The lookup *)

Lemma match_chain (e : dlo_mode_data_t) (w h r bpp : Z) {A : Type} (x y : A) :
  (if negb (ModeData.width e =? w) then x
   else if negb (bpp =? 0) && negb (ModeData.bpp e =? bpp) then x
   else if negb (h =? 0) && negb (ModeData.height e =? h) then x
   else if negb (r =? 0) && negb (ModeData.refresh e =? r) then x
   else y)
  = if mode_matches e w h r bpp then y else x.
Proof.
  unfold mode_matches.
  destruct (ModeData.width e =? w), (bpp =? 0), (ModeData.bpp e =? bpp),
    (h =? 0), (ModeData.height e =? h), (r =? 0), (ModeData.refresh e =? r);
    reflexivity.
Qed.

Lemma get_mode_number_from_spec (s : list Z) (w h r bpp : Z) :
  forall (n idx : nat),
    (idx + n <= length s)%nat ->
    Forall valid_modenum (before_sentinel (take n (drop idx s))) ->
    get_mode_number_from s w h r bpp n idx
    = Some (first_match (before_sentinel (take n (drop idx s))) w h r bpp).
Proof.
  induction n as [|n IH]; intros idx Hlen Hv.
  - reflexivity.
  - destruct (lookup_lt_is_Some_2 s idx) as [num Hnum]; [lia|].
    rewrite (drop_S _ _ _ Hnum) in Hv |- *.
    cbn [get_mode_number_from take before_sentinel] in Hv |- *.
    rewrite Hnum. cbn [mbind option_bind].
    destruct (num =? DLO_INVALID_MODE) eqn:Hinv; [reflexivity|].
    apply Forall_cons in Hv as [Hvalid Hv].
    destruct (array_get_valid num Hvalid) as [e He].
    cbn [first_match]. rewrite He. cbn [mbind option_bind].
    rewrite match_chain.
    destruct (mode_matches e w h r bpp); [reflexivity|].
    apply IH; [lia|assumption].
Qed.

(** C2. [dlo_mode_lookup] returns [DLO_INVALID_MODE] at once when the
    colour depth asked for is not 24; otherwise, on a supported array
    whose entries before the first sentinel index the catalogue, it returns
    the first entry, in array order and before the first sentinel (or the
    end of the array), whose catalogue entry has the width asked for and,
    for each of colour depth, height and refresh rate, either any value
    (zero asked) or the value asked for; and the sentinel when there is no
    such entry. *)
Theorem dlo_mode_lookup_spec (dev : dlo_device_t) (w h r bpp : Z) :
  length (Dev.supported dev) = Z.to_nat DLO_MODE_DATA_NUM ->
  Forall valid_modenum (before_sentinel (Dev.supported dev)) ->
  (bpp <> 24 -> dlo_mode_lookup dev w h r bpp = Some DLO_INVALID_MODE)
  /\ dlo_mode_lookup dev w h r bpp
     = Some (lookup_spec (Dev.supported dev) w h r bpp)
  /\ (bpp = 24 ->
      dlo_mode_lookup dev w h r bpp
      = Some (first_match (before_sentinel (Dev.supported dev)) w h r bpp)).
Proof.
  intros Hlen Hv.
  assert (Htake : take (Z.to_nat DLO_MODE_DATA_NUM) (Dev.supported dev)
                  = Dev.supported dev)
    by (apply take_ge; lia).
  unfold dlo_mode_lookup, lookup_spec. rewrite Htake.
  destruct (Z.eqb_spec bpp 24) as [->|Hne]; cbn [negb].
  - rewrite bool_decide_eq_true_2 by reflexivity.
    assert (Hget : get_mode_number dev w h r 24
                   = Some (first_match (before_sentinel (Dev.supported dev))
                                       w h r 24)).
    { unfold get_mode_number.
      rewrite get_mode_number_from_spec; rewrite ?drop_0, ?Htake;
        [reflexivity|lia|assumption]. }
    rewrite Hget. split; [congruence|]. split; [reflexivity|].
    intros _. reflexivity.
  - rewrite bool_decide_eq_false_2 by assumption.
    split; [intros _; reflexivity|]. split; [reflexivity|congruence].
Qed.

(** ** Staging *)

Lemma buffer_with_length (dev : dlo_device_t) (buf : list byte) :
  0 <= Dev.bufptr dev ->
  Dev.bufptr dev + Z.of_nat (length buf) <= Dev.bufend dev ->
  length (buffer_with dev buf) = length (Dev.buffer dev).
Proof.
  unfold Dev.bufend, buffer_with. intros.
  rewrite !length_app, length_take, length_drop. lia.
Qed.

Lemma poke_in_range (dev : dlo_device_t) (b : byte) :
  0 <= Dev.bufptr dev < Dev.bufend dev ->
  poke dev b
  = Some (Dev.set_buffer dev (buffer_with dev [b]) (Dev.bufptr dev + 1)).
Proof.
  intros [Hlo Hhi]. unfold poke, buffer_with.
  destruct (Z.leb_spec 0 (Dev.bufptr dev)); [|lia].
  destruct (Z.ltb_spec (Dev.bufptr dev) (Dev.bufend dev)); [|lia].
  cbn [andb]. do 2 f_equal.
  unfold Dev.bufend in Hhi.
  rewrite insert_take_drop by lia.
  cbn [length app]. do 3 f_equal. lia.
Qed.

Lemma vbuf_copy_in_range (buf : list byte) :
  forall dev : dlo_device_t,
    0 <= Dev.bufptr dev ->
    Dev.bufptr dev + Z.of_nat (length buf) <= Dev.bufend dev ->
    vbuf_copy dev buf
    = Some (Dev.set_buffer dev (buffer_with dev buf)
              (Dev.bufptr dev + Z.of_nat (length buf))).
Proof.
  induction buf as [|b buf IH]; intros dev Hlo Hhi.
  - cbn [vbuf_copy length]. f_equal. unfold buffer_with. cbn [app length].
    rewrite Nat.add_0_r, take_drop, Z.add_0_r. by destruct dev.
  - cbn [length] in Hhi. cbn [vbuf_copy].
    rewrite poke_in_range by lia. cbn [mbind option_bind].
    assert (Hlen1 : length (buffer_with dev [b]) = length (Dev.buffer dev))
      by (apply buffer_with_length; cbn [length]; lia).
    unfold Dev.bufend in Hhi.
    rewrite IH.
    + unfold Dev.set_buffer; cbn [Dev.buffer Dev.bufptr Dev.cnct Dev.mode
        Dev.base8 Dev.low_blank Dev.native Dev.supported].
      f_equal. f_equal; [|cbn [length]; lia].
      unfold buffer_with. cbn [length app Dev.bufptr Dev.buffer].
      set (p := Z.to_nat (Dev.bufptr dev)).
      replace (Z.to_nat (Dev.bufptr dev + 1)) with (S p) by lia.
      assert (Hp : (p < length (Dev.buffer dev))%nat) by lia.
      assert (Hl : length (take p (Dev.buffer dev)) = p)
        by (rewrite length_take; lia).
      rewrite (take_app_ge _ _ (S p)) by lia.
      rewrite Hl. replace (S p - p)%nat with 1%nat by lia. cbn [take].
      rewrite take_0. rewrite <- !app_assoc. cbn [app]. do 3 f_equal.
      rewrite drop_app_ge by lia. rewrite Hl.
      replace (S p + length buf - p)%nat with (S (length buf)) by lia.
      cbn [drop]. rewrite drop_drop. f_equal. lia.
    + unfold Dev.set_buffer; cbn [Dev.bufptr]. lia.
    + unfold Dev.bufend, Dev.set_buffer; cbn [Dev.buffer Dev.bufptr].
      rewrite Hlen1. lia.
Qed.

Lemma staged_buffer_with (dev : dlo_device_t) (buf : list byte) :
  0 <= Dev.bufptr dev ->
  Dev.bufptr dev + Z.of_nat (length buf) <= Dev.bufend dev ->
  take (Z.to_nat (Dev.bufptr dev + Z.of_nat (length buf))) (buffer_with dev buf)
  = staged dev ++ buf.
Proof.
  unfold Dev.bufend, buffer_with, staged. intros.
  set (p := Z.to_nat (Dev.bufptr dev)).
  assert (Hl : length (take p (Dev.buffer dev)) = p)
    by (rewrite length_take; lia).
  rewrite app_assoc.
  rewrite take_app_length'; [reflexivity|].
  rewrite length_app, Hl. lia.
Qed.

Lemma vreg_vbuf_copy (dev : dlo_device_t) (reg val : byte) :
  vreg dev reg val
  = if Dev.bufend dev - Dev.bufptr dev <? 4 then Some (dlo_err_buf_full, dev)
    else dev' ← vbuf_copy dev [xaf; x20; reg; val]; Some (dlo_ok, dev').
Proof.
  unfold vreg. destruct (Dev.bufend dev - Dev.bufptr dev <? 4); [done|].
  cbn [vbuf_copy].
  destruct (poke dev xaf) as [d1|]; [|done]. cbn [mbind option_bind].
  destruct (poke d1 x20) as [d2|]; [|done]. cbn [mbind option_bind].
  destruct (poke d2 reg) as [d3|]; [|done]. cbn [mbind option_bind].
  destruct (poke d3 val) as [d4|]; done.
Qed.

Lemma staged_after_copy (dev : dlo_device_t) (buf : list byte) :
  0 <= Dev.bufptr dev ->
  Dev.bufptr dev + Z.of_nat (length buf) <= Dev.bufend dev ->
  let dev' := Dev.set_buffer dev (buffer_with dev buf)
                (Dev.bufptr dev + Z.of_nat (length buf)) in
  Dev.bufptr dev' = Dev.bufptr dev + Z.of_nat (length buf)
  /\ staged dev' = staged dev ++ buf
  /\ Dev.buffer dev' = buffer_with dev buf
  /\ Dev.bufend dev' = Dev.bufend dev
  /\ same_but_buffer dev dev'.
Proof.
  intros Hlo Hhi dev'. subst dev'.
  split; [reflexivity|]. split.
  - unfold staged at 1. unfold Dev.set_buffer; cbn [Dev.bufptr Dev.buffer].
    by apply staged_buffer_with.
  - split; [reflexivity|]. split.
    + unfold Dev.bufend, Dev.set_buffer; cbn [Dev.buffer].
      by rewrite buffer_with_length.
    + by repeat split.
Qed.

(** C9. For a device whose buffer cursors are in order: staging [buf]
    ([vbuf]) returns [dlo_err_buf_full] and leaves the device as it was
    when fewer than [length buf] bytes are free; otherwise it succeeds,
    the staged bytes are the old ones followed by exactly [buf], the
    cursor advances by [length buf] and the rest of the buffer is as
    before.  Staging a register write ([vreg]) returns [dlo_err_buf_full]
    and leaves the device as it was when fewer than 4 bytes are free;
    otherwise it stages exactly the four bytes AF 20 reg val and advances
    the cursor by 4. *)
Theorem staging_spec (dev : dlo_device_t) (buf : list byte) (reg val : byte) :
  buffer_ok dev ->
  (Dev.bufend dev - Dev.bufptr dev < Z.of_nat (length buf) ->
   vbuf dev buf = Some (dlo_err_buf_full, dev))
  /\ (Z.of_nat (length buf) <= Dev.bufend dev - Dev.bufptr dev ->
      exists dev',
        vbuf dev buf = Some (dlo_ok, dev')
        /\ Dev.bufptr dev' = Dev.bufptr dev + Z.of_nat (length buf)
        /\ staged dev' = staged dev ++ buf
        /\ Dev.buffer dev' = buffer_with dev buf
        /\ Dev.bufend dev' = Dev.bufend dev
        /\ same_but_buffer dev dev')
  /\ (Dev.bufend dev - Dev.bufptr dev < 4 ->
      vreg dev reg val = Some (dlo_err_buf_full, dev))
  /\ (4 <= Dev.bufend dev - Dev.bufptr dev ->
      exists dev',
        vreg dev reg val = Some (dlo_ok, dev')
        /\ Dev.bufptr dev' = Dev.bufptr dev + 4
        /\ staged dev' = staged dev ++ [xaf; x20; reg; val]
        /\ Dev.buffer dev' = buffer_with dev [xaf; x20; reg; val]
        /\ Dev.bufend dev' = Dev.bufend dev
        /\ same_but_buffer dev dev').
Proof.
  intros [[Hlo Hhi] Hsz].
  assert (Hwrap : to_size_t (Dev.bufend dev - Dev.bufptr dev)
                  = Dev.bufend dev - Dev.bufptr dev)
    by (unfold to_size_t; apply Z.mod_small; lia).
  split; [|split; [|split]].
  - intros Hfull. unfold vbuf. rewrite Hwrap.
    destruct (Z.ltb_spec (Dev.bufend dev - Dev.bufptr dev)
                         (Z.of_nat (length buf))); [reflexivity|lia].
  - intros Hfree. unfold vbuf. rewrite Hwrap.
    destruct (Z.ltb_spec (Dev.bufend dev - Dev.bufptr dev)
                         (Z.of_nat (length buf))); [lia|].
    rewrite vbuf_copy_in_range by lia. cbn [mbind option_bind].
    eexists. split; [reflexivity|]. apply staged_after_copy; lia.
  - intros Hfull. rewrite vreg_vbuf_copy.
    destruct (Z.ltb_spec (Dev.bufend dev - Dev.bufptr dev) 4);
      [reflexivity|lia].
  - intros Hfree. rewrite vreg_vbuf_copy.
    destruct (Z.ltb_spec (Dev.bufend dev - Dev.bufptr dev) 4); [lia|].
    rewrite vbuf_copy_in_range by (cbn [length]; lia).
    cbn [mbind option_bind].
    eexists. split; [reflexivity|].
    apply (staged_after_copy dev [xaf; x20; reg; val]); cbn [length]; lia.
Qed.

(** ** The mode-select sequence *)

Lemma same_display_refl (dev : dlo_device_t) : same_display dev dev.
Proof. by repeat split. Qed.

Lemma same_display_trans (d1 d2 d3 : dlo_device_t) :
  same_display d1 d2 -> same_display d2 d3 -> same_display d1 d3.
Proof. unfold same_display. intuition congruence. Qed.

Lemma ERR_Some (cmd : option (dlo_retcode_t * dlo_device_t))
    (k : dlo_device_t -> option (dlo_retcode_t * dlo_device_t))
    (rc : dlo_retcode_t) (dev' : dlo_device_t) :
  ERR cmd k = Some (rc, dev') ->
  (cmd = Some (rc, dev') /\ rc <> dlo_ok)
  \/ (exists d, cmd = Some (dlo_ok, d) /\ k d = Some (rc, dev')).
Proof.
  unfold ERR. destruct cmd as [[rc0 d]|]; [|discriminate].
  destruct rc0; cbn [is_ok]; intros H;
    solve [ right; eexists; split; [reflexivity|exact H]
          | left; split; [exact H|]; injection H as <- _; discriminate ].
Qed.

Lemma poke_display (dev dev' : dlo_device_t) (b : byte) :
  poke dev b = Some dev' -> same_but_buffer dev dev'.
Proof.
  unfold poke. destruct (_ && _); [|discriminate].
  intros [= <-]. by repeat split.
Qed.

Lemma vbuf_copy_display (buf : list byte) :
  forall dev dev' : dlo_device_t,
    vbuf_copy dev buf = Some dev' -> same_but_buffer dev dev'.
Proof.
  induction buf as [|b buf IH]; intros dev dev'; cbn [vbuf_copy].
  - intros [= <-]. by repeat split.
  - destruct (poke dev b) as [d|] eqn:Hp; [|discriminate].
    cbn [mbind option_bind]. intros H.
    apply poke_display in Hp. apply IH in H.
    unfold same_but_buffer, same_display in *. intuition congruence.
Qed.

Lemma vbuf_display (dev dev' : dlo_device_t) (buf : list byte)
    (rc : dlo_retcode_t) :
  vbuf dev buf = Some (rc, dev') -> same_but_buffer dev dev' /\ staged_code rc.
Proof.
  unfold vbuf. destruct (_ <? _).
  - intros [= <- <-]. split; [by repeat split|by right].
  - destruct (vbuf_copy dev buf) as [d|] eqn:Hc; [|discriminate].
    cbn [mbind option_bind]. intros [= <- <-].
    split; [by eapply vbuf_copy_display|by left].
Qed.

Lemma vreg_display (dev dev' : dlo_device_t) (reg val : byte)
    (rc : dlo_retcode_t) :
  vreg dev reg val = Some (rc, dev') ->
  same_but_buffer dev dev' /\ staged_code rc.
Proof.
  rewrite vreg_vbuf_copy. destruct (_ <? _).
  - intros [= <- <-]. split; [by repeat split|by right].
  - destruct (vbuf_copy dev _) as [d|] eqn:Hc; [|discriminate].
    cbn [mbind option_bind]. intros [= <- <-].
    split; [by eapply vbuf_copy_display|by left].
Qed.

Section TransportFacts.

Variable usb_io : list usb_transfer -> usb_transfer -> dlo_retcode_t.
Variable blob_bytes : blob -> list byte.
Variable DLO_MODE_POSTAMBLE : list byte.
Variable DLO_DL120_MODES : Z.

Hypothesis usb_io_code : forall h t, transport_code (usb_io h t).

Lemma usb_send_display (dev dev' : dlo_device_t) (t : usb_transfer)
    (rc : dlo_retcode_t) :
  usb_send usb_io dev t = (rc, dev') ->
  same_display dev dev' /\ transport_code rc.
Proof.
  unfold usb_send. intros [= <- <-]. split; [by repeat split|apply usb_io_code].
Qed.

Lemma dlo_usb_write_display (dev dev' : dlo_device_t) (rc : dlo_retcode_t) :
  dlo_usb_write usb_io dev = (rc, dev') ->
  same_display dev dev' /\ transport_code rc.
Proof.
  unfold dlo_usb_write. intros H. apply usb_send_display in H as [H ?].
  split; [|assumption]. exact H.
Qed.


Ltac err_chain :=
  repeat match goal with
    | H : ERR _ _ = Some _ |- _ =>
        apply ERR_Some in H as [[H ?]|[? [? H]]]
    | H : vbuf _ _ = Some _ |- _ => apply vbuf_display in H as [[? ?] ?]
    | H : vreg _ _ _ = Some _ |- _ => apply vreg_display in H as [[? ?] ?]
    | H : Some (dlo_usb_write _ _) = Some _ |- _ =>
        apply (inj Some) in H; apply dlo_usb_write_display in H as [? ?]
    | H : Some (dlo_usb_write_buf _ _ _) = Some _ |- _ =>
        apply (inj Some) in H; apply usb_send_display in H as [? ?]
    | H : Some (dlo_usb_chan_sel _ _ _) = Some _ |- _ =>
        apply (inj Some) in H; apply usb_send_display in H as [? ?]
    | H : Some (_, _) = Some (_, _) |- _ => injection H as <- <-
    end.

Ltac display_done :=
  split;
  [ unfold same_display in *; intuition congruence
  | unfold transport_code, staged_code in *;
    first [ assumption | intuition congruence ] ].

Lemma set_base_display (dev dev' : dlo_device_t) (base base8 : Z)
    (rc : dlo_retcode_t) :
  set_base usb_io dev base base8 = Some (rc, dev') ->
  same_display dev dev' /\ transport_code rc.
Proof.
  unfold set_base. intros H. err_chain; display_done.
Qed.

Lemma mode_program_display (dev dev' : dlo_device_t) (m : dlo_mode_data_t)
    (rc : dlo_retcode_t) :
  mode_program usb_io blob_bytes DLO_MODE_POSTAMBLE dev m = Some (rc, dev') ->
  same_display dev dev' /\ transport_code rc.
Proof.
  unfold mode_program. intros H. err_chain; display_done.
Qed.

Lemma dlo_mode_change_resolved (dev : dlo_device_t) (desc : dlo_mode_t)
    (mode : Z) :
  dlo_mode_change usb_io blob_bytes DLO_MODE_POSTAMBLE DLO_DL120_MODES
    dev desc mode
  = num ← resolved_mode dev desc mode;
    mode_select usb_io blob_bytes DLO_MODE_POSTAMBLE DLO_DL120_MODES
      dev desc num.
Proof. reflexivity. Qed.

Lemma completes_not_error (rc : dlo_retcode_t) :
  rc = dlo_ok \/ rc = dlo_warn_dl160_mode ->
  rc <> dlo_ok -> transport_code rc -> False.
Proof. unfold transport_code. intuition congruence. Qed.

(** C8. When [dlo_mode_change] completes without error ([dlo_ok] or the
    DL160 warning) for the mode [desc] and the catalogue index [num] it
    resolves to: the viewport of [dev->mode] (width, height, colour
    depth, base) is that of [desc], [dev->mode.refresh] is the refresh
    rate of catalogue entry [num], [dev->low_blank] is that entry's
    flag, [dev->base8] is [desc->view.base + 2 * width * height] in
    32-bit arithmetic (the sum itself when it fits), and the code
    returned is the warning if [num < DLO_DL120_MODES] and [dlo_ok]
    otherwise. *)
Theorem dlo_mode_change_completes (dev dev' : dlo_device_t)
    (desc : dlo_mode_t) (mode : Z) (rc : dlo_retcode_t) :
  dlo_mode_change usb_io blob_bytes DLO_MODE_POSTAMBLE DLO_DL120_MODES
    dev desc mode = Some (rc, dev') ->
  rc = dlo_ok \/ rc = dlo_warn_dl160_mode ->
  exists num e,
    resolved_mode dev desc mode = Some num
    /\ array_get dlo_mode_data num = Some e
    /\ Mode.view (Dev.mode dev') = Mode.view desc
    /\ Mode.refresh (Dev.mode dev') = ModeData.refresh e
    /\ Dev.low_blank dev' = ModeData.low_blank e
    /\ Dev.base8 dev'
       = u32 (View.base (Mode.view desc)
              + 2 * View.width (Mode.view desc)
                * View.height (Mode.view desc))
    /\ (0 <= View.base (Mode.view desc)
              + 2 * View.width (Mode.view desc)
                * View.height (Mode.view desc) < 2 ^ 32 ->
        Dev.base8 dev'
        = View.base (Mode.view desc)
          + 2 * View.width (Mode.view desc) * View.height (Mode.view desc))
    /\ rc = (if num <? DLO_DL120_MODES then dlo_warn_dl160_mode
             else dlo_ok).
Proof.
  intros H Hrc. rewrite dlo_mode_change_resolved in H.
  destruct (resolved_mode dev desc mode) as [num|]; [|discriminate].
  cbn [mbind option_bind] in H. unfold mode_select in H.
  destruct (_ || _); [injection H as <- _; intuition discriminate|].
  destruct (negb (Z.land _ 1 =? 0));
    [injection H as <- _; intuition discriminate|].
  destruct (dlo_usb_write usb_io dev) as [rc0 d0] eqn:Hw.
  apply dlo_usb_write_display in Hw as [Hd0 _].
  destruct (negb (is_ok rc0));
    [injection H as <- _; intuition discriminate|].
  apply ERR_Some in H as [[H Hne]|[d1 [H1 H]]].
  { apply set_base_display in H as [_ Hc].
    destruct (completes_not_error rc); assumption. }
  apply set_base_display in H1 as [Hd1 _].
  destruct (array_get dlo_mode_data num) as [e|] eqn:He; [|discriminate].
  cbn [mbind option_bind] in H.
  apply ERR_Some in H as [[H Hne]|[d2 [H2 H]]].
  { destruct (_ || _).
    - apply mode_program_display in H as [_ Hc].
      destruct (completes_not_error rc); assumption.
    - injection H as <- _. congruence. }
  assert (Hd2 : same_display d1 d2).
  { destruct (_ || _).
    - by apply mode_program_display in H2 as [? _].
    - injection H2 as <-. apply same_display_refl. }
  apply ERR_Some in H as [[H Hne]|[d3 [H3 H]]].
  { apply (inj Some) in H. apply dlo_usb_write_display in H as [_ Hc].
    destruct (completes_not_error rc); assumption. }
  apply (inj Some) in H3. apply dlo_usb_write_display in H3 as [Hd3 _].
  injection H as <- <-.
  assert (Hb8 : Dev.base8 d3
                = u32 (View.base (Mode.view desc)
                       + 2 * View.width (Mode.view desc)
                         * View.height (Mode.view desc))).
  { destruct Hd3 as (_ & -> & _), Hd2 as (_ & Hb2 & _), Hd1 as (_ & Hb1 & _).
    cbn in *. rewrite Hb2, Hb1. reflexivity. }
  exists num, e.
  destruct Hd3 as (Hm3 & _ & Hl3 & _).
  repeat (split; [first [reflexivity|assumption
                        |rewrite Hm3; reflexivity|rewrite Hl3; reflexivity]|]).
  split; [|reflexivity].
  intros Hfit. rewrite Hb8. unfold u32. apply Z.mod_small.
  change (2 ^ 32) with 4294967296 in Hfit. lia.
Qed.

Lemma land_1_odd (b : Z) : (Z.land b 1 =? 0) = negb (Z.odd b).
Proof.
  change 1 with (Z.ones 1). rewrite Z.land_ones by lia.
  change (2 ^ 1) with 2. rewrite Zmod_odd. by destruct (Z.odd b).
Qed.

(** C7. [dlo_mode_change] fails with [dlo_err_bad_mode] when the mode
    number supplied is the sentinel and the lookup of the desired width,
    height and colour depth at any refresh rate finds no entry; it fails
    with [dlo_err_bad_mode] when the base address of the desired mode is
    odd; and when the first flush of the command buffer fails it returns
    the sentinel [DLO_INVALID_MODE] as its code. *)
Theorem dlo_mode_change_errors (dev : dlo_device_t) (desc : dlo_mode_t)
    (mode : Z) :
  (mode = DLO_INVALID_MODE ->
   get_mode_number dev (View.width (Mode.view desc))
     (View.height (Mode.view desc)) 0 (View.bpp (Mode.view desc))
   = Some DLO_INVALID_MODE ->
   dlo_mode_change usb_io blob_bytes DLO_MODE_POSTAMBLE DLO_DL120_MODES
     dev desc mode = Some (dlo_err_bad_mode, dev))
  /\ (forall num,
        resolved_mode dev desc mode = Some num ->
        Z.odd (View.base (Mode.view desc)) = true ->
        dlo_mode_change usb_io blob_bytes DLO_MODE_POSTAMBLE DLO_DL120_MODES
          dev desc mode = Some (dlo_err_bad_mode, dev))
  /\ (forall num,
        resolved_mode dev desc mode = Some num ->
        valid_modenum num ->
        Z.odd (View.base (Mode.view desc)) = false ->
        fst (dlo_usb_write usb_io dev) <> dlo_ok ->
        dlo_mode_change usb_io blob_bytes DLO_MODE_POSTAMBLE DLO_DL120_MODES
          dev desc mode
        = Some (dlo_retcode_num DLO_INVALID_MODE,
                snd (dlo_usb_write usb_io dev))).
Proof.
  rewrite dlo_mode_change_resolved. split; [|split].
  - intros -> Hget. unfold resolved_mode.
    rewrite Z.eqb_refl, Hget. reflexivity.
  - intros num -> Hodd. cbn [mbind option_bind]. unfold mode_select.
    destruct (_ || _); [reflexivity|].
    rewrite land_1_odd, Hodd. reflexivity.
  - intros num -> [Hlo Hhi] Heven Hfail. cbn [mbind option_bind].
    unfold mode_select.
    destruct (Z.geb_spec num DLO_MODE_DATA_NUM); [lia|].
    destruct (Z.eqb_spec num DLO_INVALID_MODE) as [->|_];
      [unfold DLO_INVALID_MODE, DLO_MODE_DATA_NUM in *; lia|].
    cbn [orb]. rewrite land_1_odd, Heven. cbn [negb].
    destruct (dlo_usb_write usb_io dev) as [rc0 d0].
    cbn [fst snd] in *. destruct rc0; cbn [is_ok negb]; congruence.
Qed.

End TransportFacts.

(** ** The EDID checksum *)

Lemma byte_val_range (b : byte) : 0 <= byte_val b < 256.
Proof.
  unfold byte_val. pose proof (Byte.to_N_bounded b). lia.
Qed.

Lemma checksum_fold (ptr : list byte) :
  forall c : Z,
    0 <= c < 256 ->
    foldl (fun csum b => u8 (csum + byte_val b)) c ptr
    = (c + byte_sum ptr) mod 256.
Proof.
  induction ptr as [|b ptr IH]; intros c Hc; cbn [foldl byte_sum foldr].
  - rewrite Z.add_0_r, Z.mod_small; [reflexivity|assumption].
  - rewrite IH by (unfold u8; apply Z.mod_pos_bound; lia).
    unfold u8. fold (byte_sum ptr).
    rewrite Zplus_mod_idemp_l. f_equal. lia.
Qed.

Lemma bad_edid_checksum_sum (ptr : list byte) :
  bad_edid_checksum ptr = negb (byte_sum ptr mod 256 =? 0).
Proof.
  unfold bad_edid_checksum. rewrite checksum_fold by lia.
  rewrite Z.add_0_l, Z.eqb_sym. reflexivity.
Qed.

(** ** Stores into an array *)

Lemma foldl_insert_lookup {A : Type} (f : nat -> A) (l : list nat) :
  forall (s : list A) (j : nat),
    foldl (fun s i => <[i := f i]> s) s l !! j
    = if bool_decide (j ∈ l /\ (j < length s)%nat) then Some (f j) else s !! j.
Proof.
  induction l as [|i l IH]; intros s j; cbn [foldl].
  - rewrite bool_decide_eq_false_2; [reflexivity|].
    intros [H _]. by apply elem_of_nil in H.
  - rewrite IH, length_insert.
    destruct (decide (j ∈ l /\ (j < length s)%nat)) as [Hin|Hnin].
    + rewrite !bool_decide_eq_true_2; [reflexivity| |assumption].
      split; [apply elem_of_cons; right|]; apply Hin.
    + rewrite (bool_decide_eq_false_2 _ Hnin).
      destruct (decide (i = j)) as [->|Hne].
      * destruct (decide (j < length s)%nat) as [Hlt|Hge].
        -- rewrite list_lookup_insert_eq by assumption.
           rewrite bool_decide_eq_true_2; [reflexivity|].
           split; [apply elem_of_cons; by left|assumption].
        -- rewrite list_insert_ge by lia.
           rewrite bool_decide_eq_false_2; [reflexivity|]. tauto.
      * rewrite list_lookup_insert_ne by assumption.
        rewrite bool_decide_eq_false_2; [reflexivity|].
        intros [Hin Hlt]. apply elem_of_cons in Hin as [->|Hin]; tauto.
Qed.

Lemma foldl_insert_length {A : Type} (f : nat -> A) (l : list nat) :
  forall s : list A, length (foldl (fun s i => <[i := f i]> s) s l) = length s.
Proof.
  induction l as [|i l IH]; intros s; cbn [foldl]; [reflexivity|].
  by rewrite IH, length_insert.
Qed.

(** ** The lookup on a well-formed supported array *)

Lemma supported_ok_lookup (s : list Z) (idx : nat) :
  supported_ok s -> (idx < Z.to_nat DLO_MODE_DATA_NUM)%nat ->
  exists num, s !! idx = Some num
              /\ (valid_modenum num \/ num = DLO_INVALID_MODE).
Proof.
  intros [Hlen Hall] Hidx.
  destruct (lookup_lt_is_Some_2 s idx) as [num Hnum]; [lia|].
  exists num. split; [assumption|].
  eapply Forall_lookup_1 in Hall; [exact Hall|exact Hnum].
Qed.

Lemma get_mode_number_from_hit (s : list Z) (w h r bpp : Z) :
  supported_ok s ->
  forall n idx : nat,
    (idx + n <= Z.to_nat DLO_MODE_DATA_NUM)%nat ->
    exists num,
      get_mode_number_from s w h r bpp n idx = Some num
      /\ (num = DLO_INVALID_MODE
          \/ (num <> DLO_INVALID_MODE
              /\ exists e, array_get dlo_mode_data num = Some e
                           /\ mode_matches e w h r bpp = true)).
Proof.
  intros Hok. induction n as [|n IH]; intros idx Hidx.
  - exists DLO_INVALID_MODE. split; [reflexivity|by left].
  - destruct (supported_ok_lookup s idx Hok) as (num & Hnum & Hv); [lia|].
    cbn [get_mode_number_from]. rewrite Hnum. cbn [mbind option_bind].
    destruct (Z.eqb_spec num DLO_INVALID_MODE) as [->|Hne].
    + exists DLO_INVALID_MODE. split; [reflexivity|by left].
    + destruct Hv as [Hv|?]; [|contradiction].
      destruct (array_get_valid num Hv) as [e He].
      rewrite He. cbn [mbind option_bind]. rewrite match_chain.
      destruct (mode_matches e w h r bpp) eqn:Hm.
      * exists num. split; [reflexivity|]. right. split; [assumption|].
        exists e. by split.
      * apply IH. lia.
Qed.

Lemma mode_matches_cat_hit (num : Z) (e : dlo_mode_data_t) (w h r : Z) :
  array_get dlo_mode_data num = Some e ->
  mode_matches e w h r 24 = true -> cat_hit w h r = true.
Proof.
  intros He Hm. unfold cat_hit. apply existsb_exists. exists e.
  split; [|assumption].
  unfold array_get in He. destruct (num <? 0); [discriminate|].
  apply list_elem_of_In. by eapply list_elem_of_lookup_2.
Qed.

(** ** Loops that add modes *)

(** A loop whose steps keep an invariant [P] and raise a measure [m] by
    at most the cost of the element, while the budget [B] is not
    exceeded, runs to its end, keeps [P] and stays within the sum of the
    costs. *)
Lemma for_each_inv {A S : Type} (body : S -> A -> option S)
    (P : S -> Prop) (m : S -> nat) (cost : A -> nat) (B : nat) :
  (forall s a,
      P s -> (m s + cost a <= B)%nat ->
      exists s', body s a = Some s' /\ P s'
                 /\ (m s <= m s' <= m s + cost a)%nat) ->
  forall (l : list A) (s : S),
    P s -> (m s + sum_list (map cost l) <= B)%nat ->
    exists s', for_each body s l = Some s' /\ P s'
               /\ (m s <= m s' <= m s + sum_list (map cost l))%nat.
Proof.
  intros Hstep. induction l as [|a l IH]; intros s HP HB;
    cbn [for_each map sum_list] in *.
  - exists s. split; [reflexivity|]. split; [assumption|]. cbn. lia.
  - destruct (Hstep s a HP) as (s1 & Hb & HP1 & Hm1); [cbn in HB; lia|].
    rewrite Hb. cbn [mbind option_bind].
    destruct (IH s1 HP1) as (s2 & Hf & HP2 & Hm2); [cbn in HB |- *; lia|].
    exists s2. split; [assumption|]. split; [assumption|]. cbn. lia.
Qed.

Lemma add_supported_step (dev : dlo_device_t) (idx : nat) (w h r : Z) :
  prefix_ok (dev, idx) ->
  (idx + hit_cost w h r <= Z.to_nat DLO_MODE_DATA_NUM)%nat ->
  exists dev' idx',
    add_supported dev idx w h r = Some (dev', idx')
    /\ prefix_ok (dev', idx')
    /\ Dev.native dev' = Dev.native dev
    /\ ((idx' = idx /\ dev' = dev
         /\ get_mode_number dev w h r 24 = Some DLO_INVALID_MODE)
        \/ (idx' = S idx /\ hit_cost w h r = 1%nat
            /\ exists num,
                 valid_modenum num
                 /\ get_mode_number dev w h r 24 = Some num
                 /\ Dev.supported dev' !! idx = Some num)).
Proof.
  intros [Hok Hpre] Hbudget. cbn [fst snd] in *.
  destruct (get_mode_number_from_hit (Dev.supported dev) w h r 24 Hok
              (Z.to_nat DLO_MODE_DATA_NUM) 0) as (num & Hget & Hnum); [lia|].
  unfold add_supported, get_mode_number. rewrite Hget.
  cbn [mbind option_bind].
  destruct Hnum as [->|(Hne & e & He & Hm)].
  - rewrite Z.eqb_refl. cbn [negb]. exists dev, idx.
    split; [reflexivity|]. split; [by split|]. split; [reflexivity|].
    left. by repeat split.
  - destruct (Z.eqb_spec num DLO_INVALID_MODE) as [?|_]; [contradiction|].
    cbn [negb].
    assert (Hcost : hit_cost w h r = 1%nat)
      by (unfold hit_cost; by rewrite (mode_matches_cat_hit num e)).
    rewrite Hcost in Hbudget.
    destruct (Z.ltb_spec (Z.of_nat idx) DLO_MODE_DATA_NUM) as [Hlt|?]; [|lia].
    assert (Hvalid : valid_modenum num) by (by eapply array_get_Some_valid).
    destruct Hok as [Hlen Hall].
    assert (Hidx : (idx < length (Dev.supported dev))%nat) by lia.
    eexists _, _. split; [reflexivity|].
    unfold prefix_ok, Dev.set_supported;
      cbn [Dev.supported Dev.native fst snd].
    split; [|split; [reflexivity|]].
    + split.
      * split; [by rewrite length_insert|].
        apply Forall_insert; [assumption|by left].
      * rewrite (take_S_r _ _ num) by (by apply list_lookup_insert_eq).
        rewrite take_insert_ge by lia.
        apply Forall_app. split; [assumption|].
        by apply Forall_singleton.
    + right. split; [reflexivity|]. split; [assumption|].
      exists num. split; [assumption|]. split; [reflexivity|].
      by apply list_lookup_insert_eq.
Qed.

(** ** How many modes a build can add *)

Lemma est_cost_total : sum_list (map est_cost est_timings) = 11%nat.
Proof. vm_compute. reflexivity. Qed.

Lemma sum_list_zero {A : Type} (f : A -> nat) (l : list A) :
  (forall x, In x l -> f x = 0%nat) -> sum_list (map f l) = 0%nat.
Proof.
  induction l as [|a l IH]; intros H; cbn; [reflexivity|].
  rewrite H by (by left). rewrite IH; [reflexivity|].
  intros x Hx. apply H. by right.
Qed.

Lemma sum_list_bound {A : Type} (f : A -> nat) (c : nat) (l : list A) :
  (forall x, f x <= c)%nat -> (sum_list (map f l) <= c * length l)%nat.
Proof.
  intros H. induction l as [|a l IH]; cbn; [lia|].
  specialize (H a). rewrite Nat.mul_succ_r. lia.
Qed.

Lemma cat_hit_dims (w h r : Z) :
  cat_hit w h r = true -> In (w, h) catalogue_dims.
Proof.
  unfold cat_hit, catalogue_dims, mode_matches. intros H.
  apply existsb_exists in H as (e & Hin & Hm).
  apply in_flat_map. exists e. split; [assumption|].
  apply andb_prop in Hm as [Hm _]. apply andb_prop in Hm as [Hm Hh].
  apply andb_prop in Hm as [Hw _].
  apply Z.eqb_eq in Hw. subst w.
  apply orb_prop in Hh as [Hh|Hh]; apply Z.eqb_eq in Hh; subst.
  - right. by left.
  - by left.
Qed.

Lemma catalogue_dims_cost :
  forallb (fun p => sum_list (map (hit_cost (fst p) (snd p)) hz_range) <=? 5)%nat
          catalogue_dims = true.
Proof. vm_compute. reflexivity. Qed.

Lemma hz_cost_bound (w h : Z) :
  (sum_list (map (hit_cost w h) hz_range) <= 5)%nat.
Proof.
  destruct (existsb (cat_hit w h) hz_range) eqn:E.
  - apply existsb_exists in E as (r & _ & Hr).
    apply cat_hit_dims in Hr.
    pose proof catalogue_dims_cost as Hall.
    rewrite forallb_forall in Hall. specialize (Hall _ Hr).
    cbn [fst snd] in Hall. by apply Nat.leb_le.
  - rewrite sum_list_zero; [lia|].
    intros r Hr. unfold hit_cost.
    destruct (cat_hit w h r) eqn:Hc; [|reflexivity].
    assert (existsb (cat_hit w h) hz_range = true)
      by (apply existsb_exists; eauto).
    congruence.
Qed.

Lemma detail_cost_bound (d : edid_timing_desc_t) : (detail_cost d <= 5)%nat.
Proof. destruct d; cbn [detail_cost]; [apply hz_cost_bound|lia]. Qed.

(** ** The stages of the build *)

Lemma est_body_step (timings : Z) (nat0 : dlo_mode_t)
    (st : dlo_device_t * nat) (e : est_timing_t) :
  prefix_ok st /\ Dev.native (fst st) = nat0 ->
  (snd st + est_cost e <= Z.to_nat DLO_MODE_DATA_NUM)%nat ->
  exists st',
    est_body timings st e = Some st'
    /\ (prefix_ok st' /\ Dev.native (fst st') = nat0)
    /\ (snd st <= snd st' <= snd st + est_cost e)%nat.
Proof.
  destruct st as [dev idx]. intros [Hpre Hnat] Hbudget.
  unfold est_body, est_cost in *. cbn [fst snd] in *.
  destruct (negb (EstTiming.width e =? 0)).
  - destruct (add_supported_step dev idx _ _ _ Hpre Hbudget)
      as (dev' & idx' & Hadd & Hpre' & Hnat' & Hcase).
    exists (dev', idx'). split; [assumption|]. cbn [fst snd].
    split; [split; [assumption|congruence]|].
    destruct Hcase as [(-> & _)|(-> & -> & _)]; lia.
  - exists (dev, idx). cbn [fst snd]. split; [reflexivity|].
    split; [by split|lia].
Qed.

Lemma hz_body_step (detail : edid_detail_t) (i1 : nat)
    (st : dlo_device_t * nat) (hz : Z) :
  prefix_ok st /\ native_ok i1 st ->
  (snd st + hit_cost (detail_width detail) (detail_height detail) hz
   <= Z.to_nat DLO_MODE_DATA_NUM)%nat ->
  exists st',
    hz_body detail st hz = Some st'
    /\ (prefix_ok st' /\ native_ok i1 st')
    /\ (snd st <= snd st'
        <= snd st + hit_cost (detail_width detail) (detail_height detail) hz)%nat.
Proof.
  destruct st as [dev idx]. intros [Hpre Hnat] Hbudget.
  cbn [fst snd] in *. unfold hz_body.
  fold (detail_width detail) (detail_height detail).
  destruct (add_supported_step dev idx _ _ _ Hpre Hbudget)
    as (dev' & idx' & Hadd & Hpre' & Hnat' & Hcase).
  rewrite Hadd. cbn [mbind option_bind].
  destruct Hcase as [(-> & -> & _)|(-> & Hcost & num & Hvalid & _ & Hnum)].
  - rewrite Nat.eqb_refl. cbn [negb]. exists (dev, idx).
    split; [reflexivity|]. split; [by split|]. cbn [fst snd]. lia.
  - destruct (Nat.eqb_spec (S idx) idx) as [?|_]; [lia|]. cbn [negb].
    rewrite Hnum. cbn [mbind option_bind].
    destruct (array_get_valid num Hvalid) as [e He].
    rewrite He. cbn [mbind option_bind].
    eexists (_, _). split; [reflexivity|]. cbn [fst snd].
    split; [|lia]. split.
    + exact Hpre'.
    + destruct Hnat as (Hle & _ & _). unfold native_ok. cbn [fst snd] in *.
      split; [lia|]. split; [lia|]. intros _. exists num.
      replace (S idx - 1)%nat with idx by lia.
      split; [exact Hnum|].
      unfold dlo_mode_from_number.
      destruct (Z.ltb_spec num DLO_MODE_DATA_NUM) as [_|?];
        [|unfold valid_modenum in Hvalid; lia].
      rewrite He. reflexivity.
Qed.

Lemma detail_body_step (i1 : nat) (st : dlo_device_t * nat)
    (d : edid_timing_desc_t) :
  prefix_ok st /\ native_ok i1 st ->
  (snd st + detail_cost d <= Z.to_nat DLO_MODE_DATA_NUM)%nat ->
  exists st',
    detail_body st d = Some st'
    /\ (prefix_ok st' /\ native_ok i1 st')
    /\ (snd st <= snd st' <= snd st + detail_cost d)%nat.
Proof.
  intros HP Hbudget. destruct d as [detail|]; cbn [detail_body detail_cost] in *.
  - eapply (for_each_inv (hz_body detail) _ snd); [|exact HP|exact Hbudget].
    intros s a. apply hz_body_step.
  - exists st. split; [reflexivity|]. split; [assumption|lia].
Qed.

(** The build runs to its end on a well-formed device, for the four
    descriptors of an EDID: at most 11 modes come from the established
    timings and at most 5 from each descriptor. *)
Lemma lookup_edid_modes_stages (dev : dlo_device_t) (edid : edid_format_t) :
  supported_ok (Dev.supported dev) ->
  (length (Edid.timings edid) <= 4)%nat ->
  exists dev1 i1 dev2 i2,
    est_stage (Dev.set_native dev zero_mode) edid 0 = Some (dev1, i1)
    /\ detail_stage dev1 edid i1 = Some (dev2, i2)
    /\ lookup_edid_modes dev edid = Some (dlo_ok, fill_stage dev2 i2)
    /\ prefix_ok (dev2, i2)
    /\ native_ok i1 (dev2, i2)
    /\ (i2 <= 31)%nat.
Proof.
  intros Hok Hlen.
  destruct (for_each_inv
              (est_body
                 (Z.lor (Z.lor (EstTimings.timings0 (Edid.est_timings edid))
                               (Z.shiftl (EstTimings.timings1
                                            (Edid.est_timings edid)) 8))
                        (Z.shiftl (EstTimings.resvd (Edid.est_timings edid))
                                  16)))
              (fun st => prefix_ok st /\ Dev.native (fst st) = zero_mode)
              snd est_cost (Z.to_nat DLO_MODE_DATA_NUM)
              (est_body_step _ zero_mode) est_timings
              (Dev.set_native dev zero_mode, 0%nat))
    as ([dev1 i1] & Hest & [Hpre1 Hnat1] & Hb1).
  { split; [|reflexivity]. split; [exact Hok|]. cbn. constructor. }
  { rewrite est_cost_total. cbn [snd].
    change (Z.to_nat DLO_MODE_DATA_NUM) with 35%nat. lia. }
  rewrite est_cost_total in Hb1. cbn [fst snd] in *.
  pose proof (sum_list_bound detail_cost 5 (Edid.timings edid)
                detail_cost_bound) as Hsum.
  destruct (for_each_inv detail_body
              (fun st => prefix_ok st /\ native_ok i1 st)
              snd detail_cost (Z.to_nat DLO_MODE_DATA_NUM)
              (detail_body_step i1) (Edid.timings edid) (dev1, i1))
    as ([dev2 i2] & Hdet & [Hpre2 Hnat2] & Hb2).
  { split; [assumption|]. unfold native_ok. cbn [fst snd].
    split; [lia|]. split; [by intros _|lia]. }
  { cbn [fst snd]. change (Z.to_nat DLO_MODE_DATA_NUM) with 35%nat. lia. }
  cbn [fst snd] in *.
  exists dev1, i1, dev2, i2. split; [exact Hest|]. split; [exact Hdet|].
  split; [|split; [assumption|split; [assumption|lia]]].
  unfold lookup_edid_modes. unfold est_stage in Hest. unfold est_stage.
  rewrite Hest. cbn [mbind option_bind].
  unfold detail_stage in Hdet. unfold detail_stage. rewrite Hdet.
  reflexivity.
Qed.

Lemma fill_stage_lookup (dev : dlo_device_t) (idx j : nat) :
  Dev.supported (fill_stage dev idx) !! j
  = if bool_decide ((idx <= j < 34)%nat /\ (j < length (Dev.supported dev))%nat)
    then Some DLO_INVALID_MODE
    else Dev.supported dev !! j.
Proof.
  unfold fill_stage, Dev.set_supported. cbn [Dev.supported].
  rewrite (foldl_insert_lookup (fun _ => DLO_INVALID_MODE)).
  change (Z.to_nat (DLO_MODE_DATA_NUM - 1)) with 34%nat.
  erewrite bool_decide_ext; [reflexivity|]. rewrite elem_of_seq. lia.
Qed.

Lemma fill_stage_ok (dev : dlo_device_t) (idx : nat) :
  supported_ok (Dev.supported dev) ->
  supported_ok (Dev.supported (fill_stage dev idx)).
Proof.
  intros [Hlen Hall]. unfold fill_stage, Dev.set_supported.
  cbn [Dev.supported]. split.
  - by rewrite (foldl_insert_length (fun _ => DLO_INVALID_MODE)).
  - generalize (Dev.supported dev) Hall. clear.
    induction (seq idx _) as [|i l IH]; intros s Hs; cbn [foldl];
      [assumption|].
    apply IH. apply Forall_insert; [assumption|by right].
Qed.

Lemma fill_stage_terminated (dev : dlo_device_t) (idx : nat) :
  prefix_ok (dev, idx) -> (idx <= 31)%nat ->
  sentinel_terminated (Dev.supported (fill_stage dev idx))
  /\ Dev.supported (fill_stage dev idx) !! idx = Some DLO_INVALID_MODE
  /\ (forall j, (j < idx)%nat ->
                Dev.supported (fill_stage dev idx) !! j
                = Dev.supported dev !! j).
Proof.
  intros [[Hlen Hall] Hpre] Hidx. cbn [fst snd] in *.
  change (Z.to_nat DLO_MODE_DATA_NUM) with 35%nat in Hlen.
  assert (Hat : Dev.supported (fill_stage dev idx) !! idx
                = Some DLO_INVALID_MODE).
  { rewrite fill_stage_lookup, bool_decide_eq_true_2; [reflexivity|lia]. }
  assert (Hbefore : forall j, (j < idx)%nat ->
                      Dev.supported (fill_stage dev idx) !! j
                      = Dev.supported dev !! j).
  { intros j Hj. rewrite fill_stage_lookup, bool_decide_eq_false_2;
      [reflexivity|lia]. }
  split; [|by split].
  exists idx. split; [change (Z.to_nat DLO_MODE_DATA_NUM) with 35%nat; lia|].
  split; [assumption|].
  intros j n Hj Hn. rewrite Hbefore in Hn by assumption.
  eapply Forall_lookup_1; [exact Hpre|].
  rewrite lookup_take_lt; [exact Hn|assumption].
Qed.

(** ** The supported list after a build *)

Lemma use_default_modes_lookup (dev : dlo_device_t) (i : nat) :
  length (Dev.supported dev) = Z.to_nat DLO_MODE_DATA_NUM ->
  (i < Z.to_nat DLO_MODE_DATA_NUM)%nat ->
  Dev.supported (use_default_modes dev) !! i = Some (Z.of_nat i).
Proof.
  intros Hlen Hi. unfold use_default_modes, Dev.set_supported.
  cbn [Dev.supported]. rewrite (foldl_insert_lookup Z.of_nat).
  rewrite bool_decide_eq_true_2; [reflexivity|].
  rewrite elem_of_seq. lia.
Qed.

Lemma use_default_modes_length (dev : dlo_device_t) :
  length (Dev.supported (use_default_modes dev)) = length (Dev.supported dev).
Proof.
  unfold use_default_modes, Dev.set_supported. cbn [Dev.supported].
  apply (foldl_insert_length Z.of_nat).
Qed.

Lemma use_default_modes_valid (dev : dlo_device_t) :
  length (Dev.supported dev) = Z.to_nat DLO_MODE_DATA_NUM ->
  Forall valid_modenum (Dev.supported (use_default_modes dev)).
Proof.
  intros Hlen. apply Forall_lookup_2. intros i n Hn.
  assert (Hi : (i < Z.to_nat DLO_MODE_DATA_NUM)%nat).
  { apply lookup_lt_Some in Hn. rewrite use_default_modes_length in Hn. lia. }
  rewrite use_default_modes_lookup in Hn by assumption.
  injection Hn as <-. unfold valid_modenum. lia.
Qed.

(** C6, as the code has it. After [use_default_modes] the supported array
    holds the catalogue indices 0..34 in order: every element indexes the
    catalogue and none is the sentinel (the lookup stops at the end of the
    array).  After a build from an EDID, on a device whose supported array
    holds catalogue indices and sentinels only, the array again holds
    catalogue indices and sentinels only, some element within its length
    is the sentinel, and every element before that one indexes the
    catalogue. *)
Theorem supported_after_build :
  (forall dev : dlo_device_t,
      length (Dev.supported dev) = Z.to_nat DLO_MODE_DATA_NUM ->
      (forall i : nat,
          (i < Z.to_nat DLO_MODE_DATA_NUM)%nat ->
          Dev.supported (use_default_modes dev) !! i = Some (Z.of_nat i))
      /\ Forall valid_modenum (Dev.supported (use_default_modes dev))
      /\ supported_ok (Dev.supported (use_default_modes dev))
      /\ DLO_INVALID_MODE ∉ Dev.supported (use_default_modes dev))
  /\ (forall (dev : dlo_device_t) (edid : edid_format_t),
         supported_ok (Dev.supported dev) ->
         (length (Edid.timings edid) <= 4)%nat ->
         exists dev',
           lookup_edid_modes dev edid = Some (dlo_ok, dev')
           /\ supported_ok (Dev.supported dev')
           /\ sentinel_terminated (Dev.supported dev')).
Proof.
  split.
  - intros dev Hlen.
    pose proof (use_default_modes_valid dev Hlen) as Hvalid.
    split; [intros i Hi; by apply use_default_modes_lookup|].
    split; [assumption|]. split.
    + split; [by rewrite use_default_modes_length|].
      eapply Forall_impl; [exact Hvalid|]. intros n Hn. by left.
    + intros Hin. eapply Forall_forall in Hvalid; [|exact Hin].
      unfold valid_modenum, DLO_INVALID_MODE, DLO_MODE_DATA_NUM in Hvalid. lia.
  - intros dev edid Hok Hlen.
    destruct (lookup_edid_modes_stages dev edid Hok Hlen)
      as (dev1 & i1 & dev2 & i2 & _ & _ & Hrun & Hpre & _ & Hi2).
    exists (fill_stage dev2 i2). split; [assumption|]. split.
    + apply fill_stage_ok. apply Hpre.
    + by apply fill_stage_terminated.
Qed.

(** ** Parsing an EDID block *)

Lemma parse_edid_format_timings (ptr : list byte) :
  length (Edid.timings (parse_edid_format ptr)) = 4%nat.
Proof. reflexivity. Qed.

(** C1. For every block of 128 bytes: [dlo_mode_parse_edid] fails with
    [dlo_err_edid_fail] when the first 8 bytes are not the header
    00 FF FF FF FF FF FF 00, and when the unsigned sum of the 128 bytes is
    not a multiple of 256; and with the header in place (on a device whose
    supported array is well formed, so that the build that follows the
    checks is defined) it succeeds exactly when the sum of the 128 bytes
    is a multiple of 256. *)
Theorem dlo_mode_parse_edid_checks (dev : dlo_device_t) (ptr : list byte) :
  length ptr = EDID_STRUCT_SZ ->
  (take 8 ptr <> header ->
   dlo_mode_parse_edid dev ptr = Some (dlo_err_edid_fail, dev))
  /\ (byte_sum ptr mod 256 <> 0 ->
      dlo_mode_parse_edid dev ptr = Some (dlo_err_edid_fail, dev))
  /\ (take 8 ptr = header ->
      supported_ok (Dev.supported dev) ->
      ((exists dev', dlo_mode_parse_edid dev ptr = Some (dlo_ok, dev'))
       <-> byte_sum ptr mod 256 = 0)).
Proof.
  intros Hlen. unfold dlo_mode_parse_edid, memcmp.
  change (take (length header) header) with header.
  change (length header) with 8%nat.
  rewrite bad_edid_checksum_sum.
  destruct (decide (header = take 8 ptr)) as [Hhdr|Hhdr].
  - rewrite bool_decide_eq_true_2 by assumption. cbn [negb].
    destruct (Z.eqb_spec (byte_sum ptr mod 256) 0) as [Hsum|Hsum]; cbn [negb].
    + split; [congruence|]. split; [congruence|]. intros _ Hok.
      destruct (lookup_edid_modes_stages dev (parse_edid_format ptr) Hok)
        as (dev1 & i1 & dev2 & i2 & _ & _ & Hrun & _);
        [by rewrite parse_edid_format_timings|].
      rewrite Hrun. split; [intros _; assumption|intros _; eauto].
    + split; [congruence|]. split; [reflexivity|]. intros _ _.
      split; [intros [dev' [=]]|contradiction].
  - rewrite bool_decide_eq_false_2 by assumption. cbn [negb].
    split; [reflexivity|]. split; [reflexivity|]. congruence.
Qed.

(** ** The native mode *)

Lemma fill_stage_native (dev : dlo_device_t) (idx : nat) :
  Dev.native (fill_stage dev idx) = Dev.native dev.
Proof. reflexivity. Qed.


(** ** Evaluations of the code *)

(** C3. The walk over the established timings does not test the bits of
    the EDID, so it adds the same modes whatever the EDID says; for the
    block whose only established-timing bit is that of
    640x480 at 60 Hz, parsed on the device with the default modes, the
    supported array starts with the entries of 800x600 at 60 Hz (26) and
    at 56 Hz (27), and holds all eleven established timings the catalogue
    has, where the entry of 640x480 at 60 Hz (34) followed by the sentinel
    is expected. *)
Theorem est_timing_bits_ignored :
  (forall (dev : dlo_device_t) (edid edid' : edid_format_t) (idx : nat),
      est_stage dev edid idx = est_stage dev edid' idx)
  /\ Edid.est_timings (parse_edid_format edid_est_640x480)
     = EstTimings.mk 0x20 0 0
  /\ dlo_mode_lookup default_device 640 480 60 24 = Some 34
  /\ exists dev',
       dlo_mode_parse_edid default_device edid_est_640x480
       = Some (dlo_ok, dev')
       /\ Dev.supported dev' !! 0%nat = Some 26
       /\ Dev.supported dev' !! 1%nat = Some 27
       /\ take 12 (Dev.supported dev')
          = [26; 27; 32; 34; 30; 14; 19; 20; 21; 24; 25; DLO_INVALID_MODE].
Proof.
  split; [intros dev edid edid' idx; reflexivity|].
  split; [vm_compute; reflexivity|]. split; [vm_compute; reflexivity|].
  eexists. split; [vm_compute; reflexivity|].
  split; [vm_compute; reflexivity|].
  split; vm_compute; reflexivity.
Qed.

(** C4. The colour characteristics are not read at the offsets
    0x19..0x22 of the block: [dlo_mode_parse_edid] passes [ptr + 0x19] to
    [parse_edid_colours], which adds 0x19..0x22 again, so the bytes at
    0x32..0x3B are read; for the example block every channel parsed is
    zero where white-x 257, white-y 8 and blue-y 5 are expected.  Applied
    at the base of the block, [parse_edid_colours] expands white-x from
    the high byte of white-y (9 instead of 257) and takes the low bits of
    blue-y with the mask 0x40 (4 instead of 5). *)
Theorem colours_misparsed :
  Edid.colours (parse_edid_format edid_colours_example)
  = Colours.mk 0 0 0 0 0 0 0 0 0 0
  /\ colours_spec edid_colours_example
     = Colours.mk 0 0x14 0 0 0 0 0 5 257 8
  /\ parse_edid_colours edid_colours_example
     = Colours.mk 0 0x14 0 0 0 0 0 4 9 8
  /\ exists dev',
       dlo_mode_parse_edid default_device edid_colours_example
       = Some (dlo_ok, dev').
Proof.
  split; [vm_compute; reflexivity|].
  split; [vm_compute; reflexivity|].
  split; [vm_compute; reflexivity|].
  eexists. vm_compute. reflexivity.
Qed.

(** ** The theorems at concrete inputs *)

(** Decides a closed decidable proposition by evaluation. *)
Ltac by_evaluation := apply (bool_decide_unpack _); vm_compute; exact I.

Lemma dlo_mode_parse_edid_checks_witness :
  dlo_mode_parse_edid default_device edid_zeros
  = Some (dlo_err_edid_fail, default_device)
  /\ dlo_mode_parse_edid default_device edid_no_checksum
     = Some (dlo_err_edid_fail, default_device)
  /\ ((exists dev',
          dlo_mode_parse_edid default_device edid_est_640x480
          = Some (dlo_ok, dev'))
      <-> byte_sum edid_est_640x480 mod 256 = 0).
Proof.
  split; [|split].
  - apply (proj1 (dlo_mode_parse_edid_checks default_device edid_zeros
                    eq_refl)).
    vm_compute. intros H. discriminate H.
  - apply (proj1 (proj2 (dlo_mode_parse_edid_checks default_device
                           edid_no_checksum eq_refl))).
    vm_compute. intros H. discriminate H.
  - apply (proj2 (proj2 (dlo_mode_parse_edid_checks default_device
                           edid_est_640x480 eq_refl))).
    + vm_compute. reflexivity.
    + by_evaluation.
Defined.

Lemma dlo_mode_lookup_spec_witness :
  dlo_mode_lookup default_device 1024 768 60 16 = Some DLO_INVALID_MODE
  /\ dlo_mode_lookup default_device 1024 768 60 24
     = Some (lookup_spec (Dev.supported default_device) 1024 768 60 24)
  /\ dlo_mode_lookup default_device 1024 768 0 24
     = Some (first_match (before_sentinel (Dev.supported default_device))
                         1024 768 0 24).
Proof.
  assert (Hvalid : Forall valid_modenum
                     (before_sentinel (Dev.supported default_device)))
    by by_evaluation.
  split; [|split].
  - apply (proj1 (dlo_mode_lookup_spec default_device 1024 768 60 16
                    eq_refl Hvalid)).
    vm_compute. intros H. discriminate H.
  - apply (proj1 (proj2 (dlo_mode_lookup_spec default_device 1024 768 60 24
                           eq_refl Hvalid))).
  - apply (proj2 (proj2 (dlo_mode_lookup_spec default_device 1024 768 0 24
                           eq_refl Hvalid))).
    reflexivity.
Defined.

Lemma default_modes_not_terminated :
  ~ sentinel_terminated (Dev.supported (use_default_modes fresh_device)).
Proof.
  intros (k & _ & Hk & _).
  apply list_elem_of_lookup_2 in Hk.
  pose proof (use_default_modes_valid fresh_device eq_refl) as Hvalid.
  eapply Forall_forall in Hvalid; [|exact Hk].
  unfold valid_modenum, DLO_INVALID_MODE, DLO_MODE_DATA_NUM in Hvalid. lia.
Qed.

Lemma supported_after_build_witness :
  Dev.supported (use_default_modes fresh_device) !! 34%nat = Some 34
  /\ exists dev',
       lookup_edid_modes default_device (parse_edid_format edid_est_640x480)
       = Some (dlo_ok, dev')
       /\ supported_ok (Dev.supported dev')
       /\ sentinel_terminated (Dev.supported dev').
Proof.
  split.
  - apply (proj1 supported_after_build fresh_device); [reflexivity|].
    vm_compute. lia.
  - apply (proj2 supported_after_build default_device);
      [by_evaluation|vm_compute; lia].
Defined.



Lemma staging_spec_witness :
  vbuf small_device WRITE_VIDREG_LOCK = Some (dlo_err_buf_full, small_device)
  /\ (exists dev',
         vbuf fresh_device WRITE_VIDREG_UNLOCK = Some (dlo_ok, dev')
         /\ Dev.bufptr dev' = Dev.bufptr fresh_device + 6
         /\ staged dev' = staged fresh_device ++ WRITE_VIDREG_UNLOCK
         /\ Dev.buffer dev' = buffer_with fresh_device WRITE_VIDREG_UNLOCK
         /\ Dev.bufend dev' = Dev.bufend fresh_device
         /\ same_but_buffer fresh_device dev')
  /\ vreg small_device x20 x00 = Some (dlo_err_buf_full, small_device)
  /\ (exists dev',
         vreg fresh_device x20 x00 = Some (dlo_ok, dev')
         /\ Dev.bufptr dev' = Dev.bufptr fresh_device + 4
         /\ staged dev' = staged fresh_device ++ [xaf; x20; x20; x00]
         /\ Dev.buffer dev' = buffer_with fresh_device [xaf; x20; x20; x00]
         /\ Dev.bufend dev' = Dev.bufend fresh_device
         /\ same_but_buffer fresh_device dev').
Proof.
  assert (Hsmall : buffer_ok small_device) by by_evaluation.
  assert (Hfresh : buffer_ok fresh_device) by by_evaluation.
  split; [|split; [|split]].
  - apply (proj1 (staging_spec small_device WRITE_VIDREG_LOCK x20 x00 Hsmall)).
    vm_compute. reflexivity.
  - apply (proj1 (proj2 (staging_spec fresh_device WRITE_VIDREG_UNLOCK
                           x20 x00 Hfresh))).
    vm_compute. intros H. discriminate H.
  - apply (proj1 (proj2 (proj2 (staging_spec small_device WRITE_VIDREG_LOCK
                                  x20 x00 Hsmall)))).
    vm_compute. reflexivity.
  - apply (proj2 (proj2 (proj2 (staging_spec fresh_device WRITE_VIDREG_UNLOCK
                                  x20 x00 Hfresh)))).
    vm_compute. intros H. discriminate H.
Defined.

Lemma dlo_mode_change_errors_witness :
  dlo_mode_change usb_accepts no_bytes [] 8 default_device desc_unknown
    DLO_INVALID_MODE = Some (dlo_err_bad_mode, default_device)
  /\ dlo_mode_change usb_accepts no_bytes [] 8 default_device desc_odd_base
       21 = Some (dlo_err_bad_mode, default_device)
  /\ dlo_mode_change usb_refuses no_bytes [] 8 default_device desc_1024x768
       21
     = Some (dlo_retcode_num DLO_INVALID_MODE,
             snd (dlo_usb_write usb_refuses default_device)).
Proof.
  split; [|split].
  - apply (proj1 (dlo_mode_change_errors usb_accepts no_bytes [] 8
                    default_device desc_unknown DLO_INVALID_MODE));
      reflexivity.
  - apply (proj1 (proj2 (dlo_mode_change_errors usb_accepts no_bytes [] 8
                           default_device desc_odd_base 21)) 21);
      reflexivity.
  - apply (proj2 (proj2 (dlo_mode_change_errors usb_refuses no_bytes [] 8
                           default_device desc_1024x768 21)) 21).
    + reflexivity.
    + by_evaluation.
    + reflexivity.
    + vm_compute. intros H. discriminate H.
Defined.

Lemma dlo_mode_change_completes_witness :
  exists num e,
    resolved_mode default_device desc_1024x768 DLO_INVALID_MODE = Some num
    /\ array_get dlo_mode_data num = Some e
    /\ Mode.view (Dev.mode changed_device) = Mode.view desc_1024x768
    /\ Mode.refresh (Dev.mode changed_device) = ModeData.refresh e
    /\ Dev.low_blank changed_device = ModeData.low_blank e
    /\ Dev.base8 changed_device
       = u32 (View.base (Mode.view desc_1024x768)
              + 2 * View.width (Mode.view desc_1024x768)
                * View.height (Mode.view desc_1024x768))
    /\ (0 <= View.base (Mode.view desc_1024x768)
              + 2 * View.width (Mode.view desc_1024x768)
                * View.height (Mode.view desc_1024x768) < 2 ^ 32 ->
        Dev.base8 changed_device
        = View.base (Mode.view desc_1024x768)
          + 2 * View.width (Mode.view desc_1024x768)
            * View.height (Mode.view desc_1024x768))
    /\ dlo_ok = (if num <? 8 then dlo_warn_dl160_mode else dlo_ok).
Proof.
  apply (dlo_mode_change_completes usb_accepts no_bytes [] 8).
  - intros h t. vm_compute. intros H. discriminate H.
  - vm_compute. reflexivity.
  - left. reflexivity.
Defined.

Lemma dlo_mode_from_number_witness :
  (dlo_mode_from_number 34 = None <-> DLO_MODE_DATA_NUM <= 34)
  /\ exists e m,
       array_get dlo_mode_data 34 = Some e
       /\ dlo_mode_from_number 34 = Some m
       /\ View.width (Mode.view m) = ModeData.width e
       /\ View.height (Mode.view m) = ModeData.height e
       /\ View.bpp (Mode.view m) = ModeData.bpp e
       /\ Mode.refresh m = ModeData.refresh e
       /\ View.base (Mode.view m) = 0.
Proof.
  assert (Hnum : 0 <= 34 < 2 ^ 32) by by_evaluation.
  split.
  - apply (proj1 (dlo_mode_from_number_spec 34 Hnum)).
  - apply (proj2 (dlo_mode_from_number_spec 34 Hnum)).
    vm_compute. reflexivity.
Defined.


(** ** More on the lookup *)

Lemma first_match_sound (l : list Z) (w h r bpp : Z) (n : Z) :
  first_match l w h r bpp = n ->
  n <> DLO_INVALID_MODE ->
  n ∈ l /\ entry_matches n w h r bpp = true.
Proof.
  unfold entry_matches.
  induction l as [|k l IH]; cbn [first_match]; intros Hn Hne.
  - congruence.
  - destruct (array_get dlo_mode_data k) as [e|] eqn:He.
    + destruct (mode_matches e w h r bpp) eqn:Hm.
      * subst k. split; [apply elem_of_cons; by left|].
        by rewrite He.
      * destruct (IH Hn Hne) as [Hin Hmatch].
        split; [apply elem_of_cons; by right|assumption].
    + destruct (IH Hn Hne) as [Hin Hmatch].
      split; [apply elem_of_cons; by right|assumption].
Qed.

Lemma first_match_complete (l : list Z) (w h r bpp : Z) (k : Z) :
  k ∈ l -> entry_matches k w h r bpp = true ->
  first_match l w h r bpp <> DLO_INVALID_MODE.
Proof.
  unfold entry_matches.
  induction l as [|a l IH]; intros Hin Hm.
  - by apply elem_of_nil in Hin.
  - cbn [first_match].
    destruct (array_get dlo_mode_data a) as [e|] eqn:He.
    + destruct (mode_matches e w h r bpp) eqn:Hma.
      * apply array_get_Some_valid in He.
        unfold valid_modenum, DLO_MODE_DATA_NUM, DLO_INVALID_MODE in *. lia.
      * apply elem_of_cons in Hin as [->|Hin]; [|by apply IH].
        rewrite He in Hm. congruence.
    + apply elem_of_cons in Hin as [->|Hin]; [|by apply IH].
      rewrite He in Hm. discriminate.
Qed.

Lemma dlo_mode_lookup_first_match (dev : dlo_device_t) (w h r bpp : Z) :
  length (Dev.supported dev) = Z.to_nat DLO_MODE_DATA_NUM ->
  Forall valid_modenum (before_sentinel (Dev.supported dev)) ->
  dlo_mode_lookup dev w h r bpp
  = Some (if bpp =? 24
          then first_match (before_sentinel (Dev.supported dev)) w h r bpp
          else DLO_INVALID_MODE).
Proof.
  intros Hlen Hv. unfold dlo_mode_lookup, get_mode_number.
  destruct (bpp =? 24); cbn [negb]; [|reflexivity].
  rewrite get_mode_number_from_spec.
  - rewrite drop_0, take_ge by lia. reflexivity.
  - lia.
  - rewrite drop_0, take_ge by lia. assumption.
Qed.

(** X1. A mode number that the lookup returns can be turned back into a
    mode record that answers the request: on a supported array whose
    entries before the sentinel index the catalogue, a result other than
    the sentinel is one of those entries, and [dlo_mode_from_number] gives
    for it a record of the width asked for, of 24 bpp (the depth asked
    for), with the height and the refresh rate asked for wherever they
    are not zero. *)
Theorem lookup_from_number (dev : dlo_device_t) (w h r bpp num : Z) :
  length (Dev.supported dev) = Z.to_nat DLO_MODE_DATA_NUM ->
  Forall valid_modenum (before_sentinel (Dev.supported dev)) ->
  dlo_mode_lookup dev w h r bpp = Some num ->
  num <> DLO_INVALID_MODE ->
  num ∈ before_sentinel (Dev.supported dev)
  /\ bpp = 24
  /\ exists m,
       dlo_mode_from_number num = Some m
       /\ View.width (Mode.view m) = w
       /\ View.bpp (Mode.view m) = 24
       /\ (h <> 0 -> View.height (Mode.view m) = h)
       /\ (r <> 0 -> Mode.refresh m = r).
Proof.
  intros Hlen Hv Hlook Hne.
  rewrite dlo_mode_lookup_first_match in Hlook by assumption.
  injection Hlook as Hlook.
  destruct (Z.eqb_spec bpp 24) as [->|_]; [|congruence].
  destruct (first_match_sound _ _ _ _ _ _ Hlook Hne) as [Hin Hm].
  split; [assumption|]. split; [reflexivity|].
  unfold entry_matches in Hm.
  destruct (array_get dlo_mode_data num) as [e|] eqn:He; [|discriminate].
  pose proof (array_get_Some_valid _ _ He) as [_ Hhi].
  exists (Mode.mk (View.mk (ModeData.width e) (ModeData.height e)
                           (ModeData.bpp e) 0) (ModeData.refresh e)).
  unfold dlo_mode_from_number.
  destruct (Z.ltb_spec num DLO_MODE_DATA_NUM); [|lia].
  rewrite He. cbn [mbind option_bind Mode.view Mode.refresh View.width
                     View.height View.bpp].
  split; [reflexivity|].
  unfold mode_matches in Hm.
  apply andb_prop in Hm as [Hm Hr]. apply andb_prop in Hm as [Hm Hh].
  apply andb_prop in Hm as [Hw Hb].
  apply Z.eqb_eq in Hw.
  split; [assumption|].
  split; [by eapply catalogue_bpp|].
  split.
  - intros Hh0. apply orb_prop in Hh as [Hh|Hh]; apply Z.eqb_eq in Hh;
      [contradiction|assumption].
  - intros Hr0. apply orb_prop in Hr as [Hr|Hr]; apply Z.eqb_eq in Hr;
      [contradiction|assumption].
Qed.

(** X2. The lookup is monotone in the supported list: when every entry
    before the sentinel of one device is also an entry before the
    sentinel of another, a request that the first device answers with a
    mode is answered with a mode by the other too. *)
Theorem lookup_monotone (dev1 dev2 : dlo_device_t) (w h r bpp n1 : Z) :
  length (Dev.supported dev1) = Z.to_nat DLO_MODE_DATA_NUM ->
  length (Dev.supported dev2) = Z.to_nat DLO_MODE_DATA_NUM ->
  Forall valid_modenum (before_sentinel (Dev.supported dev1)) ->
  Forall valid_modenum (before_sentinel (Dev.supported dev2)) ->
  (forall n, n ∈ before_sentinel (Dev.supported dev1) ->
             n ∈ before_sentinel (Dev.supported dev2)) ->
  dlo_mode_lookup dev1 w h r bpp = Some n1 ->
  n1 <> DLO_INVALID_MODE ->
  exists n2,
    dlo_mode_lookup dev2 w h r bpp = Some n2 /\ n2 <> DLO_INVALID_MODE.
Proof.
  intros Hl1 Hl2 Hv1 Hv2 Hsub Hlook Hne.
  rewrite dlo_mode_lookup_first_match in Hlook by assumption.
  rewrite dlo_mode_lookup_first_match by assumption.
  injection Hlook as Hlook.
  destruct (bpp =? 24); [|congruence].
  destruct (first_match_sound _ _ _ _ _ _ Hlook Hne) as [Hin Hm].
  eexists. split; [reflexivity|].
  eapply first_match_complete; [apply Hsub; exact Hin|exact Hm].
Qed.

Lemma use_default_modes_supported (dev : dlo_device_t) :
  length (Dev.supported dev) = Z.to_nat DLO_MODE_DATA_NUM ->
  Dev.supported (use_default_modes dev) = default_supported.
Proof.
  intros Hlen. apply list_eq. intros i. unfold default_supported.
  destruct (decide (i < Z.to_nat DLO_MODE_DATA_NUM)%nat) as [Hi|Hi].
  - rewrite use_default_modes_lookup by assumption.
    rewrite list_lookup_fmap, lookup_seq_lt by assumption. reflexivity.
  - rewrite !lookup_ge_None_2; [reflexivity| |].
    + rewrite length_map, length_seq. lia.
    + rewrite use_default_modes_length. lia.
Qed.

Lemma before_sentinel_valid (l : list Z) :
  Forall valid_modenum l -> before_sentinel l = l.
Proof.
  induction 1 as [|n l Hn _ IH]; cbn [before_sentinel]; [reflexivity|].
  destruct (Z.eqb_spec n DLO_INVALID_MODE) as [->|_].
  - unfold valid_modenum, DLO_MODE_DATA_NUM, DLO_INVALID_MODE in Hn. lia.
  - by rewrite IH.
Qed.

Lemma default_supported_valid : Forall valid_modenum default_supported.
Proof. by_evaluation. Qed.

Lemma first_match_seq (w h r bpp : Z) (n : nat) :
  forall a : nat,
    (first_match (map Z.of_nat (seq a n)) w h r bpp = DLO_INVALID_MODE
     /\ forall j : nat, (a <= j < a + n)%nat ->
                        entry_matches (Z.of_nat j) w h r bpp = false)
    \/ (exists k : nat,
           first_match (map Z.of_nat (seq a n)) w h r bpp = Z.of_nat k
           /\ (a <= k < a + n)%nat
           /\ entry_matches (Z.of_nat k) w h r bpp = true
           /\ forall j : nat, (a <= j < k)%nat ->
                              entry_matches (Z.of_nat j) w h r bpp = false).
Proof.
  induction n as [|n IH]; intros a; cbn [seq map first_match].
  - left. split; [reflexivity|]. intros j Hj. lia.
  - assert (Hstep : entry_matches (Z.of_nat a) w h r bpp = false ->
              forall j b : nat, (a <= j < b)%nat ->
                (forall j : nat, (S a <= j < b)%nat ->
                   entry_matches (Z.of_nat j) w h r bpp = false) ->
                entry_matches (Z.of_nat j) w h r bpp = false).
    { intros Ha j b Hj Hrest. destruct (decide (j = a)) as [->|Hne];
        [assumption|apply Hrest; lia]. }
    assert (Hat : forall e,
              array_get dlo_mode_data (Z.of_nat a) = Some e ->
              entry_matches (Z.of_nat a) w h r bpp = mode_matches e w h r bpp)
      by (intros e He; unfold entry_matches; by rewrite He).
    assert (Hnot : array_get dlo_mode_data (Z.of_nat a) = None ->
              entry_matches (Z.of_nat a) w h r bpp = false)
      by (intros He; unfold entry_matches; by rewrite He).
    destruct (array_get dlo_mode_data (Z.of_nat a)) as [e|] eqn:He.
    + destruct (mode_matches e w h r bpp) eqn:Hm.
      * right. exists a. split; [reflexivity|]. split; [lia|].
        split; [by rewrite (Hat e)|]. intros j Hj. lia.
      * destruct (IH (S a)) as [[Hres Hnone]|(k & Hres & Hk & Hmk & Hnone)].
        -- left. split; [assumption|]. intros j Hj.
           apply (Hstep (eq_trans (Hat e eq_refl) Hm) j (a + S n)%nat); [lia|].
           intros j' Hj'. apply Hnone. lia.
        -- right. exists k. split; [assumption|]. split; [lia|].
           split; [assumption|]. intros j Hj.
           apply (Hstep (eq_trans (Hat e eq_refl) Hm) j k); [lia|]. assumption.
    + destruct (IH (S a)) as [[Hres Hnone]|(k & Hres & Hk & Hmk & Hnone)].
      * left. split; [assumption|]. intros j Hj.
        apply (Hstep (Hnot eq_refl) j (a + S n)%nat); [lia|].
        intros j' Hj'. apply Hnone. lia.
      * right. exists k. split; [assumption|]. split; [lia|].
        split; [assumption|]. intros j Hj.
        apply (Hstep (Hnot eq_refl) j k); [lia|]. assumption.
Qed.

Lemma cat_hit_entry (w h r : Z) :
  cat_hit w h r = true <-> exists n, entry_matches n w h r 24 = true.
Proof.
  unfold cat_hit, entry_matches. rewrite existsb_exists. split.
  - intros (e & Hin & Hm). apply list_elem_of_In in Hin.
    apply list_elem_of_lookup_1 in Hin as [i Hi].
    exists (Z.of_nat i). unfold array_get.
    destruct (Z.ltb_spec (Z.of_nat i) 0); [lia|].
    by rewrite Nat2Z.id, Hi.
  - intros (n & Hn).
    destruct (array_get dlo_mode_data n) as [e|] eqn:He; [|discriminate].
    exists e. split; [|assumption].
    unfold array_get in He. destruct (n <? 0); [discriminate|].
    apply list_elem_of_In. by eapply list_elem_of_lookup_2.
Qed.

Lemma entries_4_5_alike (w h r bpp : Z) :
  entry_matches 5 w h r bpp = entry_matches 4 w h r bpp.
Proof. reflexivity. Qed.

(** X3. After [use_default_modes] the lookup searches the whole
    catalogue: for a request at 24 bpp it returns the sentinel exactly
    when the catalogue has no matching entry, and otherwise the lowest
    catalogue index that matches.  Entries 4 and 5 of the catalogue are
    both 1400x1050 at 60 Hz, so the index 5 is never returned. *)
Theorem default_lookup_lowest (dev : dlo_device_t) (w h r : Z) :
  length (Dev.supported dev) = Z.to_nat DLO_MODE_DATA_NUM ->
  exists num,
    dlo_mode_lookup (use_default_modes dev) w h r 24 = Some num
    /\ ((num = DLO_INVALID_MODE /\ cat_hit w h r = false)
        \/ (valid_modenum num
            /\ cat_hit w h r = true
            /\ entry_matches num w h r 24 = true
            /\ forall j, 0 <= j < num -> entry_matches j w h r 24 = false))
    /\ num <> 5.
Proof.
  intros Hlen.
  rewrite dlo_mode_lookup_first_match;
    rewrite ?use_default_modes_supported by assumption;
    rewrite ?(before_sentinel_valid _ default_supported_valid);
    [|reflexivity|apply default_supported_valid].
  cbn [Z.eqb Pos.eqb]. eexists. split; [reflexivity|].
  unfold default_supported.
  destruct (first_match_seq w h r 24 (Z.to_nat DLO_MODE_DATA_NUM) 0)
    as [[Hres Hnone]|(k & Hres & Hk & Hmk & Hnone)]; rewrite Hres.
  - split; [|unfold DLO_INVALID_MODE; lia].
    left. split; [reflexivity|].
    destruct (cat_hit w h r) eqn:Hc; [|reflexivity].
    apply cat_hit_entry in Hc as (n & Hn).
    unfold entry_matches in Hn.
    destruct (array_get dlo_mode_data n) as [e|] eqn:He; [|discriminate].
    pose proof (array_get_Some_valid _ _ He) as [Hlo Hhi].
    specialize (Hnone (Z.to_nat n)).
    rewrite Z2Nat.id in Hnone by assumption.
    unfold entry_matches in Hnone. rewrite He in Hnone.
    rewrite Hnone in Hn; [discriminate|].
    unfold DLO_MODE_DATA_NUM in *. lia.
  - split.
    + right. split; [unfold valid_modenum, DLO_MODE_DATA_NUM in *; lia|].
      split; [apply cat_hit_entry; eauto|]. split; [assumption|].
      intros j Hj. specialize (Hnone (Z.to_nat j)).
      rewrite Z2Nat.id in Hnone by lia. apply Hnone. lia.
    + intros H5. assert (k = 5%nat) as -> by lia.
      assert (H4 : entry_matches (Z.of_nat 4) w h r 24 = false)
        by (apply Hnone; lia).
      change (Z.of_nat 5) with 5 in Hmk. change (Z.of_nat 4) with 4 in H4.
      rewrite entries_4_5_alike in Hmk. congruence.
Qed.

(** ** More on the build of the supported list *)

(** A property that every step of a loop keeps holds when the loop has
    run. *)
Lemma for_each_preserves {A S : Type} (body : S -> A -> option S)
    (Q : S -> Prop) :
  (forall s a s', Q s -> body s a = Some s' -> Q s') ->
  forall (l : list A) (s s' : S),
    Q s -> for_each body s l = Some s' -> Q s'.
Proof.
  intros Hstep. induction l as [|a l IH]; intros s s' HQ Hrun;
    cbn [for_each] in Hrun.
  - by injection Hrun as <-.
  - destruct (body s a) as [s1|] eqn:Hb; [|discriminate].
    cbn [mbind option_bind] in Hrun. eapply IH; [|exact Hrun].
    by eapply Hstep.
Qed.

Lemma get_mode_number_from_elem (s : list Z) (w h r bpp : Z) (num : Z) :
  forall n idx : nat,
    get_mode_number_from s w h r bpp n idx = Some num ->
    num = DLO_INVALID_MODE \/ num ∈ s.
Proof.
  induction n as [|n IH]; intros idx; cbn [get_mode_number_from].
  - intros [= <-]. by left.
  - destruct (s !! idx) as [k|] eqn:Hk; [|discriminate].
    cbn [mbind option_bind].
    destruct (k =? DLO_INVALID_MODE); [intros [= <-]; by left|].
    destruct (array_get dlo_mode_data k) as [e|]; [|discriminate].
    cbn [mbind option_bind]. rewrite match_chain.
    destruct (mode_matches e w h r bpp); [|apply IH].
    intros [= <-]. right. by eapply list_elem_of_lookup_2.
Qed.

(** What one call of [add_supported] can do to the device: nothing, or
    one store of an element of the array at index [idx]. *)
Lemma add_supported_effect (dev dev' : dlo_device_t) (idx idx' : nat)
    (w h r : Z) :
  add_supported dev idx w h r = Some (dev', idx') ->
  (dev' = dev /\ idx' = idx)
  \/ (exists num,
         num ∈ Dev.supported dev
         /\ dev' = Dev.set_supported dev (<[idx := num]> (Dev.supported dev))
         /\ idx' = S idx).
Proof.
  unfold add_supported, get_mode_number.
  destruct (get_mode_number_from _ _ _ _ _ _ _) as [num|] eqn:Hget;
    [|discriminate].
  cbn [mbind option_bind].
  destruct (Z.eqb_spec num DLO_INVALID_MODE) as [->|Hne]; cbn [negb].
  - intros [= <- <-]. by left.
  - destruct (_ <? _); [|discriminate]. intros [= <- <-]. right.
    exists num. split; [|by split].
    apply get_mode_number_from_elem in Hget as [?|?]; [contradiction|assumption].
Qed.

Lemma add_supported_kept (dev0 dev dev' : dlo_device_t) (idx idx' : nat)
    (w h r : Z) :
  build_kept dev0 (dev, idx) ->
  add_supported dev idx w h r = Some (dev', idx') ->
  build_kept dev0 (dev', idx').
Proof.
  intros (Hsame & Hdrawn & Htail) Hadd. cbn [fst snd] in *.
  apply add_supported_effect in Hadd
    as [[-> ->]|(num & Hnum & -> & ->)];
    [split; [assumption|split; assumption]|].
  unfold build_kept, same_but_modes, drawn_from, tail_kept, Dev.set_supported
    in *. cbn [fst snd Dev.buffer Dev.bufptr Dev.cnct Dev.mode Dev.base8
               Dev.low_blank Dev.supported] in *.
  split; [rewrite length_insert; tauto|]. split.
  - apply Forall_insert; [assumption|].
    eapply Forall_forall in Hdrawn; [exact Hdrawn|exact Hnum].
  - intros j Hj. rewrite list_lookup_insert_ne by lia. apply Htail. lia.
Qed.

Lemma set_native_kept (dev0 dev : dlo_device_t) (idx : nat) (m : dlo_mode_t) :
  build_kept dev0 (dev, idx) -> build_kept dev0 (Dev.set_native dev m, idx).
Proof. intros H. exact H. Qed.

Lemma est_body_kept (dev0 : dlo_device_t) (timings : Z)
    (st st' : dlo_device_t * nat) (e : est_timing_t) :
  build_kept dev0 st -> est_body timings st e = Some st' -> build_kept dev0 st'.
Proof.
  destruct st as [dev idx], st' as [dev' idx']. unfold est_body.
  destruct (negb _); [apply add_supported_kept|].
  intros H [= <- <-]. exact H.
Qed.

Lemma hz_body_kept (dev0 : dlo_device_t) (detail : edid_detail_t)
    (st st' : dlo_device_t * nat) (hz : Z) :
  build_kept dev0 st -> hz_body detail st hz = Some st' -> build_kept dev0 st'.
Proof.
  destruct st as [dev idx], st' as [dev' idx']. unfold hz_body.
  intros Hk Hrun.
  destruct (add_supported dev idx _ _ hz) as [[d1 i1]|] eqn:Hadd;
    [|discriminate].
  cbn [mbind option_bind] in Hrun.
  pose proof (add_supported_kept _ _ _ _ _ _ _ _ Hk Hadd) as Hk1.
  destruct (negb _).
  - destruct (Dev.supported d1 !! idx) as [num|]; [|discriminate].
    cbn [mbind option_bind] in Hrun.
    destruct (array_get dlo_mode_data num) as [m|]; [|discriminate].
    cbn [mbind option_bind] in Hrun. injection Hrun as <- <-.
    by apply set_native_kept.
  - by injection Hrun as <- <-.
Qed.

Lemma detail_body_kept (dev0 : dlo_device_t) (st st' : dlo_device_t * nat)
    (d : edid_timing_desc_t) :
  build_kept dev0 st -> detail_body st d = Some st' -> build_kept dev0 st'.
Proof.
  destruct d as [detail|]; cbn [detail_body].
  - apply for_each_preserves. intros s a s'. apply hz_body_kept.
  - by intros H [= <-].
Qed.

Lemma fill_stage_same (dev : dlo_device_t) (idx : nat) :
  same_but_modes dev (fill_stage dev idx).
Proof.
  unfold same_but_modes, fill_stage, Dev.set_supported.
  cbn [Dev.buffer Dev.bufptr Dev.cnct Dev.mode Dev.base8 Dev.low_blank
       Dev.supported].
  rewrite (foldl_insert_length (fun _ => DLO_INVALID_MODE)). by repeat split.
Qed.

Lemma fill_stage_drawn (s0 : list Z) (dev : dlo_device_t) (idx : nat) :
  drawn_from s0 dev -> drawn_from s0 (fill_stage dev idx).
Proof.
  unfold drawn_from, fill_stage, Dev.set_supported. cbn [Dev.supported].
  generalize (Dev.supported dev).
  induction (seq idx _) as [|i l IH]; intros s Hs; cbn [foldl]; [assumption|].
  apply IH. apply Forall_insert; [assumption|by left].
Qed.

(** The three stages of [lookup_edid_modes] when it has run, with what
    they keep of the device it started from. *)
Lemma lookup_edid_modes_kept (dev dev' : dlo_device_t) (edid : edid_format_t)
    (rc : dlo_retcode_t) :
  lookup_edid_modes dev edid = Some (rc, dev') ->
  exists dev2 i2,
    rc = dlo_ok /\ dev' = fill_stage dev2 i2 /\ build_kept dev (dev2, i2).
Proof.
  unfold lookup_edid_modes, est_stage, detail_stage. intros Hrun.
  destruct (for_each (est_body _) _ est_timings) as [[dev1 i1]|] eqn:Hest;
    [|discriminate].
  cbn [mbind option_bind] in Hrun.
  destruct (for_each detail_body _ _) as [[dev2 i2]|] eqn:Hdet;
    [|discriminate].
  cbn [mbind option_bind] in Hrun. injection Hrun as <- <-.
  exists dev2, i2. split; [reflexivity|]. split; [reflexivity|].
  eapply (for_each_preserves detail_body (build_kept dev));
    [intros s a s'; apply detail_body_kept| |exact Hdet].
  eapply (for_each_preserves (est_body _) (build_kept dev));
    [intros s a s'; apply est_body_kept| |exact Hest].
  split; [by repeat split|]. split; [|by intros j _].
  unfold drawn_from. cbn [fst Dev.set_native Dev.supported].
  apply Forall_forall. intros n Hn. by right.
Qed.

(** X4. Parsing an EDID only restricts the supported list: whenever
    [dlo_mode_parse_edid] returns, every element of the new supported
    array is the sentinel or was an element of the array before the call.
    No mode is added that the device did not list before. *)
Theorem parse_edid_adds_no_mode (dev dev' : dlo_device_t) (ptr : list byte)
    (rc : dlo_retcode_t) :
  dlo_mode_parse_edid dev ptr = Some (rc, dev') ->
  forall n, n ∈ Dev.supported dev' ->
            n = DLO_INVALID_MODE \/ n ∈ Dev.supported dev.
Proof.
  unfold dlo_mode_parse_edid. intros Hrun n Hn.
  destruct (memcmp _ _ _); [injection Hrun as <- <-; by right|].
  destruct (bad_edid_checksum ptr); [injection Hrun as <- <-; by right|].
  apply lookup_edid_modes_kept in Hrun
    as (dev2 & i2 & _ & -> & _ & Hdrawn & _).
  apply (fill_stage_drawn _ _ i2) in Hdrawn.
  eapply Forall_forall in Hdrawn; [exact Hdrawn|exact Hn].
Qed.

(** X5. Parsing an EDID writes only the supported array and the native
    mode: whenever [dlo_mode_parse_edid] returns, the command buffer and
    its cursor, the transport's state, the current mode, [base8],
    [low_blank] and the length of the supported array are as before; and
    when it returns an error the whole device is as before. *)
Theorem parse_edid_keeps_device (dev dev' : dlo_device_t) (ptr : list byte)
    (rc : dlo_retcode_t) :
  dlo_mode_parse_edid dev ptr = Some (rc, dev') ->
  same_but_modes dev dev'
  /\ (rc = dlo_ok \/ rc = dlo_err_edid_fail)
  /\ (rc <> dlo_ok -> dev' = dev).
Proof.
  unfold dlo_mode_parse_edid. intros Hrun.
  destruct (memcmp _ _ _);
    [injection Hrun as <- <-; split; [by repeat split|split; [by right|done]]|].
  destruct (bad_edid_checksum ptr);
    [injection Hrun as <- <-; split; [by repeat split|split; [by right|done]]|].
  apply lookup_edid_modes_kept in Hrun
    as (dev2 & i2 & -> & -> & Hsame & _ & _).
  cbn [fst] in Hsame. pose proof (fill_stage_same dev2 i2) as Hfill.
  split; [|split; [by left|done]].
  unfold same_but_modes in *. intuition congruence.
Qed.

Lemma est_stage_kept (dev0 d dev1 : dlo_device_t) (edid : edid_format_t)
    (i i1 : nat) :
  build_kept dev0 (d, i) -> est_stage d edid i = Some (dev1, i1) ->
  build_kept dev0 (dev1, i1).
Proof.
  unfold est_stage.
  apply (for_each_preserves (est_body _) (build_kept dev0)).
  intros s a s'. apply est_body_kept.
Qed.

Lemma detail_stage_kept (dev0 d dev2 : dlo_device_t) (edid : edid_format_t)
    (i i2 : nat) :
  build_kept dev0 (d, i) -> detail_stage d edid i = Some (dev2, i2) ->
  build_kept dev0 (dev2, i2).
Proof.
  unfold detail_stage.
  apply (for_each_preserves detail_body (build_kept dev0)).
  intros s a s'. apply detail_body_kept.
Qed.

(** X6. A build keeps at most 31 modes and never writes the last element
    of the array: after [dlo_mode_parse_edid] has succeeded on a device
    whose supported array holds catalogue indices and sentinels only, the
    elements 31, 32 and 33 of the array are sentinels, and element 34 has
    the value it had before the call. *)
Theorem parse_edid_keeps_last (dev dev' : dlo_device_t) (ptr : list byte) :
  supported_ok (Dev.supported dev) ->
  dlo_mode_parse_edid dev ptr = Some (dlo_ok, dev') ->
  Dev.supported dev' !! 31%nat = Some DLO_INVALID_MODE
  /\ Dev.supported dev' !! 32%nat = Some DLO_INVALID_MODE
  /\ Dev.supported dev' !! 33%nat = Some DLO_INVALID_MODE
  /\ Dev.supported dev' !! 34%nat = Dev.supported dev !! 34%nat.
Proof.
  intros Hok. unfold dlo_mode_parse_edid.
  destruct (memcmp _ _ _); [discriminate|].
  destruct (bad_edid_checksum ptr); [discriminate|].
  destruct (lookup_edid_modes_stages dev (parse_edid_format ptr) Hok)
    as (dev1 & i1 & dev2 & i2 & Hest & Hdet & Hrun & Hpre & _ & Hi2);
    [by rewrite parse_edid_format_timings|].
  rewrite Hrun. intros [= <-].
  assert (Hkept : build_kept dev (dev2, i2)).
  { eapply detail_stage_kept; [|exact Hdet].
    eapply est_stage_kept; [|exact Hest].
    split; [by repeat split|]. split; [|by intros j _].
    apply Forall_forall. intros n Hn. by right. }
  destruct Hkept as (_ & _ & Htail). destruct Hpre as [[Hlen _] _].
  cbn [fst snd] in *.
  change (Z.to_nat DLO_MODE_DATA_NUM) with 35%nat in Hlen.
  rewrite !fill_stage_lookup.
  split; [rewrite bool_decide_eq_true_2; [reflexivity|lia]|].
  split; [rewrite bool_decide_eq_true_2; [reflexivity|lia]|].
  split; [rewrite bool_decide_eq_true_2; [reflexivity|lia]|].
  rewrite bool_decide_eq_false_2; [|lia]. apply Htail. cbn [snd]. lia.
Qed.

Lemma add_supported_native (dev dev' : dlo_device_t) (idx idx' : nat)
    (w h r : Z) :
  add_supported dev idx w h r = Some (dev', idx') ->
  Dev.native dev' = Dev.native dev.
Proof.
  intros H. apply add_supported_effect in H
    as [[-> _]|(num & _ & -> & _)]; reflexivity.
Qed.

Lemma est_stage_native (d dev1 : dlo_device_t) (edid : edid_format_t)
    (i i1 : nat) :
  est_stage d edid i = Some (dev1, i1) -> Dev.native dev1 = Dev.native d.
Proof.
  unfold est_stage. intros H.
  apply (for_each_preserves (est_body _)
           (fun st => Dev.native (fst st) = Dev.native d)) in H;
    [exact H| |reflexivity].
  intros [dev idx] e [dev' idx'] Hn. unfold est_body. cbn [fst] in *.
  destruct (negb _).
  - intros Hadd. apply add_supported_native in Hadd. congruence.
  - intros [= <- <-]. assumption.
Qed.

Lemma detail_stage_no_detail (l : list edid_timing_desc_t)
    (st : dlo_device_t * nat) :
  Forall (fun d => d = timing_desc) l -> for_each detail_body st l = Some st.
Proof.
  induction 1 as [|d l -> _ IH]; cbn [for_each detail_body]; [reflexivity|].
  cbn [mbind option_bind]. exact IH.
Qed.

Lemma RD_B_drop (ptr : list byte) (k off : nat) :
  RD_B (drop k ptr) off = RD_B ptr (k + off).
Proof. unfold RD_B. by rewrite nth_skipn. Qed.

Lemma parse_monitor_desc (ptr : list byte) (k : nat) :
  RD_B ptr k = 0 -> RD_B ptr (k + 1) = 0 -> RD_B ptr (k + 2) = 0 ->
  parse_edid_detail_desc (drop k ptr) = timing_desc.
Proof.
  intros H0 H1 H2. unfold parse_edid_detail_desc.
  rewrite !RD_B_drop, Nat.add_0_r, H0, H1, H2. reflexivity.
Qed.

(** X7. An EDID without a detailed timing clears the native mode: when
    the first three bytes of each of the four descriptors (at 0x36, 0x48,
    0x5A and 0x6C) are zero and [dlo_mode_parse_edid] succeeds,
    [dev->native] is all zero, whatever it was before. *)
Theorem parse_edid_no_detail (dev dev' : dlo_device_t) (ptr : list byte) :
  (forall i : nat,
      (i < 4)%nat ->
      RD_B ptr (0x36 + i * 0x12) = 0
      /\ RD_B ptr (0x36 + i * 0x12 + 1) = 0
      /\ RD_B ptr (0x36 + i * 0x12 + 2) = 0) ->
  dlo_mode_parse_edid dev ptr = Some (dlo_ok, dev') ->
  Dev.native dev' = zero_mode.
Proof.
  intros Hdesc. unfold dlo_mode_parse_edid.
  destruct (memcmp _ _ _); [discriminate|].
  destruct (bad_edid_checksum ptr); [discriminate|].
  unfold lookup_edid_modes.
  destruct (est_stage _ _ 0) as [[dev1 i1]|] eqn:Hest; [|discriminate].
  cbn [mbind option_bind]. unfold detail_stage.
  rewrite detail_stage_no_detail.
  - cbn [mbind option_bind]. intros [= <-].
    rewrite fill_stage_native. by apply est_stage_native in Hest.
  - assert (Hd : forall i : nat,
              (i < 4)%nat ->
              parse_edid_detail_desc (drop (0x36 + i * 0x12) ptr)
              = timing_desc).
    { intros i Hi. destruct (Hdesc i Hi) as (H0 & H1 & H2).
      by apply parse_monitor_desc. }
    unfold parse_edid_format. cbn [Edid.timings seq map].
    repeat constructor; apply Hd; lia.
Qed.

(** ** More on the EDID bytes *)

Lemma high_nibble_shift (b : byte) :
  Z.shiftl (Z.land (byte_val b) 0xF0) 4 = 256 * (byte_val b / 16).
Proof. destruct b; reflexivity. Qed.

Lemma geometry_fits (lo hi : byte) :
  u16 (u32 (byte_val lo + Z.shiftl (Z.land (byte_val hi) 0xF0) 4))
  = byte_val lo + 256 * (byte_val hi / 16)
  /\ 0 <= byte_val lo + 256 * (byte_val hi / 16) < 4096.
Proof.
  rewrite high_nibble_shift.
  pose proof (byte_val_range lo) as Hlo.
  pose proof (byte_val_range hi) as Hhi.
  assert (Hq : 0 <= byte_val hi / 16 < 16)
    by (split; [apply Z.div_pos; lia|apply Z.div_lt_upper_bound; lia]).
  split; [|lia].
  unfold u16, u32. rewrite (Z.mod_small _ 4294967296) by lia.
  apply Z.mod_small. lia.
Qed.

(** X8. A descriptor whose first three bytes are not all zero is parsed
    as a detailed timing, and the width and the height that the build
    looks up for it are the 12-bit values of the EDID layout: byte 2 plus
    256 times the high nibble of byte 4, and byte 5 plus 256 times the
    high nibble of byte 7; both are below 4096, so nothing is lost when
    they are passed as [uint16_t].  A descriptor whose first three bytes
    are zero is a monitor descriptor. *)
Theorem detail_geometry (ptr : list byte) :
  (RD_B ptr 0 = 0 /\ RD_B ptr 1 = 0 /\ RD_B ptr 2 = 0 ->
   parse_edid_detail_desc ptr = timing_desc)
  /\ (~ (RD_B ptr 0 = 0 /\ RD_B ptr 1 = 0 /\ RD_B ptr 2 = 0) ->
      exists detail,
        parse_edid_detail_desc ptr = timing_detail detail
        /\ detail_width detail = RD_B ptr 2 + 256 * (RD_B ptr 4 / 16)
        /\ detail_height detail = RD_B ptr 5 + 256 * (RD_B ptr 7 / 16)
        /\ 0 <= detail_width detail < 4096
        /\ 0 <= detail_height detail < 4096).
Proof.
  unfold parse_edid_detail_desc. split.
  - intros (-> & -> & ->). reflexivity.
  - intros Hnz.
    destruct (Z.eqb_spec (RD_B ptr 0) 0) as [H0|H0];
      destruct (Z.eqb_spec (RD_B ptr 1) 0) as [H1|H1];
      destruct (Z.eqb_spec (RD_B ptr 2) 0) as [H2|H2];
      try tauto; cbn [negb orb]; eexists; (split; [reflexivity|]);
      unfold detail_width, detail_height, RD_B;
      cbn [Detail.hactl Detail.hactblankh Detail.vactl Detail.vactblankh];
      pose proof (geometry_fits (nth 2 ptr x00) (nth 4 ptr x00)) as [Hw Hwr];
      pose proof (geometry_fits (nth 5 ptr x00) (nth 7 ptr x00)) as [Hh Hhr];
      rewrite Hw, Hh; tauto.
Qed.

Lemma byte_sum_app (a b : list byte) :
  byte_sum (a ++ b) = byte_sum a + byte_sum b.
Proof.
  unfold byte_sum. induction a as [|x a IH]; cbn [app foldr]; [lia|].
  rewrite IH. lia.
Qed.

(** X9. The checksum fixes the last byte of a block: for any bytes
    [block] followed by one byte [c], [bad_edid_checksum] accepts the
    block exactly when [c] is the negated sum of the other bytes modulo
    256. *)
Theorem checksum_last_byte (block : list byte) (c : byte) :
  bad_edid_checksum (block ++ [c]) = false
  <-> byte_val c = (- byte_sum block) mod 256.
Proof.
  rewrite bad_edid_checksum_sum, byte_sum_app.
  unfold byte_sum at 2. cbn [foldr]. rewrite Z.add_0_r.
  pose proof (byte_val_range c) as Hc.
  rewrite negb_false_iff, Z.eqb_eq.
  generalize (byte_sum block) (byte_val c) Hc. clear. intros s v Hv.
  split; intros H; Z.div_mod_to_equations; lia.
Qed.

(** ** More on staging *)

Lemma vbuf_copy_app (a b : list byte) :
  forall dev : dlo_device_t,
    vbuf_copy dev (a ++ b) = dev' ← vbuf_copy dev a; vbuf_copy dev' b.
Proof.
  induction a as [|x a IH]; intros dev; cbn [app vbuf_copy]; [reflexivity|].
  destruct (poke dev x) as [d|]; cbn [mbind option_bind]; [apply IH|reflexivity].
Qed.

Lemma stage_bytes_cursor (dev : dlo_device_t) (buf : list byte) :
  0 <= Dev.bufptr dev ->
  Dev.bufptr dev + Z.of_nat (length buf) <= Dev.bufend dev ->
  Dev.bufptr (stage_bytes dev buf) = Dev.bufptr dev + Z.of_nat (length buf)
  /\ Dev.bufend (stage_bytes dev buf) = Dev.bufend dev
  /\ staged (stage_bytes dev buf) = staged dev ++ buf
  /\ same_but_buffer dev (stage_bytes dev buf).
Proof.
  intros Hlo Hhi.
  destruct (staged_after_copy dev buf Hlo Hhi) as (H1 & H2 & _ & H4 & H5).
  by repeat split.
Qed.

Lemma stage_bytes_app (dev : dlo_device_t) (a b : list byte) :
  0 <= Dev.bufptr dev ->
  Dev.bufptr dev + Z.of_nat (length a) + Z.of_nat (length b)
  <= Dev.bufend dev ->
  stage_bytes (stage_bytes dev a) b = stage_bytes dev (a ++ b).
Proof.
  intros Hlo Hhi.
  destruct (stage_bytes_cursor dev a) as (Hp & He & _); [lia|lia|].
  assert (H1 : vbuf_copy dev (a ++ b) = Some (stage_bytes dev (a ++ b)))
    by (apply vbuf_copy_in_range; rewrite ?length_app; lia).
  assert (H2 : vbuf_copy dev a = Some (stage_bytes dev a))
    by (apply vbuf_copy_in_range; lia).
  assert (H3 : vbuf_copy (stage_bytes dev a) b
               = Some (stage_bytes (stage_bytes dev a) b))
    by (apply vbuf_copy_in_range; lia).
  rewrite vbuf_copy_app, H2 in H1. cbn [mbind option_bind] in H1.
  congruence.
Qed.

Lemma vbuf_stage (dev : dlo_device_t) (buf : list byte) :
  buffer_ok dev ->
  Z.of_nat (length buf) <= Dev.bufend dev - Dev.bufptr dev ->
  vbuf dev buf = Some (dlo_ok, stage_bytes dev buf).
Proof.
  intros [[Hlo Hhi] Hsz] Hfree. unfold vbuf, to_size_t.
  rewrite Z.mod_small by lia.
  destruct (Z.ltb_spec (Dev.bufend dev - Dev.bufptr dev)
                       (Z.of_nat (length buf))); [lia|].
  by rewrite vbuf_copy_in_range by lia.
Qed.

Lemma vbuf_full (dev : dlo_device_t) (buf : list byte) :
  buffer_ok dev ->
  Dev.bufend dev - Dev.bufptr dev < Z.of_nat (length buf) ->
  vbuf dev buf = Some (dlo_err_buf_full, dev).
Proof.
  intros [[Hlo Hhi] Hsz] Hfree. unfold vbuf, to_size_t.
  rewrite Z.mod_small by lia.
  destruct (Z.ltb_spec (Dev.bufend dev - Dev.bufptr dev)
                       (Z.of_nat (length buf))); [reflexivity|lia].
Qed.

Lemma vreg_stage (dev : dlo_device_t) (reg val : byte) :
  0 <= Dev.bufptr dev ->
  4 <= Dev.bufend dev - Dev.bufptr dev ->
  vreg dev reg val = Some (dlo_ok, stage_bytes dev [xaf; x20; reg; val]).
Proof.
  intros Hlo Hfree. rewrite vreg_vbuf_copy.
  destruct (Z.ltb_spec (Dev.bufend dev - Dev.bufptr dev) 4); [lia|].
  by rewrite vbuf_copy_in_range by (cbn [length]; lia).
Qed.

Lemma vreg_full (dev : dlo_device_t) (reg val : byte) :
  Dev.bufend dev - Dev.bufptr dev < 4 ->
  vreg dev reg val = Some (dlo_err_buf_full, dev).
Proof.
  intros Hfree. unfold vreg.
  destruct (Z.ltb_spec (Dev.bufend dev - Dev.bufptr dev) 4);
    [reflexivity|lia].
Qed.

Lemma stage_bytes_ok (dev : dlo_device_t) (buf : list byte) :
  buffer_ok dev ->
  Z.of_nat (length buf) <= Dev.bufend dev - Dev.bufptr dev ->
  buffer_ok (stage_bytes dev buf).
Proof.
  intros [[Hlo Hhi] Hsz] Hfree.
  destruct (stage_bytes_cursor dev buf) as (Hp & He & _); [lia|lia|].
  unfold buffer_ok. rewrite Hp, He. lia.
Qed.

(** X10. Staging composes: on a device whose cursors are in order, a
    register write is the staging of its four bytes, and staging [a] and
    then [b] is the staging of [a ++ b] whenever both fit; when [a] fits
    and [a ++ b] does not, staging them in turn leaves [a] staged and
    returns [dlo_err_buf_full], while staging [a ++ b] at once leaves
    nothing staged. *)
Theorem staging_composes (dev : dlo_device_t) (a b : list byte)
    (reg val : byte) :
  buffer_ok dev ->
  vreg dev reg val = vbuf dev [xaf; x20; reg; val]
  /\ (Z.of_nat (length a) + Z.of_nat (length b)
      <= Dev.bufend dev - Dev.bufptr dev ->
      ERR (vbuf dev a) (fun dev' => vbuf dev' b) = vbuf dev (a ++ b)
      /\ vbuf dev (a ++ b) = Some (dlo_ok, stage_bytes dev (a ++ b)))
  /\ (Z.of_nat (length a) <= Dev.bufend dev - Dev.bufptr dev
      < Z.of_nat (length a) + Z.of_nat (length b) ->
      ERR (vbuf dev a) (fun dev' => vbuf dev' b)
      = Some (dlo_err_buf_full, stage_bytes dev a)
      /\ vbuf dev (a ++ b) = Some (dlo_err_buf_full, dev)).
Proof.
  intros Hok. pose proof Hok as [[Hlo Hhi] Hsz].
  split; [|split].
  - destruct (Z.lt_ge_cases (Dev.bufend dev - Dev.bufptr dev) 4).
    + rewrite vreg_full, vbuf_full; [reflexivity|assumption|cbn; lia|lia].
    + rewrite vreg_stage, vbuf_stage; [reflexivity|assumption|cbn; lia|lia|lia].
  - intros Hfit.
    destruct (stage_bytes_cursor dev a) as (Hp & He & _); [lia|lia|].
    rewrite (vbuf_stage dev a), (vbuf_stage dev (a ++ b));
      rewrite ?length_app; try assumption; try lia.
    cbn [ERR is_ok]. rewrite vbuf_stage.
    + split; [|reflexivity]. rewrite stage_bytes_app by lia. reflexivity.
    + apply stage_bytes_ok; [assumption|lia].
    + rewrite Hp, He. lia.
  - intros Hfit.
    destruct (stage_bytes_cursor dev a) as (Hp & He & _); [lia|lia|].
    rewrite (vbuf_stage dev a), (vbuf_full dev (a ++ b));
      rewrite ?length_app; try assumption; try lia.
    cbn [ERR is_ok]. rewrite vbuf_full.
    + by split.
    + apply stage_bytes_ok; [assumption|lia].
    + rewrite Hp, He. lia.
Qed.

Lemma stage_bytes_nil (dev : dlo_device_t) :
  0 <= Dev.bufptr dev <= Dev.bufend dev -> stage_bytes dev [] = dev.
Proof.
  intros H. unfold stage_bytes, buffer_with, Dev.set_buffer.
  cbn [length app]. rewrite Nat.add_0_r, take_drop, Z.add_0_r.
  by destruct dev.
Qed.

Lemma vreg_after (dev : dlo_device_t) (pre : list byte) (reg val : byte) :
  buffer_ok dev ->
  Z.of_nat (length pre) + 4 <= Dev.bufend dev - Dev.bufptr dev ->
  vreg (stage_bytes dev pre) reg val
  = Some (dlo_ok, stage_bytes dev (pre ++ [xaf; x20; reg; val])).
Proof.
  intros [[Hlo Hhi] Hsz] Hfree.
  destruct (stage_bytes_cursor dev pre) as (Hp & He & _); [lia|lia|].
  rewrite vreg_stage by (rewrite ?Hp, ?He; lia).
  rewrite stage_bytes_app by (cbn [length]; lia). reflexivity.
Qed.

Lemma vreg_after_full (dev : dlo_device_t) (pre : list byte) (reg val : byte) :
  buffer_ok dev ->
  Z.of_nat (length pre) <= Dev.bufend dev - Dev.bufptr dev
  < Z.of_nat (length pre) + 4 ->
  vreg (stage_bytes dev pre) reg val
  = Some (dlo_err_buf_full, stage_bytes dev pre).
Proof.
  intros [[Hlo Hhi] Hsz] Hfree.
  destruct (stage_bytes_cursor dev pre) as (Hp & He & _); [lia|lia|].
  apply vreg_full. rewrite Hp, He. lia.
Qed.

Lemma vbuf_after (dev : dlo_device_t) (pre buf : list byte) :
  buffer_ok dev ->
  Z.of_nat (length pre) + Z.of_nat (length buf)
  <= Dev.bufend dev - Dev.bufptr dev ->
  vbuf (stage_bytes dev pre) buf
  = Some (dlo_ok, stage_bytes dev (pre ++ buf)).
Proof.
  intros Hok Hfree. pose proof Hok as [[Hlo Hhi] Hsz].
  destruct (stage_bytes_cursor dev pre) as (Hp & He & _); [lia|lia|].
  rewrite vbuf_stage.
  - rewrite stage_bytes_app by lia. reflexivity.
  - apply stage_bytes_ok; [assumption|lia].
  - rewrite Hp, He. lia.
Qed.

Lemma vbuf_after_full (dev : dlo_device_t) (pre buf : list byte) :
  buffer_ok dev ->
  Z.of_nat (length pre) <= Dev.bufend dev - Dev.bufptr dev
  < Z.of_nat (length pre) + Z.of_nat (length buf) ->
  vbuf (stage_bytes dev pre) buf
  = Some (dlo_err_buf_full, stage_bytes dev pre).
Proof.
  intros Hok Hfree. pose proof Hok as [[Hlo Hhi] Hsz].
  destruct (stage_bytes_cursor dev pre) as (Hp & He & _); [lia|lia|].
  apply vbuf_full.
  - apply stage_bytes_ok; [assumption|lia].
  - rewrite Hp, He. lia.
Qed.

(** ** The base-address sequence *)

Section BaseSequence.

Variable usb_io : list usb_transfer -> usb_transfer -> dlo_retcode_t.

(** One statement [ERR(vreg(...))] or [ERR(vbuf(...))] of [set_base]
    that succeeds, and one that finds the buffer full. *)
Ltac stage_step Hok :=
  first
    [ rewrite (vreg_after _ _ _ _ Hok) by (cbn [length app]; lia)
    | rewrite (vbuf_after _ _ _ Hok) by (cbn [length app]; lia) ];
  cbn [ERR is_ok app].

Ltac stage_stop Hok :=
  first
    [ rewrite (vreg_after_full _ _ _ _ Hok) by (cbn [length app]; lia)
    | rewrite (vbuf_after_full _ _ _ Hok) by (cbn [length app]; lia) ];
  cbn [ERR is_ok app].

Lemma set_base_from_nil (dev : dlo_device_t) (base base8 : Z) :
  buffer_ok dev ->
  set_base usb_io dev base base8
  = set_base usb_io (stage_bytes dev []) base base8.
Proof. intros [H _]. by rewrite stage_bytes_nil. Qed.

(** The run of [set_base] when all of its commands fit. *)
Lemma set_base_flush (dev : dlo_device_t) (base base8 : Z) :
  buffer_ok dev ->
  34 <= Dev.bufend dev - Dev.bufptr dev ->
  exists dev',
    set_base usb_io dev base base8
    = Some (usb_io (Dev.cnct dev)
              (usb_bulk (staged dev ++ base_commands base base8)), dev')
    /\ Dev.cnct dev'
       = Dev.cnct dev ++ [usb_bulk (staged dev ++ base_commands base base8)]
    /\ Dev.bufptr dev' = 0
    /\ same_display dev dev'.
Proof.
  intros Hok Hfree. rewrite set_base_from_nil by assumption.
  unfold set_base, WRITE_VIDREG_LOCK, WRITE_VIDREG_UNLOCK.
  do 8 stage_step Hok.
  pose proof Hok as [[Hlo Hhi] _].
  destruct (stage_bytes_cursor dev (base_commands base base8))
    as (_ & _ & Hstaged & Hcnct & Hdisp);
    [lia
    |unfold base_commands, WRITE_VIDREG_LOCK, WRITE_VIDREG_UNLOCK;
     cbn [length app]; lia|].
  change ([xaf; x20; xff; x00; xaf; x20; x20; to_byte (Z.shiftr base 16);
           xaf; x20; x21; to_byte (Z.shiftr base 8);
           xaf; x20; x22; to_byte base;
           xaf; x20; x26; to_byte (Z.shiftr base8 16);
           xaf; x20; x27; to_byte (Z.shiftr base8 8);
           xaf; x20; x28; to_byte base8;
           xaf; x20; xff; xff; xaf; xa0])
    with (base_commands base base8).
  unfold dlo_usb_write, usb_send.
  cbn [Dev.set_buffer Dev.set_cnct Dev.cnct Dev.bufptr].
  rewrite Hstaged, Hcnct.
  destruct (usb_io _ _); cbn [ERR is_ok];
    (eexists; split; [reflexivity|]);
    cbn [Dev.cnct Dev.bufptr]; (split; [reflexivity|]);
    (split; [reflexivity|]); exact Hdisp.
Qed.

(** X11. When 34 bytes are free in the command buffer, [set_base] stages
    the lock command, the six register writes (0x20..0x22 with the bytes
    2, 1, 0 of [base], 0x26..0x28 with those of [base8]) and the unlock
    command after what was staged before, hands all of it to the
    transport as one bulk write, leaves the buffer empty and returns the
    transport's code. *)
Theorem set_base_bulk_write (dev : dlo_device_t) (base base8 : Z) :
  buffer_ok dev ->
  34 <= Dev.bufend dev - Dev.bufptr dev ->
  exists dev',
    set_base usb_io dev base base8
    = Some (usb_io (Dev.cnct dev)
              (usb_bulk (staged dev ++ base_commands base base8)), dev')
    /\ Dev.cnct dev'
       = Dev.cnct dev ++ [usb_bulk (staged dev ++ base_commands base base8)]
    /\ Dev.bufptr dev' = 0
    /\ same_display dev dev'.
Proof. exact (set_base_flush dev base base8). Qed.

(** X12. When fewer than 34 bytes are free, [set_base] returns
    [dlo_err_buf_full] and hands nothing to the transport, but it does
    not undo what it staged: the commands that fitted (whole commands of
    4 bytes, in order) stay in the buffer behind what was staged before,
    and the cursor stays advanced past them. *)
Theorem set_base_overflow (dev : dlo_device_t) (base base8 : Z) :
  buffer_ok dev ->
  Dev.bufend dev - Dev.bufptr dev < 34 ->
  exists dev',
    set_base usb_io dev base base8 = Some (dlo_err_buf_full, dev')
    /\ dev' = stage_bytes dev
                (take (base_staged (Dev.bufend dev - Dev.bufptr dev))
                      (base_commands base base8))
    /\ Dev.cnct dev' = Dev.cnct dev
    /\ staged dev'
       = staged dev
         ++ take (base_staged (Dev.bufend dev - Dev.bufptr dev))
                 (base_commands base base8)
    /\ Dev.bufptr dev'
       = Dev.bufptr dev
         + Z.of_nat (base_staged (Dev.bufend dev - Dev.bufptr dev)).
Proof.
  intros Hok Hfree. pose proof Hok as [[Hlo Hhi] _].
  set (free := Dev.bufend dev - Dev.bufptr dev) in *.
  assert (Hk : exists k : nat,
             (k <= 7)%nat
             /\ 4 * Z.of_nat k <= free
             /\ (free < 4 * Z.of_nat k + 4 \/ k = 7%nat)
             /\ base_staged free = (4 * k)%nat).
  { exists (Z.to_nat (Z.min (free / 4) 7)). unfold base_staged.
    assert (0 <= free / 4) by (apply Z.div_pos; lia).
    pose proof (Z.mul_div_le free 4 ltac:(lia)).
    pose proof (Z.mul_succ_div_gt free 4 ltac:(lia)).
    split; [lia|]. split; [lia|]. split; [lia|]. lia. }
  destruct Hk as (k & Hk7 & Hklo & Hkhi & Hstaged).
  assert (Hrun : set_base usb_io dev base base8
                 = Some (dlo_err_buf_full,
                         stage_bytes dev (take (4 * k) (base_commands base base8)))).
  { rewrite set_base_from_nil by assumption.
    unfold set_base, WRITE_VIDREG_LOCK, WRITE_VIDREG_UNLOCK. subst free.
    do 8 (destruct k as [|k]; [stage_stop Hok; reflexivity|stage_step Hok]).
    lia. }
  rewrite Hstaged.
  assert (Hlen : Z.of_nat (length (take (4 * k) (base_commands base base8)))
                 = Z.of_nat (4 * k)).
  { rewrite length_take.
    unfold base_commands, WRITE_VIDREG_LOCK, WRITE_VIDREG_UNLOCK.
    cbn [length app]. lia. }
  destruct (stage_bytes_cursor dev (take (4 * k) (base_commands base base8)))
    as (Hp & _ & Hst & Hcnct & _); [lia|lia|].
  eexists. split; [exact Hrun|]. split; [reflexivity|].
  split; [assumption|]. split; [assumption|]. rewrite Hp, Hlen. reflexivity.
Qed.

End BaseSequence.

(** ** More on the mode-select sequence *)

Lemma sends_only_refl (dev : dlo_device_t) : sends_only dev dev.
Proof.
  split; [apply same_display_refl|]. split; [|reflexivity].
  exists []. by rewrite app_nil_r.
Qed.

Lemma sends_only_trans (d1 d2 d3 : dlo_device_t) :
  sends_only d1 d2 -> sends_only d2 d3 -> sends_only d1 d3.
Proof.
  intros (Hd1 & [s1 Hs1] & He1) (Hd2 & [s2 Hs2] & He2).
  split; [by eapply same_display_trans|]. split; [|congruence].
  exists (s1 ++ s2). by rewrite Hs2, Hs1, app_assoc.
Qed.

Lemma poke_sends (dev dev' : dlo_device_t) (b : byte) :
  poke dev b = Some dev' -> sends_only dev dev'.
Proof.
  intros H. pose proof (poke_display _ _ _ H) as [Hc Hd].
  split; [assumption|]. split; [exists []; by rewrite app_nil_r|].
  unfold poke in H. destruct (_ && _); [|discriminate].
  injection H as <-. unfold Dev.bufend, Dev.set_buffer. cbn [Dev.buffer].
  by rewrite length_insert.
Qed.

Lemma vbuf_copy_sends (buf : list byte) :
  forall dev dev' : dlo_device_t,
    vbuf_copy dev buf = Some dev' -> sends_only dev dev'.
Proof.
  induction buf as [|b buf IH]; intros dev dev'; cbn [vbuf_copy].
  - intros [= <-]. apply sends_only_refl.
  - destruct (poke dev b) as [d|] eqn:Hp; [|discriminate].
    cbn [mbind option_bind]. intros H.
    eapply sends_only_trans; [by eapply poke_sends|by apply IH].
Qed.

Lemma vbuf_sends (dev dev' : dlo_device_t) (buf : list byte)
    (rc : dlo_retcode_t) :
  vbuf dev buf = Some (rc, dev') -> sends_only dev dev'.
Proof.
  unfold vbuf. destruct (_ <? _).
  - intros [= <- <-]. apply sends_only_refl.
  - destruct (vbuf_copy dev buf) as [d|] eqn:Hc; [|discriminate].
    cbn [mbind option_bind]. intros [= <- <-]. by eapply vbuf_copy_sends.
Qed.

Lemma vreg_sends (dev dev' : dlo_device_t) (reg val : byte)
    (rc : dlo_retcode_t) :
  vreg dev reg val = Some (rc, dev') -> sends_only dev dev'.
Proof.
  rewrite vreg_vbuf_copy. destruct (_ <? _).
  - intros [= <- <-]. apply sends_only_refl.
  - destruct (vbuf_copy dev _) as [d|] eqn:Hc; [|discriminate].
    cbn [mbind option_bind]. intros [= <- <-]. by eapply vbuf_copy_sends.
Qed.

Section ModeSelectFacts.

Variable usb_io : list usb_transfer -> usb_transfer -> dlo_retcode_t.
Variable blob_bytes : blob -> list byte.
Variable DLO_MODE_POSTAMBLE : list byte.
Variable DLO_DL120_MODES : Z.

Lemma usb_send_sends (dev dev' : dlo_device_t) (t : usb_transfer)
    (rc : dlo_retcode_t) :
  usb_send usb_io dev t = (rc, dev') -> sends_only dev dev'.
Proof.
  unfold usb_send. intros [= _ <-].
  split; [by repeat split|]. split; [by exists [t]|reflexivity].
Qed.

Lemma dlo_usb_write_sends (dev dev' : dlo_device_t) (rc : dlo_retcode_t) :
  dlo_usb_write usb_io dev = (rc, dev') -> sends_only dev dev'.
Proof.
  unfold dlo_usb_write. intros H. apply usb_send_sends in H.
  destruct H as (Hd & Hs & He). split; [exact Hd|]. split; [exact Hs|exact He].
Qed.

Ltac sends_chain :=
  repeat match goal with
    | H : ERR _ _ = Some _ |- _ =>
        apply ERR_Some in H as [[H ?]|[? [? H]]]
    | H : vbuf _ _ = Some _ |- _ => apply vbuf_sends in H
    | H : vreg _ _ _ = Some _ |- _ => apply vreg_sends in H
    | H : Some (dlo_usb_write _ _) = Some _ |- _ =>
        apply (inj Some) in H; apply dlo_usb_write_sends in H
    | H : Some (dlo_usb_write_buf _ _ _) = Some _ |- _ =>
        apply (inj Some) in H; apply usb_send_sends in H
    | H : Some (dlo_usb_chan_sel _ _ _) = Some _ |- _ =>
        apply (inj Some) in H; apply usb_send_sends in H
    | H : Some (_, _) = Some (_, _) |- _ => injection H as <- <-
    end.

Ltac sends_done :=
  first [ eassumption
        | apply sends_only_refl
        | eapply sends_only_trans; [eassumption|sends_done] ].

Lemma set_base_sends_only (dev dev' : dlo_device_t) (base base8 : Z)
    (rc : dlo_retcode_t) :
  set_base usb_io dev base base8 = Some (rc, dev') -> sends_only dev dev'.
Proof. unfold set_base. intros H. sends_chain; sends_done. Qed.

Lemma mode_program_sends_only (dev dev' : dlo_device_t) (m : dlo_mode_data_t)
    (rc : dlo_retcode_t) :
  mode_program usb_io blob_bytes DLO_MODE_POSTAMBLE dev m = Some (rc, dev') ->
  sends_only dev dev'.
Proof. unfold mode_program. intros H. sends_chain; sends_done. Qed.

Lemma sends_only_kept (dev dev' : dlo_device_t) :
  sends_only dev dev' -> change_kept dev dev'.
Proof.
  intros ((_ & _ & _ & Hn & Hs) & Hsent & He). by repeat split.
Qed.

Lemma change_kept_trans (d1 d2 d3 : dlo_device_t) :
  change_kept d1 d2 -> change_kept d2 d3 -> change_kept d1 d3.
Proof.
  intros (Hs1 & Hn1 & [s1 Hc1] & He1) (Hs2 & Hn2 & [s2 Hc2] & He2).
  split; [congruence|]. split; [congruence|]. split; [|congruence].
  exists (s1 ++ s2). by rewrite Hc2, Hc1, app_assoc.
Qed.

(** The members that [change_kept] speaks of are not written by the
    assignments of [mode_select] to the mode, [base8] and [low_blank]. *)
Ltac kept_by_setters :=
  split; [reflexivity|]; split; [reflexivity|]; split; [|reflexivity];
  exists []; cbn; by rewrite app_nil_r.

(** X13. Whatever it returns, [dlo_mode_change] leaves the supported
    array, the native mode and the size of the command buffer as they
    were, and what the transport was handed before the call stays at the
    head of its log. *)
Theorem dlo_mode_change_keeps (dev dev' : dlo_device_t) (desc : dlo_mode_t)
    (mode : Z) (rc : dlo_retcode_t) :
  dlo_mode_change usb_io blob_bytes DLO_MODE_POSTAMBLE DLO_DL120_MODES
    dev desc mode = Some (rc, dev') ->
  Dev.supported dev' = Dev.supported dev
  /\ Dev.native dev' = Dev.native dev
  /\ (exists sent, Dev.cnct dev' = Dev.cnct dev ++ sent)
  /\ Dev.bufend dev' = Dev.bufend dev.
Proof.
  intros H. change (change_kept dev dev').
  rewrite dlo_mode_change_resolved in H.
  destruct (resolved_mode dev desc mode) as [num|]; [|discriminate].
  cbn [mbind option_bind] in H. unfold mode_select in H.
  assert (Hrefl : change_kept dev dev)
    by (apply sends_only_kept, sends_only_refl).
  destruct (_ || _); [by injection H as <- <-|].
  destruct (negb (Z.land _ 1 =? 0)); [by injection H as <- <-|].
  destruct (dlo_usb_write usb_io dev) as [rc0 d0] eqn:Hw.
  apply dlo_usb_write_sends, sends_only_kept in Hw.
  destruct (negb (is_ok rc0)); [by injection H as <- <-|].
  match type of H with
  | ERR (set_base _ ?d _ _) _ = _ =>
      assert (HdB : change_kept d0 d) by kept_by_setters
  end.
  apply ERR_Some in H as [[H _]|[d1 [H1 H]]].
  { apply set_base_sends_only, sends_only_kept in H.
    eauto using change_kept_trans. }
  apply set_base_sends_only, sends_only_kept in H1.
  destruct (array_get dlo_mode_data num) as [e|]; [|discriminate].
  cbn [mbind option_bind] in H.
  assert (Hd1 : change_kept dev d1) by eauto using change_kept_trans.
  apply ERR_Some in H as [[H _]|[d2 [H2 H]]].
  { destruct (_ || _).
    - apply mode_program_sends_only, sends_only_kept in H.
      eauto using change_kept_trans.
    - by injection H as <- <-. }
  assert (Hd2 : change_kept dev d2).
  { destruct (_ || _).
    - apply mode_program_sends_only, sends_only_kept in H2.
      eauto using change_kept_trans.
    - by injection H2 as <-. }
  match type of H with
  | ERR (Some (dlo_usb_write _ ?d)) _ = _ =>
      assert (HdC : change_kept d2 d) by kept_by_setters
  end.
  apply ERR_Some in H as [[H _]|[d3 [H3 H]]].
  { apply (inj Some) in H. apply dlo_usb_write_sends, sends_only_kept in H.
    eauto using change_kept_trans. }
  apply (inj Some) in H3. apply dlo_usb_write_sends, sends_only_kept in H3.
  injection H as <- <-. eauto using change_kept_trans.
Qed.

(** X14. The base addresses are recorded before the outcome is known:
    once the mode number is valid, the base is even and the first flush
    has succeeded, [dev->mode.view.base] is the base of the desired mode
    and [dev->base8] is that base plus [2 * width * height] (as a
    [uint32_t]) on every return of [dlo_mode_change], also when a later
    step fails and an error is returned. *)
Theorem dlo_mode_change_commits_base (dev dev' : dlo_device_t)
    (desc : dlo_mode_t) (mode num : Z) (rc : dlo_retcode_t) :
  resolved_mode dev desc mode = Some num ->
  valid_modenum num ->
  Z.odd (View.base (Mode.view desc)) = false ->
  fst (dlo_usb_write usb_io dev) = dlo_ok ->
  dlo_mode_change usb_io blob_bytes DLO_MODE_POSTAMBLE DLO_DL120_MODES
    dev desc mode = Some (rc, dev') ->
  View.base (Mode.view (Dev.mode dev')) = View.base (Mode.view desc)
  /\ Dev.base8 dev'
     = u32 (View.base (Mode.view desc)
            + 2 * View.width (Mode.view desc) * View.height (Mode.view desc)).
Proof.
  intros Hres [Hlo Hhi] Heven Hflush H.
  rewrite dlo_mode_change_resolved, Hres in H.
  cbn [mbind option_bind] in H. unfold mode_select in H.
  destruct (Z.geb_spec num DLO_MODE_DATA_NUM); [lia|].
  destruct (Z.eqb_spec num DLO_INVALID_MODE) as [->|_];
    [unfold DLO_INVALID_MODE, DLO_MODE_DATA_NUM in *; lia|].
  cbn [orb] in H. rewrite land_1_odd, Heven in H. cbn [negb] in H.
  destruct (dlo_usb_write usb_io dev) as [rc0 d0].
  cbn [fst] in Hflush. subst rc0. cbn [is_ok negb] in H.
  apply ERR_Some in H as [[H _]|[d1 [H1 H]]].
  { apply set_base_sends_only in H as ((Hm & Hb & _) & _).
    rewrite Hm, Hb. by split. }
  apply set_base_sends_only in H1 as ((Hm1 & Hb1 & _) & _).
  destruct (array_get dlo_mode_data num) as [e|]; [|discriminate].
  cbn [mbind option_bind] in H.
  apply ERR_Some in H as [[H _]|[d2 [H2 H]]].
  { destruct (_ || _).
    - apply mode_program_sends_only in H as ((Hm & Hb & _) & _).
      rewrite Hm, Hb, Hm1, Hb1. by split.
    - injection H as _ <-. rewrite Hm1, Hb1. by split. }
  assert (Hb2 : Dev.base8 d2 = Dev.base8 d1).
  { destruct (_ || _).
    - by apply mode_program_sends_only in H2 as ((_ & Hb & _) & _).
    - by injection H2 as <-. }
  apply ERR_Some in H as [[H _]|[d3 [H3 H]]].
  { apply (inj Some) in H.
    apply dlo_usb_write_sends in H as ((Hm & Hb & _) & _).
    rewrite Hm, Hb. cbn. rewrite Hb2, Hb1. by split. }
  apply (inj Some) in H3.
  apply dlo_usb_write_sends in H3 as ((Hm & Hb & _) & _).
  injection H as _ <-. rewrite Hm, Hb. cbn. rewrite Hb2, Hb1. by split.
Qed.

Lemma usb_send_accepted (dev : dlo_device_t) (t : usb_transfer) :
  (forall h t, usb_io h t = dlo_ok) ->
  usb_send usb_io dev t = (dlo_ok, Dev.set_cnct dev (Dev.cnct dev ++ [t])).
Proof. intros Hacc. unfold usb_send. by rewrite Hacc. Qed.

Lemma mode_program_accepted (dev : dlo_device_t) (m : dlo_mode_data_t) :
  (forall h t, usb_io h t = dlo_ok) ->
  mode_program usb_io blob_bytes DLO_MODE_POSTAMBLE dev m
  = Some (dlo_ok,
          Dev.set_cnct dev
            (Dev.cnct dev
             ++ [usb_control (blob_bytes (ModeData.mode_en m));
                 usb_bulk (blob_bytes (ModeData.data m));
                 usb_control DLO_MODE_POSTAMBLE])).
Proof.
  intros Hacc. unfold mode_program, dlo_usb_chan_sel, dlo_usb_write_buf.
  rewrite usb_send_accepted by assumption. cbn [ERR is_ok].
  rewrite usb_send_accepted by assumption. cbn [ERR is_ok].
  rewrite usb_send_accepted by assumption. cbn [ERR is_ok].
  unfold Dev.set_cnct. cbn [Dev.cnct Dev.buffer Dev.bufptr Dev.mode
    Dev.base8 Dev.low_blank Dev.native Dev.supported].
  by rewrite <- !app_assoc.
Qed.

(** X15. The transfers of a mode change: with a valid mode number, an
    even base, a command buffer of at least 34 bytes and a transport that
    accepts every transfer, [dlo_mode_change] succeeds (with the DL160
    warning for a mode number below [DLO_DL120_MODES]) and hands the
    transport, in this order: the bytes staged before the call, the
    base-address commands, then only if the raster differs from the
    current one the entry's mode-enable blob (control), its mode data
    (bulk) and the postamble (control), and a last, empty flush.  The
    command buffer is empty afterwards. *)
Theorem dlo_mode_change_transfers (dev : dlo_device_t) (desc : dlo_mode_t)
    (mode num : Z) :
  (forall h t, usb_io h t = dlo_ok) ->
  resolved_mode dev desc mode = Some num ->
  valid_modenum num ->
  Z.odd (View.base (Mode.view desc)) = false ->
  buffer_ok dev ->
  34 <= Dev.bufend dev ->
  exists dev' e,
    array_get dlo_mode_data num = Some e
    /\ dlo_mode_change usb_io blob_bytes DLO_MODE_POSTAMBLE DLO_DL120_MODES
         dev desc mode
       = Some (if num <? DLO_DL120_MODES then dlo_warn_dl160_mode else dlo_ok,
               dev')
    /\ Dev.cnct dev'
       = Dev.cnct dev
         ++ [usb_bulk (staged dev);
             usb_bulk
               (base_commands (View.base (Mode.view desc))
                  (u32 (View.base (Mode.view desc)
                        + 2 * View.width (Mode.view desc)
                          * View.height (Mode.view desc))))]
         ++ (if raster_differs desc dev
             then [usb_control (blob_bytes (ModeData.mode_en e));
                   usb_bulk (blob_bytes (ModeData.data e));
                   usb_control DLO_MODE_POSTAMBLE]
             else [])
         ++ [usb_bulk []]
    /\ Dev.bufptr dev' = 0.
Proof.
  intros Hacc Hres Hvalid Heven Hok Hsize.
  pose proof Hvalid as [Hlo Hhi]. pose proof Hok as [[Hp0 Hp1] Hsz].
  destruct (array_get_valid num Hvalid) as [e He].
  rewrite dlo_mode_change_resolved, Hres.
  cbn [mbind option_bind]. unfold mode_select.
  destruct (Z.geb_spec num DLO_MODE_DATA_NUM); [lia|].
  destruct (Z.eqb_spec num DLO_INVALID_MODE) as [->|_];
    [unfold DLO_INVALID_MODE, DLO_MODE_DATA_NUM in *; lia|].
  cbn [orb]. rewrite land_1_odd, Heven. cbn [negb].
  unfold dlo_usb_write at 1. unfold usb_send at 1. rewrite Hacc.
  cbn [is_ok negb].
  match goal with
  | |- context [set_base _ ?d ?b ?b8] =>
      destruct (set_base_flush usb_io d b b8)
        as (d1 & Hsb & Hc1 & Hb1 & (Hm1 & _))
  end.
  { unfold buffer_ok, Dev.bufend in *.
    cbn [Dev.set_base8 Dev.set_mode Dev.set_buffer Dev.set_cnct Dev.bufptr
         Dev.buffer] in *. lia. }
  { unfold Dev.bufend in *.
    cbn [Dev.set_base8 Dev.set_mode Dev.set_buffer Dev.set_cnct Dev.bufptr
         Dev.buffer] in *. lia. }
  rewrite Hsb, Hacc. cbn [ERR is_ok]. rewrite He. cbn [mbind option_bind].
  rewrite Hm1.
  cbn [Dev.set_base8 Dev.set_mode Dev.set_buffer Dev.set_cnct Dev.mode
       Mode.view View.width View.height View.bpp].
  fold (raster_differs desc dev).
  cbn [Dev.set_base8 Dev.set_mode Dev.set_buffer Dev.set_cnct Dev.mode
       Dev.cnct Dev.base8 Dev.bufptr Dev.buffer Mode.view View.base] in Hc1.
  unfold staged in Hc1 at 1.
  cbn [Dev.bufptr Dev.buffer Z.to_nat take app] in Hc1.
  exists (let d2 := if raster_differs desc dev
                    then Dev.set_cnct d1
                           (Dev.cnct d1
                            ++ [usb_control (blob_bytes (ModeData.mode_en e));
                                usb_bulk (blob_bytes (ModeData.data e));
                                usb_control DLO_MODE_POSTAMBLE])
                    else d1 in
          let d3 := Dev.set_low_blank
                      (Dev.set_mode d2
                         (Mode.mk (Mode.view desc) (ModeData.refresh e)))
                      (ModeData.low_blank e) in
          Dev.set_cnct (Dev.set_buffer d3 (Dev.buffer d3) 0)
            (Dev.cnct d3 ++ [usb_bulk []])),
    e.
  split; [reflexivity|].
  assert (Hlast : forall d : dlo_device_t,
             Dev.bufptr d = 0 ->
             dlo_usb_write usb_io d
             = (dlo_ok,
                Dev.set_cnct (Dev.set_buffer d (Dev.buffer d) 0)
                  (Dev.cnct d ++ [usb_bulk []]))).
  { intros d Hd. unfold dlo_usb_write. rewrite usb_send_accepted by assumption.
    unfold staged. by rewrite Hd. }
  destruct (raster_differs desc dev).
  - rewrite mode_program_accepted by assumption. cbn [ERR is_ok].
    rewrite Hlast by exact Hb1. cbn [ERR is_ok].
    split; [reflexivity|]. split; [|reflexivity].
    cbn [Dev.set_low_blank Dev.set_mode Dev.set_cnct Dev.set_buffer
         Dev.cnct].
    rewrite Hc1. by rewrite <- !app_assoc.
  - cbn [ERR is_ok]. rewrite Hlast by exact Hb1. cbn [ERR is_ok].
    split; [reflexivity|]. split; [|reflexivity].
    cbn [Dev.set_low_blank Dev.set_mode Dev.set_cnct Dev.set_buffer
         Dev.cnct].
    rewrite Hc1. by rewrite <- !app_assoc.
Qed.

End ModeSelectFacts.

(** ** Byte order *)

(** The bits of a byte from bit 8 on are clear. *)
Lemma byte_high (b n : Z) : 0 <= b < 256 -> 8 <= n -> Z.testbit b n = false.
Proof.
  intros Hb Hn. rewrite <- (Z.mod_small b (2 ^ 8)) by lia.
  rewrite Z.testbit_mod_pow2 by lia.
  rewrite (proj2 (Z.ltb_ge n 8)) by lia. reflexivity.
Qed.

(** The masks and moduli as powers of two and runs of ones. *)
Ltac bits_open :=
  change 4294967296 with (2 ^ 32) in *;
  change 65536 with (2 ^ 16) in *;
  change 0xFF0000 with (Z.shiftl (Z.ones 8) 16) in *;
  change 0xFF00 with (Z.shiftl (Z.ones 8) 8) in *;
  change 0xFF with (Z.ones 8) in *.

(** One step of the computation of a bit of a word built from shifts,
    masks and disjunctions. *)
Ltac bits_step :=
  match goal with
  | |- context [Z.testbit (?a mod 2 ^ ?k) ?m] =>
      rewrite (Z.testbit_mod_pow2 a k m) by lia
  | |- context [Z.testbit (Z.lor ?a ?b) ?m] => rewrite (Z.lor_spec a b m)
  | |- context [Z.testbit (Z.land ?a ?b) ?m] => rewrite (Z.land_spec a b m)
  | |- context [Z.testbit (Z.shiftl ?a ?k) ?m] =>
      first [ rewrite (Z.shiftl_spec a k m) by lia
            | rewrite (Z.testbit_neg_r (Z.shiftl a k) m) by lia ]
  | |- context [Z.testbit (Z.shiftr ?a ?k) ?m] =>
      first [ rewrite (Z.shiftr_spec a k m) by lia
            | rewrite (Z.testbit_neg_r (Z.shiftr a k) m) by lia ]
  | |- context [Z.testbit (Z.ones ?k) ?m] =>
      rewrite (Z.testbit_ones k m) by lia
  | |- context [Z.testbit ?v ?m] =>
      rewrite (Z.testbit_neg_r v m) by lia
  | H : 0 <= ?b < 256 |- context [Z.testbit ?b ?m] =>
      rewrite (byte_high b m H) by lia
  | |- context [?a <? ?b] =>
      first [ rewrite (proj2 (Z.ltb_lt a b)) by lia
            | rewrite (proj2 (Z.ltb_ge a b)) by lia ]
  | |- context [?a <=? ?b] =>
      first [ rewrite (proj2 (Z.leb_le a b)) by lia
            | rewrite (proj2 (Z.leb_gt a b)) by lia ]
  end.

(** Computes both sides bit by bit, for an index in a known range. *)
Ltac bits_solve :=
  repeat bits_step;
  cbn [andb orb];
  rewrite ?andb_false_r, ?orb_false_r, ?andb_true_r, ?orb_false_l;
  first [ reflexivity | f_equal; lia ].

(** Bit [n] of the swapped word is the bit of the mirrored byte. *)
Lemma swap_endian_l_bits (v n : Z) :
  0 <= n ->
  Z.testbit (swap_endian_l v) n
  = if n <? 8 then Z.testbit v (n + 24)
    else if n <? 16 then Z.testbit v (n + 8)
    else if n <? 24 then Z.testbit v (n - 8)
    else if n <? 32 then Z.testbit v (n - 24)
    else false.
Proof.
  intros Hn. unfold swap_endian_l, u32. bits_open.
  destruct (Z.lt_ge_cases n 8); [bits_solve|].
  destruct (Z.lt_ge_cases n 16); [bits_solve|].
  destruct (Z.lt_ge_cases n 24); [bits_solve|].
  destruct (Z.lt_ge_cases n 32); bits_solve.
Qed.

(** X16. Swapping the byte order of a 32-bit word twice gives the word
    back: [swap_endian_l] is an involution on [uint32_t]. *)
Theorem swap_endian_l_involutive (v : Z) :
  0 <= v < 2 ^ 32 -> swap_endian_l (swap_endian_l v) = v.
Proof.
  intros Hv. apply Z.bits_inj'. intros n Hn.
  rewrite swap_endian_l_bits by assumption.
  rewrite <- (Z.mod_small v (2 ^ 32)) at 5 by lia.
  destruct (Z.lt_ge_cases n 8);
    [rewrite swap_endian_l_bits by lia; bits_solve|].
  destruct (Z.lt_ge_cases n 16);
    [rewrite (proj2 (Z.ltb_ge n 8)) by lia;
     rewrite (proj2 (Z.ltb_lt n 16)) by lia;
     rewrite swap_endian_l_bits by lia; bits_solve|].
  destruct (Z.lt_ge_cases n 24);
    [rewrite (proj2 (Z.ltb_ge n 8)) by lia;
     rewrite (proj2 (Z.ltb_ge n 16)) by lia;
     rewrite (proj2 (Z.ltb_lt n 24)) by lia;
     rewrite swap_endian_l_bits by lia; bits_solve|].
  destruct (Z.lt_ge_cases n 32);
    [rewrite (proj2 (Z.ltb_ge n 8)) by lia;
     rewrite (proj2 (Z.ltb_ge n 16)) by lia;
     rewrite (proj2 (Z.ltb_ge n 24)) by lia;
     rewrite (proj2 (Z.ltb_lt n 32)) by lia;
     rewrite swap_endian_l_bits by lia; bits_solve|].
  bits_solve.
Qed.

Lemma swap_endian_s_bits (v n : Z) :
  0 <= n ->
  Z.testbit (swap_endian_s v) n
  = if n <? 8 then Z.testbit v (n + 8)
    else if n <? 16 then Z.testbit v (n - 8)
    else false.
Proof.
  intros Hn. unfold swap_endian_s, u16. bits_open.
  destruct (Z.lt_ge_cases n 8); [bits_solve|].
  destruct (Z.lt_ge_cases n 16); bits_solve.
Qed.

(** The four byte positions of a bit index, and beyond. *)
Ltac bits_cases n :=
  destruct (Z.lt_ge_cases n 8); [bits_solve|];
  destruct (Z.lt_ge_cases n 16); [bits_solve|];
  destruct (Z.lt_ge_cases n 24); [bits_solve|];
  destruct (Z.lt_ge_cases n 32); bits_solve.

Lemma swap_endian_s_bytes (a b : Z) :
  0 <= a < 256 -> 0 <= b < 256 ->
  swap_endian_s (Z.lor (Z.shiftl a 8) b) = Z.lor a (Z.shiftl b 8).
Proof.
  intros Ha Hb. apply Z.bits_inj'. intros n Hn.
  rewrite swap_endian_s_bits by assumption.
  bits_cases n.
Qed.

Lemma swap_endian_l_bytes (a b c d : Z) :
  0 <= a < 256 -> 0 <= b < 256 -> 0 <= c < 256 -> 0 <= d < 256 ->
  swap_endian_l (Z.lor (Z.shiftl (Z.lor (Z.shiftl a 8) b) 16)
                       (Z.lor (Z.shiftl c 8) d))
  = Z.lor (Z.lor a (Z.shiftl b 8)) (Z.shiftl (Z.lor c (Z.shiftl d 8)) 16).
Proof.
  intros Ha Hb Hc Hd. apply Z.bits_inj'. intros n Hn.
  rewrite swap_endian_l_bits by assumption.
  bits_cases n.
Qed.

Lemma lor_byte_shift (a b k : Z) :
  0 <= a < 2 ^ k -> 0 <= k -> Z.lor a (Z.shiftl b k) = a + 2 ^ k * b.
Proof.
  intros Ha Hk.
  rewrite Z.shiftl_mul_pow2 by lia.
  rewrite <- Z.lxor_lor.
  - rewrite (Z.mul_comm (2 ^ k)). symmetry. apply Z.add_nocarry_lxor.
    apply Z.bits_inj'. intros n Hn.
    rewrite Z.land_spec, Z.bits_0.
    destruct (Z.lt_ge_cases n k).
    + rewrite Z.mul_pow2_bits_low by lia. apply andb_false_r.
    + rewrite <- (Z.mod_small a (2 ^ k)) by lia.
      rewrite Z.testbit_mod_pow2 by lia.
      rewrite (proj2 (Z.ltb_ge n k)) by lia. reflexivity.
  - apply Z.bits_inj'. intros n Hn.
    rewrite Z.land_spec, Z.bits_0.
    destruct (Z.lt_ge_cases n k).
    + rewrite Z.mul_pow2_bits_low by lia. apply andb_false_r.
    + rewrite <- (Z.mod_small a (2 ^ k)) by lia.
      rewrite Z.testbit_mod_pow2 by lia.
      rewrite (proj2 (Z.ltb_ge n k)) by lia. reflexivity.
Qed.

(** X17. Swapping the two bytes of a 16-bit word twice gives the word
    back: [swap_endian_s] is an involution on [uint16_t]. *)
Theorem swap_endian_s_involutive (v : Z) :
  0 <= v < 2 ^ 16 -> swap_endian_s (swap_endian_s v) = v.
Proof.
  intros Hv. apply Z.bits_inj'. intros n Hn.
  rewrite swap_endian_s_bits by assumption.
  rewrite <- (Z.mod_small v (2 ^ 16)) at 3 by lia.
  destruct (Z.lt_ge_cases n 8);
    [rewrite swap_endian_s_bits by lia; bits_solve|].
  destruct (Z.lt_ge_cases n 16);
    [rewrite (proj2 (Z.ltb_ge n 8)) by lia;
     rewrite (proj2 (Z.ltb_lt n 16)) by lia;
     rewrite swap_endian_s_bits by lia; bits_solve|].
  bits_solve.
Qed.

Lemma RD_B_range (ptr : list byte) (off : nat) : 0 <= RD_B ptr off < 256.
Proof. apply byte_val_range. Qed.

(** X18. The words of the EDID are read as little-endian whatever the
    byte order of the host: on either host, [LETOHS] of the 16-bit read
    is the first byte plus 256 times the second, and [LETOHL] of the
    32-bit read is the four bytes weighted by 1, 2^8, 2^16 and 2^24. *)
Theorem edid_words_little_endian (bigendian : bool) (ptr : list byte)
    (off : nat) :
  LETOHS bigendian (RD_S bigendian ptr off)
  = RD_B ptr off + 256 * RD_B ptr (off + 1)
  /\ LETOHL bigendian (RD_L bigendian ptr off)
     = RD_B ptr off + 256 * RD_B ptr (off + 1)
       + 65536 * RD_B ptr (off + 2) + 16777216 * RD_B ptr (off + 3).
Proof.
  pose proof (RD_B_range ptr off) as H0.
  pose proof (RD_B_range ptr (off + 1)) as H1.
  pose proof (RD_B_range ptr (off + 2)) as H2.
  pose proof (RD_B_range ptr (off + 3)) as H3.
  assert (Hs : Z.lor (RD_B ptr off) (Z.shiftl (RD_B ptr (off + 1)) 8)
               = RD_B ptr off + 256 * RD_B ptr (off + 1)).
  { rewrite lor_byte_shift by (change (2 ^ 8) with 256; lia).
    reflexivity. }
  assert (Hl : Z.lor (Z.lor (RD_B ptr off)
                            (Z.shiftl (RD_B ptr (off + 1)) 8))
                     (Z.shiftl (Z.lor (RD_B ptr (off + 2))
                                      (Z.shiftl (RD_B ptr (off + 3)) 8)) 16)
               = RD_B ptr off + 256 * RD_B ptr (off + 1)
                 + 65536 * RD_B ptr (off + 2)
                 + 16777216 * RD_B ptr (off + 3)).
  { rewrite Hs.
    rewrite (lor_byte_shift (RD_B ptr (off + 2)))
      by (change (2 ^ 8) with 256; lia).
    rewrite lor_byte_shift by (change (2 ^ 16) with 65536; lia).
    change (2 ^ 8) with 256. change (2 ^ 16) with 65536. lia. }
  unfold LETOHS, LETOHL, RD_L, RD_S.
  replace (off + 2 + 1)%nat with (off + 3)%nat by lia.
  destruct bigendian.
  - rewrite swap_endian_s_bytes by assumption.
    rewrite swap_endian_l_bytes by assumption.
    split; assumption.
  - split; assumption.
Qed.

(** ** The native mode and the catalogue *)
















(** The lookups of a build do not always see the catalogue: on the
    device with the default modes the walk over the established timings
    overwrites the elements 0 to 10 of the supported array, among them
    the entry of 1920x1080 at 60 Hz, so a detailed descriptor of 1920x1080
    is not found afterwards, although the catalogue has the mode, and the
    native mode stays zero. *)
Lemma aliased_lookup_misses :
  cat_hit 1920 1080 60 = true
  /\ walk_finds_catalogue default_device
       (parse_edid_format edid_detail_1920x1080) = false
  /\ exists dev',
       dlo_mode_parse_edid default_device edid_detail_1920x1080
       = Some (dlo_ok, dev')
       /\ Dev.native dev' = zero_mode.
Proof.
  split; [vm_compute; reflexivity|]. split; [vm_compute; reflexivity|].
  eexists. split; vm_compute; reflexivity.
Qed.

(** ** The further properties at concrete inputs *)

Lemma lookup_from_number_witness :
  21 ∈ before_sentinel (Dev.supported default_device)
  /\ 24 = 24
  /\ exists m,
       dlo_mode_from_number 21 = Some m
       /\ View.width (Mode.view m) = 1024
       /\ View.bpp (Mode.view m) = 24
       /\ (768 <> 0 -> View.height (Mode.view m) = 768)
       /\ (60 <> 0 -> Mode.refresh m = 60).
Proof.
  apply (lookup_from_number default_device 1024 768 60 24 21).
  - reflexivity.
  - by_evaluation.
  - vm_compute. reflexivity.
  - vm_compute. intros H. discriminate H.
Defined.

Lemma lookup_monotone_witness :
  exists n2,
    dlo_mode_lookup default_device 640 480 60 24 = Some n2
    /\ n2 <> DLO_INVALID_MODE.
Proof.
  apply (lookup_monotone est_device default_device 640 480 60 24 34).
  - reflexivity.
  - reflexivity.
  - by_evaluation.
  - by_evaluation.
  - change (before_sentinel (Dev.supported est_device)
            ⊆ before_sentinel (Dev.supported default_device)).
    by_evaluation.
  - vm_compute. reflexivity.
  - vm_compute. intros H. discriminate H.
Defined.

Lemma default_lookup_lowest_witness :
  exists num,
    dlo_mode_lookup (use_default_modes fresh_device) 1024 768 60 24
    = Some num
    /\ ((num = DLO_INVALID_MODE /\ cat_hit 1024 768 60 = false)
        \/ (valid_modenum num
            /\ cat_hit 1024 768 60 = true
            /\ entry_matches num 1024 768 60 24 = true
            /\ forall j, 0 <= j < num ->
                         entry_matches j 1024 768 60 24 = false))
    /\ num <> 5.
Proof.
  apply (default_lookup_lowest fresh_device 1024 768 60).
  reflexivity.
Defined.

Lemma parse_edid_adds_no_mode_witness :
  Forall (fun n => n = DLO_INVALID_MODE \/ n ∈ Dev.supported default_device)
         (Dev.supported est_device).
Proof.
  apply Forall_forall.
  apply (parse_edid_adds_no_mode default_device est_device edid_est_640x480
           dlo_ok).
  vm_compute. reflexivity.
Defined.

Lemma parse_edid_keeps_device_witness :
  same_but_modes default_device detail_device
  /\ (dlo_ok = dlo_ok \/ dlo_ok = dlo_err_edid_fail)
  /\ (dlo_ok <> dlo_ok -> detail_device = default_device).
Proof.
  apply (parse_edid_keeps_device default_device detail_device
           edid_detail_1280x1024 dlo_ok).
  vm_compute. reflexivity.
Defined.

Lemma parse_edid_keeps_last_witness :
  Dev.supported est_device !! 31%nat = Some DLO_INVALID_MODE
  /\ Dev.supported est_device !! 32%nat = Some DLO_INVALID_MODE
  /\ Dev.supported est_device !! 33%nat = Some DLO_INVALID_MODE
  /\ Dev.supported est_device !! 34%nat
     = Dev.supported default_device !! 34%nat.
Proof.
  apply (parse_edid_keeps_last default_device est_device edid_est_640x480).
  - by_evaluation.
  - vm_compute. reflexivity.
Defined.

Lemma parse_edid_no_detail_witness : Dev.native cleared_device = zero_mode.
Proof.
  apply (parse_edid_no_detail detail_device cleared_device edid_est_640x480).
  - intros i Hi.
    destruct i as [|[|[|[|i]]]]; [vm_compute; tauto..|lia].
  - vm_compute. reflexivity.
Defined.

Lemma detail_geometry_witness :
  parse_edid_detail_desc desc_zeros = timing_desc
  /\ exists detail,
       parse_edid_detail_desc detail_1280x1024 = timing_detail detail
       /\ detail_width detail
          = RD_B detail_1280x1024 2 + 256 * (RD_B detail_1280x1024 4 / 16)
       /\ detail_height detail
          = RD_B detail_1280x1024 5 + 256 * (RD_B detail_1280x1024 7 / 16)
       /\ 0 <= detail_width detail < 4096
       /\ 0 <= detail_height detail < 4096.
Proof.
  split.
  - apply (proj1 (detail_geometry desc_zeros)).
    vm_compute. tauto.
  - apply (proj2 (detail_geometry detail_1280x1024)).
    vm_compute. intros [H _]. discriminate H.
Defined.

Lemma staging_composes_witness :
  vreg fresh_device x20 x00 = vbuf fresh_device [xaf; x20; x20; x00]
  /\ (ERR (vbuf fresh_device WRITE_VIDREG_LOCK)
          (fun dev' => vbuf dev' WRITE_VIDREG_UNLOCK)
      = vbuf fresh_device (WRITE_VIDREG_LOCK ++ WRITE_VIDREG_UNLOCK)
      /\ vbuf fresh_device (WRITE_VIDREG_LOCK ++ WRITE_VIDREG_UNLOCK)
         = Some (dlo_ok,
                 stage_bytes fresh_device
                   (WRITE_VIDREG_LOCK ++ WRITE_VIDREG_UNLOCK)))
  /\ (ERR (vbuf ten_byte_device WRITE_VIDREG_UNLOCK)
          (fun dev' => vbuf dev' WRITE_VIDREG_UNLOCK)
      = Some (dlo_err_buf_full,
              stage_bytes ten_byte_device WRITE_VIDREG_UNLOCK)
      /\ vbuf ten_byte_device (WRITE_VIDREG_UNLOCK ++ WRITE_VIDREG_UNLOCK)
         = Some (dlo_err_buf_full, ten_byte_device)).
Proof.
  assert (Hfresh : buffer_ok fresh_device) by by_evaluation.
  assert (Hten : buffer_ok ten_byte_device) by by_evaluation.
  split; [|split].
  - apply (proj1 (staging_composes fresh_device WRITE_VIDREG_LOCK
                    WRITE_VIDREG_UNLOCK x20 x00 Hfresh)).
  - apply (proj1 (proj2 (staging_composes fresh_device WRITE_VIDREG_LOCK
                           WRITE_VIDREG_UNLOCK x20 x00 Hfresh))).
    by_evaluation.
  - apply (proj2 (proj2 (staging_composes ten_byte_device
                           WRITE_VIDREG_UNLOCK WRITE_VIDREG_UNLOCK x20 x00
                           Hten))).
    by_evaluation.
Defined.

Lemma set_base_bulk_write_witness :
  exists dev',
    set_base usb_accepts fresh_device 0 0x180000
    = Some (usb_accepts (Dev.cnct fresh_device)
              (usb_bulk (staged fresh_device ++ base_commands 0 0x180000)),
            dev')
    /\ Dev.cnct dev'
       = Dev.cnct fresh_device
         ++ [usb_bulk (staged fresh_device ++ base_commands 0 0x180000)]
    /\ Dev.bufptr dev' = 0
    /\ same_display fresh_device dev'.
Proof.
  apply (set_base_bulk_write usb_accepts fresh_device 0 0x180000).
  - by_evaluation.
  - by_evaluation.
Defined.

Lemma set_base_overflow_witness :
  exists dev',
    set_base usb_accepts ten_byte_device 0 0x180000
    = Some (dlo_err_buf_full, dev')
    /\ dev' = stage_bytes ten_byte_device
                (take (base_staged
                         (Dev.bufend ten_byte_device
                          - Dev.bufptr ten_byte_device))
                      (base_commands 0 0x180000))
    /\ Dev.cnct dev' = Dev.cnct ten_byte_device
    /\ staged dev'
       = staged ten_byte_device
         ++ take (base_staged
                    (Dev.bufend ten_byte_device - Dev.bufptr ten_byte_device))
                 (base_commands 0 0x180000)
    /\ Dev.bufptr dev'
       = Dev.bufptr ten_byte_device
         + Z.of_nat (base_staged
                       (Dev.bufend ten_byte_device
                        - Dev.bufptr ten_byte_device)).
Proof.
  apply (set_base_overflow usb_accepts ten_byte_device 0 0x180000).
  - by_evaluation.
  - by_evaluation.
Defined.

Lemma dlo_mode_change_keeps_witness :
  Dev.supported (snd (dlo_usb_write usb_refuses default_device))
  = Dev.supported default_device
  /\ Dev.native (snd (dlo_usb_write usb_refuses default_device))
     = Dev.native default_device
  /\ (exists sent,
         Dev.cnct (snd (dlo_usb_write usb_refuses default_device))
         = Dev.cnct default_device ++ sent)
  /\ Dev.bufend (snd (dlo_usb_write usb_refuses default_device))
     = Dev.bufend default_device.
Proof.
  apply (dlo_mode_change_keeps usb_refuses no_bytes [] 8 default_device
           (snd (dlo_usb_write usb_refuses default_device)) desc_1024x768 21
           (dlo_retcode_num DLO_INVALID_MODE)).
  vm_compute. reflexivity.
Defined.

Lemma dlo_mode_change_commits_base_witness :
  View.base (Mode.view (Dev.mode refused_device))
  = View.base (Mode.view desc_second_page)
  /\ Dev.base8 refused_device
     = u32 (View.base (Mode.view desc_second_page)
            + 2 * View.width (Mode.view desc_second_page)
              * View.height (Mode.view desc_second_page)).
Proof.
  apply (dlo_mode_change_commits_base usb_accepts_once no_bytes [] 8
           default_device refused_device desc_second_page DLO_INVALID_MODE 18
           (dlo_retcode_num 1)).
  - vm_compute. reflexivity.
  - by_evaluation.
  - reflexivity.
  - reflexivity.
  - vm_compute. reflexivity.
Defined.

Lemma dlo_mode_change_transfers_witness :
  exists dev' e,
    array_get dlo_mode_data 18 = Some e
    /\ dlo_mode_change usb_accepts no_bytes [] 8 default_device
         desc_1024x768 DLO_INVALID_MODE
       = Some (if 18 <? 8 then dlo_warn_dl160_mode else dlo_ok, dev')
    /\ Dev.cnct dev'
       = Dev.cnct default_device
         ++ [usb_bulk (staged default_device);
             usb_bulk
               (base_commands (View.base (Mode.view desc_1024x768))
                  (u32 (View.base (Mode.view desc_1024x768)
                        + 2 * View.width (Mode.view desc_1024x768)
                          * View.height (Mode.view desc_1024x768))))]
         ++ (if raster_differs desc_1024x768 default_device
             then [usb_control (no_bytes (ModeData.mode_en e));
                   usb_bulk (no_bytes (ModeData.data e));
                   usb_control []]
             else [])
         ++ [usb_bulk []]
    /\ Dev.bufptr dev' = 0.
Proof.
  apply (dlo_mode_change_transfers usb_accepts no_bytes [] 8 default_device
           desc_1024x768 DLO_INVALID_MODE 18).
  - intros h t. reflexivity.
  - vm_compute. reflexivity.
  - by_evaluation.
  - reflexivity.
  - by_evaluation.
  - by_evaluation.
Defined.

Lemma swap_endian_l_involutive_witness :
  swap_endian_l (swap_endian_l 0x12345678) = 0x12345678.
Proof.
  apply (swap_endian_l_involutive 0x12345678).
  by_evaluation.
Defined.

Lemma swap_endian_s_involutive_witness :
  swap_endian_s (swap_endian_s 0x1234) = 0x1234.
Proof.
  apply (swap_endian_s_involutive 0x1234).
  by_evaluation.
Defined.

